(** * Minami: a shallow embedding of [publish.js]

    The JSDoc template [publish.js] is glue code around the JSDoc host:
    it decorates doclets, derives display strings and writes pages.  This
    development embeds the functions of [publish.js] as Rocq functions and
    proves properties of them.

    Conventions of the embedding.
    - A JavaScript string is a [string]; every character stands for one
      code unit below 256.
    - An object that is shared and mutated (a doclet of the record
      collection) lives in a store, a list addressed by index.
    - A call that may throw returns a [result]; a call that acts on a
      state and may throw keeps the state it leaves behind.
    - Functions of the JSDoc host ([jsdoc/util/templateHelper],
      [jsdoc/path], [jsdoc/fs], the template engine) are not part of this
      repository; they are the fields of the class [Host]. *)

From Stdlib Require Import String Ascii List Bool Arith Lia.
From stdpp Require Import base option list strings gmap.

Local Open Scope string_scope.
Local Open Scope list_scope.

(** ** JavaScript strings *)

Module JsString.

(** The double quote, written by its code. *)
Definition dq : string := String (ascii_of_nat 34) EmptyString.
(** Line feed, carriage return and the backslash. *)
Definition lf : ascii := ascii_of_nat 10.
Definition cr : ascii := ascii_of_nat 13.
Definition backslash : ascii := ascii_of_nat 92.
Definition slash : ascii := ascii_of_nat 47.

(** [String.prototype.toLowerCase] on code units below 256: the letters
    A-Z and the Latin-1 capitals (192-222 but 215) move up by 32. *)
Definition lower_ascii (c : ascii) : ascii :=
  let n := nat_of_ascii c in
  if (((65 <=? n) && (n <=? 90)) || ((192 <=? n) && (n <=? 222) && negb (n =? 215)))%nat
  then ascii_of_nat (n + 32) else c.

Fixpoint toLowerCase (s : string) : string :=
  match s with
  | EmptyString => EmptyString
  | String c s' => String (lower_ascii c) (toLowerCase s')
  end.

(** [s.startsWith(p)], used to define the searches below. *)
Fixpoint starts_with (p s : string) : bool :=
  match p, s with
  | EmptyString, _ => true
  | String a p', String b s' => if Ascii.eqb a b then starts_with p' s' else false
  | String _ _, EmptyString => false
  end.

Fixpoint drop_chars (n : nat) (s : string) : string :=
  match n, s with
  | O, _ => s
  | S n', String _ s' => drop_chars n' s'
  | S _, EmptyString => EmptyString
  end.

(** [s.replace(pat, rep)] for a string pattern [pat] and a replacement
    [rep] without dollar patterns: the first occurrence of [pat] in [s] is
    replaced, and [s] is returned as it is when there is none. *)
Fixpoint replace_first (pat rep s : string) : string :=
  if starts_with pat s then rep +:+ drop_chars (String.length pat) s
  else match s with
       | EmptyString => EmptyString
       | String c s' => String c (replace_first pat rep s')
       end.

(** The replacement text of [s.replace(pat, rep)] for a string pattern:
    [$$] is a dollar sign, [$&] the text matched, and the dollar sign before
    a backquote or a quote the text before or after the match; any other
    character stands for itself. *)
Fixpoint expand_dollars (rep m pre post : string) : string :=
  match rep with
  | EmptyString => EmptyString
  | String "$" (String "$" r) => String "$" (expand_dollars r m pre post)
  | String "$" (String "&" r) => m +:+ expand_dollars r m pre post
  | String "$" (String "`" r) => pre +:+ expand_dollars r m pre post
  | String "$" (String "'" r) => post +:+ expand_dollars r m pre post
  | String c r => String c (expand_dollars r m pre post)
  end.

(** [s.replace(pat, rep)] for a string pattern [pat] and any replacement
    [rep]; [pre] is the text already passed. *)
Fixpoint replace_string_from (pre pat rep s : string) : string :=
  if starts_with pat s
  then expand_dollars rep pat pre (drop_chars (String.length pat) s)
       +:+ drop_chars (String.length pat) s
  else match s with
       | EmptyString => EmptyString
       | String c s' =>
           String c (replace_string_from (pre +:+ String c EmptyString) pat rep s')
       end.

Definition replace_string (pat rep s : string) : string :=
  replace_string_from EmptyString pat rep s.

(** [s.replace(/\\/g, '/')]: every backslash becomes a slash. *)
Fixpoint backslashes_to_slashes (s : string) : string :=
  match s with
  | EmptyString => EmptyString
  | String c s' =>
      String (if Ascii.eqb c backslash then slash else c) (backslashes_to_slashes s')
  end.

(** [s.indexOf(p) !== -1]. *)
Fixpoint includes (p s : string) : bool :=
  starts_with p s ||
  match s with
  | EmptyString => false
  | String _ s' => includes p s'
  end.

(** [arr.join(sep)] on an array of strings. *)
Fixpoint join (sep : string) (l : list string) : string :=
  match l with
  | [] => ""
  | [x] => x
  | x :: l' => x +:+ sep +:+ join sep l'
  end.

(** [arr.indexOf(x)] on an array of strings; [None] stands for -1. *)
Fixpoint indexOf (x : string) (l : list string) : option nat :=
  match l with
  | [] => None
  | y :: l' => if String.eqb y x then Some 0 else S <$> indexOf x l'
  end.

(** The loop of [util.format] over the format string, for string
    arguments.  The format strings of [publish.js] use the placeholder
    [%s] only; [%%] is a percent sign, a placeholder without argument
    stays, and arguments left over are appended after a space each. *)
Fixpoint format_with (fmt : string) (args : list string) : string :=
  match fmt with
  | EmptyString => String.concat "" (map (fun a => " " +:+ a) args)
  | String "%" (String "s" rest) =>
      match args with
      | a :: args' => a +:+ format_with rest args'
      | [] => "%s" +:+ format_with rest []
      end
  | String "%" (String "%" rest) => String "%" (format_with rest args)
  | String c rest => String c (format_with rest args)
  end.

(** [util.format(fmt, ...args)]: a format string alone is returned as it
    is. *)
Definition util_format (fmt : string) (args : list string) : string :=
  match args with
  | [] => fmt
  | _ :: _ => format_with fmt args
  end.

End JsString.
Import JsString.

(** ** JavaScript values and exceptions *)

(** The values a loosely typed field takes ([item.optional],
    [item.nullable], [item.variable]). *)
Inductive jsval : Type :=
  | JUndefined
  | JNull
  | JBool (b : bool)
  | JNum (n : Z)
  | JStr (s : string).

(** [ToBoolean]. *)
Definition truthy (v : jsval) : bool :=
  match v with
  | JUndefined | JNull => false
  | JBool b => b
  | JNum n => negb (Z.eqb n 0)
  | JStr s => negb (String.eqb s "")
  end.

(** [v === true] and [v === false]. *)
Definition is_true (v : jsval) : bool :=
  match v with JBool true => true | _ => false end.
Definition is_false (v : jsval) : bool :=
  match v with JBool false => true | _ => false end.

Inductive js_error : Type :=
  | ReferenceError (name : string)
  | TypeError (msg : string)
  | HostError (msg : string).

Definition message (e : js_error) : string :=
  match e with
  | ReferenceError n => n +:+ " is not defined"
  | TypeError m => m
  | HostError m => m
  end.

Inductive result (A : Type) : Type :=
  | Ok (a : A)
  | Throw (e : js_error).
Arguments Ok {A} a.
Arguments Throw {A} e.

(** Sequencing of calls that may throw, with stdpp's notation
    [x ← call; rest]. *)
#[global] Instance result_ret : MRet result := fun A a => Ok a.
#[global] Instance result_bind : MBind result := fun A B k r =>
  match r with
  | Ok a => k a
  | Throw e => Throw e
  end.

(** A call that acts on a state [S] and may throw: the state it leaves
    behind is kept when it throws, as the effects of a JavaScript call
    are. *)
Definition eff (S A : Type) : Type := S -> result A * S.

#[global] Instance eff_ret {S} : MRet (eff S) := fun A a s => (Ok a, s).
#[global] Instance eff_bind {S} : MBind (eff S) := fun A B k m s =>
  match m s with
  | (Ok a, s') => k a s'
  | (Throw e, s') => (Throw e, s')
  end.

(** A computation without effect, and a change of the state. *)
Definition lift {S A} (r : result A) : eff S A := fun s => (r, s).
Definition modify {S} (f : S -> S) : eff S unit := fun s => (Ok tt, f s).

(** [array.forEach(body)] for a body with effects: a throw ends the
    loop. *)
Fixpoint for_each {A S : Type} (body : A -> eff S unit) (l : list A) : eff S unit :=
  match l with
  | [] => mret tt
  | x :: rest => body x ;; for_each body rest
  end.

(** ** Doclets *)

(** [{ names: [...] }], the declared type of a doclet or of an item. *)
Record type_rec : Type := mkType { names : option (list string) }.

(** A parameter or a return value. *)
Record item : Type := mkItem {
  item_name : option string;
  item_optional : jsval;
  item_nullable : jsval;
  item_variable : jsval;
  item_type : option type_rec
}.

(** ** Parameter names: [getSignatureAttributes], [updateItemName] *)

Definition getSignatureAttributes (it : item) : list string :=
  let attributes := [] in
  let attributes :=
    if truthy (item_optional it) then attributes ++ ["opt"] else attributes in
  let attributes :=
    if is_true (item_nullable it) then attributes ++ ["nullable"]
    else if is_false (item_nullable it) then attributes ++ ["non-null"]
    else attributes in
  attributes.

(** [x || ''] for a field that is a string or undefined. *)
Definition or_empty (o : option string) : string :=
  match o with
  | Some s => s
  | None => ""
  end.

Definition optional_param_span (itemName : string) : string :=
  "<span class=" +:+ dq +:+ "optional-param" +:+ dq +:+ ">[" +:+ itemName +:+ "]</span>".

Definition signature_attributes_fmt : string :=
  "%s<span class=" +:+ dq +:+ "signature-attributes" +:+ dq +:+ ">%s</span>".

Definition updateItemName (it : item) : string :=
  let attributes := getSignatureAttributes it in
  let itemName := or_empty (item_name it) in
  let itemName :=
    if truthy (item_variable it) then "&hellip;" +:+ itemName else itemName in
  if negb (Nat.eqb (length attributes) 0) then
    let '(itemName, attributes) :=
      match indexOf "opt" attributes with
      | Some idx => (optional_param_span itemName, delete idx attributes)
      | None => (itemName, attributes)
      end in
    if Nat.ltb 0 (length attributes)
    then util_format signature_attributes_fmt [itemName; join ", " attributes]
    else itemName
  else itemName.

(** ** The doclet record *)

(** [doclet.meta]: where the entity was found; [shortpath] is attached by
    [publish]. *)
Record meta_rec : Type := mkMeta {
  meta_path : option string;
  meta_filename : string;
  meta_shortpath : option string
}.

(** What [formatExample] returns. *)
Record example_rec : Type := mkExample {
  caption : string;
  code : string
}.

(** A location of the store of doclets. *)
Abbreviation loc := nat.

(** A doclet.  The host supplies the first ten fields; the last five are
    attached by [publish].  The host gives the examples as strings and
    [publish] replaces them by records, so the record is parametric in the
    type [E] of an example: [doclet string] before the first pass,
    [doclet example_rec] after it. *)
Record doclet (E : Type) : Type := mkDoclet {
  kind : string;
  name : string;
  longname : string;
  description : option string;
  type : option type_rec;
  params : option (list item);
  returns : option (list item);
  meta : option meta_rec;
  examples : option (list E);
  see : option (list string);
  signature : option string;
  attribs : option string;
  id : option string;
  ancestors : option (list string);
  modules : option (list loc)
}.
Arguments mkDoclet {E}.
Arguments kind {E}.
Arguments name {E}.
Arguments longname {E}.
Arguments description {E}.
Arguments type {E}.
Arguments params {E}.
Arguments returns {E}.
Arguments meta {E}.
Arguments examples {E}.
Arguments see {E}.
Arguments signature {E}.
Arguments attribs {E}.
Arguments id {E}.
Arguments ancestors {E}.
Arguments modules {E}.

(** A doclet as the host hands it over, and as the pages read it. *)
Abbreviation host_doclet := (doclet string).
Abbreviation page_doclet := (doclet example_rec).

(** Assignments to one field. *)
Definition set_kind {E} (v : string) (d : doclet E) : doclet E :=
  mkDoclet v (name d) (longname d) (description d) (type d) (params d) (returns d)
    (meta d) (examples d) (see d) (signature d) (attribs d) (id d) (ancestors d)
    (modules d).
Definition set_name {E} (v : string) (d : doclet E) : doclet E :=
  mkDoclet (kind d) v (longname d) (description d) (type d) (params d) (returns d)
    (meta d) (examples d) (see d) (signature d) (attribs d) (id d) (ancestors d)
    (modules d).
Definition set_meta {E} (v : option meta_rec) (d : doclet E) : doclet E :=
  mkDoclet (kind d) (name d) (longname d) (description d) (type d) (params d)
    (returns d) v (examples d) (see d) (signature d) (attribs d) (id d)
    (ancestors d) (modules d).
Definition set_examples {E F} (v : option (list F)) (d : doclet E) : doclet F :=
  mkDoclet (kind d) (name d) (longname d) (description d) (type d) (params d)
    (returns d) (meta d) v (see d) (signature d) (attribs d) (id d) (ancestors d)
    (modules d).
Definition set_see {E} (v : option (list string)) (d : doclet E) : doclet E :=
  mkDoclet (kind d) (name d) (longname d) (description d) (type d) (params d)
    (returns d) (meta d) (examples d) v (signature d) (attribs d) (id d)
    (ancestors d) (modules d).
Definition set_signature {E} (v : string) (d : doclet E) : doclet E :=
  mkDoclet (kind d) (name d) (longname d) (description d) (type d) (params d)
    (returns d) (meta d) (examples d) (see d) (Some v) (attribs d) (id d)
    (ancestors d) (modules d).
Definition set_attribs {E} (v : string) (d : doclet E) : doclet E :=
  mkDoclet (kind d) (name d) (longname d) (description d) (type d) (params d)
    (returns d) (meta d) (examples d) (see d) (signature d) (Some v) (id d)
    (ancestors d) (modules d).
Definition set_id {E} (v : string) (d : doclet E) : doclet E :=
  mkDoclet (kind d) (name d) (longname d) (description d) (type d) (params d)
    (returns d) (meta d) (examples d) (see d) (signature d) (attribs d) (Some v)
    (ancestors d) (modules d).
Definition set_ancestors {E} (v : list string) (d : doclet E) : doclet E :=
  mkDoclet (kind d) (name d) (longname d) (description d) (type d) (params d)
    (returns d) (meta d) (examples d) (see d) (signature d) (attribs d) (id d)
    (Some v) (modules d).
Definition set_modules {E} (v : list loc) (d : doclet E) : doclet E :=
  mkDoclet (kind d) (name d) (longname d) (description d) (type d) (params d)
    (returns d) (meta d) (examples d) (see d) (signature d) (attribs d) (id d)
    (ancestors d) (Some v).

(** ** [needsSignature] *)

(** The loop of lines 48-52: some declared type name is [function] once
    lowered. *)
Fixpoint has_function_name (names : list string) : bool :=
  match names with
  | [] => false
  | n :: rest =>
      if String.eqb (toLowerCase n) "function" then true else has_function_name rest
  end.

Definition needsSignature {E} (d : doclet E) : bool :=
  if String.eqb (kind d) "function" || String.eqb (kind d) "class" then true
  else if String.eqb (kind d) "typedef" then
    match type d with
    | Some t =>
        match names t with
        | Some ns => if negb (Nat.eqb (length ns) 0) then has_function_name ns else false
        | None => false
        end
    | None => false
    end
  else false.

(** ** What the pages are rendered from *)

(** An element of the array [docs] of a page. *)
Inductive page_doc : Type :=
  | DocUndefined
  | DocSource (code : string)                 (* [{ kind: 'source', code }] *)
  | DocDoclet (d : page_doclet)
  | DocMainpage (readme : option string) (longname : string)
  | DocGlobalobj.                             (* [{ kind: 'globalobj' }] *)

(** A node of the tree of tutorials. *)
#[warnings="-register-all"]
Inductive tutorial : Type :=
  | Tutorial (tname ttitle : string) (children : list tutorial).

Definition tutorial_name (t : tutorial) : string :=
  match t with Tutorial n _ _ => n end.
Definition tutorial_title (t : tutorial) : string :=
  match t with Tutorial _ ti _ => ti end.
Definition tutorial_children (t : tutorial) : list tutorial :=
  match t with Tutorial _ _ c => c end.

(** The data handed to a template: [{ type, title, docs }] for the page
    container and [{ title, header, content, children }] for a
    tutorial. *)
Inductive template_data : Type :=
  | DocData (type title : string) (docs : list page_doc)
  | TutorialData (title header content : string) (children : list tutorial).

(** [conf.default.staticFiles]: the paths to include; the patterns of the
    filter are read by the host only. *)
Record static_files_conf : Type := mkStaticFiles {
  include : option (list string);
  includePattern : option string;
  excludePattern : option string
}.

(** ** The JSDoc host *)

(** The functions of the host that [publish.js] calls and this repository
    does not define.  The helper keeps state of its own (the link registry
    and the file names it has handed out), so the calls that touch it pass
    a [helper_state] along.  [publish.js] reads the registry
    [helper.longnameToUrl] as a plain object: [longnameToUrl] gives the
    links it holds as properties of its own.  Two things are assumed of the
    helper.  [registerLink] assigns the link to the property named by the
    long name, which stores it, but for the name [__proto__]: assigning a
    string to that property of a plain object stores nothing.  And the
    registry has no property of its own with that name, so that reading
    it gives no link.  The template engine, the link resolver and the
    parser of tutorials are read as functions of what they are given: a
    page is stated through them, and nothing is concluded from them about
    the helper or the log. *)
Class Host : Type := {
  helper_state : Type;
  (** [helper.htmlsafe] *)
  htmlsafe : string -> string;
  (** [helper.linkto(longname, linkText)] *)
  linkto : string -> string -> string;
  (** [helper.getAttribs] on a doclet and on a parameter or return value *)
  getAttribs : page_doclet -> list string;
  getAttribs_item : item -> list string;
  (** [helper.createLink(doclet)] *)
  createLink : page_doclet -> helper_state -> string * helper_state;
  (** [helper.registerLink(longname, url)] *)
  registerLink : string -> string -> helper_state -> helper_state;
  (** [helper.longnameToUrl] *)
  longnameToUrl : helper_state -> gmap string string;
  (** [helper.getUniqueFilename(str)] *)
  getUniqueFilename : string -> helper_state -> string * helper_state;
  (** [helper.getAncestorLinks(data, doclet)], given the collection as it
      stands *)
  getAncestorLinks : list page_doclet -> page_doclet -> list string;
  (** [helper.resolveLinks(html)] *)
  resolveLinks : string -> string;
  (** [path.join(a, b)] of [jsdoc/path] *)
  path_join : string -> string -> string;
  (** [OUTDIR], that is [path.normalize(env.opts.destination)] *)
  OUTDIR : string;
  (** [fs.toDir(path)] and [fs.ls(dir, depth)] of [jsdoc/fs] *)
  fs_toDir : string -> string;
  fs_ls : string -> nat -> list string;
  (** [fs.readFileSync(path, encoding)] *)
  fs_readFileSync : string -> string -> result string;
  (** [new scanner.Scanner().scan([path], depth, filter)] for the filter
      built from a configuration of static files *)
  scan : static_files_conf -> string -> nat -> list string;
  (** The template engine: [view.render(template, data)] *)
  view : Type;
  render : view -> string -> template_data -> string;
  (** [tutorial.parse()] *)
  tutorial_parse : tutorial -> string;
  (** [helper.tutorialToUrl(name)], which hands out the file name of a
      tutorial when it is first asked for *)
  tutorialToUrl : string -> helper_state -> string * helper_state;
  (** [fs.copyFileSync(inFile, outDir)] of [jsdoc/fs], which copies the
      file into the directory [outDir] under its own base name: the path
      written, or the error when that cannot be done, given the
      directories made so far *)
  fs_copy : string -> string -> list string -> result string;
  registerLink_stores : forall ln url hs,
    longnameToUrl (registerLink ln url hs) =
      if String.eqb ln "__proto__" then longnameToUrl hs
      else <[ln := url]> (longnameToUrl hs);
  longnameToUrl_own : forall hs, longnameToUrl hs !! "__proto__" = None
}.

(** ** Signatures *)

Section Signatures.
Context `{Host}.

Definition signature_span_open : string :=
  "<span class=" +:+ dq +:+ "signature" +:+ dq +:+ ">".
Definition type_signature_span_open : string :=
  "<span class=" +:+ dq +:+ "type-signature" +:+ dq +:+ ">".

(** [param.name && param.name.indexOf('.') === -1] *)
Definition is_top_level_param (p : item) : bool :=
  match item_name p with
  | Some n => negb (String.eqb n "") && negb (includes "." n)
  | None => false
  end.

Definition addParamAttributes (ps : list item) : list string :=
  map updateItemName (filter (fun p => is_top_level_param p = true) ps).

Definition buildItemTypeStrings_names (t : option type_rec) : list string :=
  match t with
  | Some ty =>
      match names ty with
      | Some ns => map (fun n => linkto n (htmlsafe n)) ns
      | None => []
      end
  | None => []
  end.

(** [buildItemTypeStrings] reads [item.type.names] only; it is called on
    return values and on doclets. *)
Definition buildItemTypeStrings (it : item) : list string :=
  buildItemTypeStrings_names (item_type it).

Definition buildAttribsString (attribs : list string) : string :=
  if negb (Nat.eqb (length attribs) 0)
  then htmlsafe (util_format "(%s) " [join ", " attribs])
  else "".

Definition addNonParamAttributes (items : list item) : list string :=
  fold_left (fun types it => types ++ buildItemTypeStrings it) items [].

Definition addSignatureParams {E} (f : doclet E) : doclet E :=
  let ps := match params f with Some ps => addParamAttributes ps | None => [] end in
  set_signature (util_format "%s(%s)" [or_empty (signature f); join ", " ps]) f.

(** The attributes of all return values, each kept once (lines 150-156). *)
Definition push_new (attribs : list string) (attrib : string) : list string :=
  match indexOf attrib attribs with
  | None => attribs ++ [attrib]
  | Some _ => attribs
  end.

Definition return_attribs (rs : list item) : list string :=
  fold_left (fun attribs it => fold_left push_new (getAttribs_item it) attribs) rs [].

Definition addSignatureReturns {E} (f : doclet E) : doclet E :=
  let attribsString :=
    match returns f with
    | Some rs => buildAttribsString (return_attribs rs)
    | None => ""
    end in
  let returnTypes :=
    match returns f with
    | Some rs => addNonParamAttributes rs
    | None => []
    end in
  let returnTypesString :=
    if negb (Nat.eqb (length returnTypes) 0)
    then util_format " &rarr; %s{%s}" [attribsString; join "|" returnTypes]
    else "" in
  set_signature
    (signature_span_open +:+ or_empty (signature f) +:+ "</span>" +:+
     type_signature_span_open +:+ returnTypesString +:+ "</span>") f.

Definition addSignatureTypes {E} (f : doclet E) : doclet E :=
  let types :=
    match type f with
    | Some t => buildItemTypeStrings_names (Some t)
    | None => []
    end in
  set_signature
    (or_empty (signature f) +:+ type_signature_span_open +:+
     (if negb (Nat.eqb (length types) 0) then " :" +:+ join "|" types else "") +:+
     "</span>") f.

Definition addAttribs (f : page_doclet) : page_doclet :=
  let attribsString := buildAttribsString (getAttribs f) in
  set_attribs
    (util_format (type_signature_span_open +:+ "%s</span>") [attribsString]) f.

End Signatures.

(** ** Regular expressions *)

(** The fragment of ECMAScript regular expressions that [publish.js]
    writes: a sequence of atoms between [^] and [$], each a literal, a
    character class taken once, a quantified character class, or a bracket
    of a capture group.  Matching backtracks in the order of the
    specification: a greedy quantifier tries the longest run first, a lazy
    one the shortest, and the first way that reaches the end wins. *)
Module Regex.

Inductive atom : Type :=
  | Lit (s : string)                 (* the characters of [s], case folded *)
  | One (cls : ascii -> bool)        (* [cls] *)
  | Star (cls : ascii -> bool)       (* [cls*] *)
  | Plus (cls : ascii -> bool)       (* [cls+] *)
  | PlusLazy (cls : ascii -> bool)   (* [cls+?] *)
  | Open                             (* ( *)
  | Close.                           (* ) *)

(** [\s] on code units below 256: tab, line feed, vertical tab, form feed,
    carriage return, space and the no-break space. *)
Definition is_space (c : ascii) : bool :=
  let n := nat_of_ascii c in
  ((9 <=? n) && (n <=? 13) || (n =? 32) || (n =? 160))%nat.

(** [[\n\r]] and [[\s\S]]. *)
Definition is_newline (c : ascii) : bool :=
  let n := nat_of_ascii c in ((n =? 10) || (n =? 13))%nat.
Definition any_char (c : ascii) : bool := true.

(** Two characters match under the flag [i] when they are equal once
    letters are folded to one case. *)
Definition eqb_ci (a b : ascii) : bool :=
  Ascii.eqb (lower_ascii a) (lower_ascii b).

(** The rest of [s] after the literal [l], if [s] starts with it. *)
Fixpoint strip_ci (l s : string) : option string :=
  match l, s with
  | EmptyString, _ => Some s
  | String a l', String b s' => if eqb_ci a b then strip_ci l' s' else None
  | String _ _, EmptyString => None
  end.

(** The groups that are open hold the text matched since they were
    opened, the innermost first; matching [t] adds it to each. *)
Definition consume (t : string) (opened : list string) : list string :=
  map (fun g => g +:+ t) opened.

Fixpoint take_chars (n : nat) (s : string) : string :=
  match n, s with
  | O, _ => EmptyString
  | S n', String c s' => String c (take_chars n' s')
  | S _, EmptyString => EmptyString
  end.

Section Quantifiers.
Context {R : Type} (cls : ascii -> bool) (k : string -> list string -> option R).

(** [cls*] followed by [k]: the longest run first, then shorter ones. *)
Fixpoint greedy (s : string) (opened : list string) : option R :=
  match s with
  | String c s' =>
      if cls c then
        match greedy s' (consume (String c EmptyString) opened) with
        | Some r => Some r
        | None => k s opened
        end
      else k s opened
  | EmptyString => k s opened
  end.

(** [cls*?] followed by [k]: the shortest run first, then longer ones. *)
Fixpoint lazy (s : string) (opened : list string) : option R :=
  match k s opened with
  | Some r => Some r
  | None =>
      match s with
      | String c s' =>
          if cls c then lazy s' (consume (String c EmptyString) opened) else None
      | EmptyString => None
      end
  end.

End Quantifiers.

(** [run rs s opened caps] matches the atoms [rs] against [s] up to its
    end.  [caps] holds the texts of the groups that are closed, in the
    order of their closing; the result is [caps] at the end of the first
    match found, if there is one. *)
Fixpoint run (rs : list atom) (s : string) (opened caps : list string)
    : option (list string) :=
  match rs with
  | [] =>
      match s with
      | EmptyString => Some caps
      | String _ _ => None
      end
  | Lit l :: rs' =>
      match strip_ci l s with
      | Some s' => run rs' s' (consume (take_chars (String.length l) s) opened) caps
      | None => None
      end
  | One cls :: rs' =>
      match s with
      | String c s' =>
          if cls c then run rs' s' (consume (String c EmptyString) opened) caps
          else None
      | EmptyString => None
      end
  | Star cls :: rs' => greedy cls (fun s o => run rs' s o caps) s opened
  | Plus cls :: rs' =>
      match s with
      | String c s' =>
          if cls c
          then greedy cls (fun s o => run rs' s o caps) s'
                 (consume (String c EmptyString) opened)
          else None
      | EmptyString => None
      end
  | PlusLazy cls :: rs' =>
      match s with
      | String c s' =>
          if cls c
          then lazy cls (fun s o => run rs' s o caps) s'
                 (consume (String c EmptyString) opened)
          else None
      | EmptyString => None
      end
  | Open :: rs' => run rs' s (EmptyString :: opened) caps
  | Close :: rs' =>
      match opened with
      | g :: opened' => run rs' s opened' (caps ++ [g])
      | [] => None
      end
  end.

(** [s] does not start with a character of the class, and every
    character of [s] is in the class. *)
Definition stops (cls : ascii -> bool) (s : string) : Prop :=
  match s with
  | EmptyString => True
  | String c _ => cls c = false
  end.

Fixpoint all_in (cls : ascii -> bool) (s : string) : bool :=
  match s with
  | EmptyString => true
  | String c s' => cls c && all_in cls s'
  end.

(** [s.match(re)] for an anchored [re]: the texts of its groups. *)
Definition exec (rs : list atom) (s : string) : option (list string) :=
  run rs s [] [].

End Regex.

(** ** [formatExample] *)

(** [/^\s*<caption>([\s\S]+?)<\/caption>(\s*[\n\r])([\s\S]+)$/i] *)
Definition caption_regex : list Regex.atom :=
  [Regex.Star Regex.is_space; Regex.Lit "<caption>";
   Regex.Open; Regex.PlusLazy Regex.any_char; Regex.Close;
   Regex.Lit "</caption>";
   Regex.Open; Regex.Star Regex.is_space; Regex.One Regex.is_newline; Regex.Close;
   Regex.Open; Regex.Plus Regex.any_char; Regex.Close].

(** [x || y] on strings. *)
Definition or_else (x y : string) : string :=
  if String.eqb x "" then y else x.

Definition formatExample (example : string) : example_rec :=
  match Regex.exec caption_regex example with
  | Some [g1; g2; g3] => {| caption := or_else g1 ""; code := or_else g3 example |}
  | _ => {| caption := ""; code := example |}
  end.

(** ** Links of see-tags: [hashToLink] *)

(** A line terminator among the code units below 256: [.] in a regular
    expression matches every other character. *)
Definition is_line_terminator (c : ascii) : bool := Regex.is_newline c.

(** [/^(#.+)/.test(hash)] *)
Definition is_hash_ref (hash : string) : bool :=
  match hash with
  | String "#" (String c _) => negb (is_line_terminator c)
  | _ => false
  end.

(** The characters of [s] up to its first line terminator: what [.+]
    takes. *)
Fixpoint take_line (s : string) : string :=
  match s with
  | EmptyString => EmptyString
  | String c s' => if is_line_terminator c then EmptyString else String c (take_line s')
  end.

(** The replacement text of [String.prototype.replace] for a pattern with
    one group that holds the whole match [m]: [$$], [$&], [$1] and [$01],
    the text before the match and the text after it. *)
Fixpoint expand_replacement (rep m pre post : string) : string :=
  match rep with
  | EmptyString => EmptyString
  | String "$" (String "$" r) => String "$" (expand_replacement r m pre post)
  | String "$" (String "&" r) => m +:+ expand_replacement r m pre post
  | String "$" (String "`" r) => pre +:+ expand_replacement r m pre post
  | String "$" (String "'" r) => post +:+ expand_replacement r m pre post
  | String "$" (String "1" r) => m +:+ expand_replacement r m pre post
  | String "$" (String "0" (String "1" r)) => m +:+ expand_replacement r m pre post
  | String c r => String c (expand_replacement r m pre post)
  end.

(** [url.replace(/(#.+|$)/, hash)]: the leftmost [#] that a character of
    the same line follows is replaced together with the rest of its line;
    without one the replacement is put at the end. *)
Fixpoint replace_fragment (pre url hash : string) : string :=
  match url with
  | EmptyString => expand_replacement hash "" pre ""
  | String c rest =>
      if Ascii.eqb c "#" && is_hash_ref url then
        let m := String c (take_line rest) in
        let post := drop_chars (String.length m) url in
        expand_replacement hash m pre post +:+ post
      else String c (replace_fragment (pre +:+ String c EmptyString) rest hash)
  end.

Section SeeLinks.
Context `{Host}.

Definition hashToLink (d : page_doclet) (hash : string) (hs : helper_state)
    : string * helper_state :=
  if negb (is_hash_ref hash) then (hash, hs)
  else
    let '(url, hs) := createLink d hs in
    let url := replace_fragment "" url hash in
    ("<a href=" +:+ dq +:+ url +:+ dq +:+ ">" +:+ hash +:+ "</a>", hs).

(** [items.map(item => hashToLink(doclet, item))], left to right. *)
Fixpoint map_hashToLink (d : page_doclet) (items : list string) (hs : helper_state)
    : list string * helper_state :=
  match items with
  | [] => ([], hs)
  | it :: rest =>
      let '(l, hs) := hashToLink d it hs in
      let '(ls, hs) := map_hashToLink d rest hs in
      (l :: ls, hs)
  end.

End SeeLinks.

(** ** Source files *)

(** An entry of [sourceFiles]: [{ resolved, shortened }]; [None] is
    [null]. *)
Record source_file : Type := mkSourceFile {
  resolved : string;
  shortened : option string
}.

(** The object [sourceFiles], keyed by path.  [Object.keys] lists the keys
    in the order of their first assignment, so the object is a list of
    entries without repeated keys.  (Keys that are array indices or names
    of [Object.prototype] are not paths and are left out of the model.) *)
Abbreviation source_files := (list (string * source_file)).

(** [files[key]] *)
Fixpoint files_lookup (key : string) (files : source_files) : option source_file :=
  match files with
  | [] => None
  | (k, v) :: rest => if String.eqb k key then Some v else files_lookup key rest
  end.

(** [files[key] = v] *)
Fixpoint files_assign (key : string) (v : source_file) (files : source_files)
    : source_files :=
  match files with
  | [] => [(key, v)]
  | (k, w) :: rest =>
      if String.eqb k key then (k, v) :: rest else (k, w) :: files_assign key v rest
  end.

Definition shortenPaths (files : source_files) (commonPrefix : string) : source_files :=
  map (fun '(file, f) =>
         (file, mkSourceFile (resolved f)
                  (Some (backslashes_to_slashes
                           (replace_first commonPrefix "" (resolved f))))))
      files.

Section Paths.
Context `{Host}.

(** [getPathFromDoclet]; [None] is [null]. *)
Definition getPathFromDoclet {E} (d : doclet E) : option string :=
  match meta d with
  | None => None
  | Some m =>
      match meta_path m with
      | Some p =>
          if negb (String.eqb p "") && negb (String.eqb p "null")
          then Some (path_join p (meta_filename m))
          else Some (meta_filename m)
      | None => Some (meta_filename m)
      end
  end.

End Paths.

(** ** The common prefix of the source paths *)

Module PosixPath.

(** [s.split(sep)] for a separator of one character. *)
Fixpoint split_on (sep : ascii) (s : string) : list string :=
  match s with
  | EmptyString => [EmptyString]
  | String c s' =>
      if Ascii.eqb c sep then EmptyString :: split_on sep s'
      else match split_on sep s' with
           | x :: r => String c x :: r
           | [] => [String c EmptyString]
           end
  end.

(** The segments two paths share from the start. *)
Fixpoint common_segments (a b : list string) : list string :=
  match a, b with
  | x :: a', y :: b' => if String.eqb x y then x :: common_segments a' b' else []
  | _, _ => []
  end.

(** The segments all paths of a list of two or more share. *)
Definition shared_segments (paths : list string) : list string :=
  match paths with
  | [] => []
  | p :: rest =>
      fold_left (fun acc q => common_segments acc (split_on slash q)) rest
        (split_on slash p)
  end.

(** [path.extname(p) !== ''] on the last segment: a dot that is not its
    first character. *)
Definition has_extension (segment : string) : bool :=
  match segment with
  | EmptyString => false
  | String _ rest => includes "." rest
  end.

(** Modelled from the spec: [path.commonPrefix] belongs to [jsdoc/path],
    which is not among the sources.  The spec calls its result the longest
    common path prefix of the resolved source paths and gives [/a/b/] for
    [/a/b/x.js] and [/a/b/c/y.js].  The model takes absolute paths with
    [/] as separator: the prefix is made of the segments that all paths
    share, closed by a separator unless nothing but the root is shared;
    for a single path it is the path's directory. *)
Definition commonPrefix (paths : list string) : string :=
  match paths with
  | [p] =>
      let segments := split_on slash p in
      let dir :=
        if has_extension (List.last segments EmptyString)
        then removelast segments else segments in
      join "/" dir +:+ "/"
  | _ =>
      let segments := shared_segments paths in
      let segments :=
        match segments with
        | [] => []
        | [EmptyString] => segments
        | _ => segments ++ [EmptyString]
        end in
      join "/" segments
  end.

End PosixPath.

(** ** The first pass over the doclets (lines 378-405) *)

Section Enrichment.
Context `{Host}.

(** What the first pass builds besides the doclets. *)
Record pass1_state : Type := mkPass1 {
  p1_helper : helper_state;
  p1_sourceFiles : source_files;
  p1_sourceFilePaths : list string
}.

(** Lines 379-387: the attributes are reset, the examples formatted and
    the see-references linked. *)
Definition formatDoclet (d : host_doclet) (hs : helper_state)
    : page_doclet * helper_state :=
  let d1 : page_doclet :=
    set_examples (map formatExample <$> examples d)
      (mkDoclet (kind d) (name d) (longname d) (description d) (type d) (params d)
         (returns d) (meta d) (examples d) (see d) (signature d) (Some "") (id d)
         (ancestors d) (modules d)) in
  match see d1 with
  | Some items =>
      let '(links, hs) := map_hashToLink d1 items hs in
      (set_see (Some links) d1, hs)
  | None => (d1, hs)
  end.

(** Lines 389-400: the source file of the doclet is listed. *)
Definition recordSourceFile (d : page_doclet) (files : source_files)
    (paths : list string) : source_files * list string :=
  match getPathFromDoclet d with
  | Some sourcePath =>
      (files_assign sourcePath (mkSourceFile sourcePath None) files,
       match indexOf sourcePath paths with
       | None => paths ++ [sourcePath]
       | Some _ => paths
       end)
  | None => (files, paths)
  end.

(** The body of the first loop for one doclet. *)
Definition prepareDoclet (d : host_doclet) (st : pass1_state)
    : page_doclet * pass1_state :=
  let '(d', hs) := formatDoclet d (p1_helper st) in
  let '(files, paths) :=
    recordSourceFile d' (p1_sourceFiles st) (p1_sourceFilePaths st) in
  (d', mkPass1 hs files paths).

(** [data().each(...)], the first loop. *)
Fixpoint prepareDoclets (data : list host_doclet) (st : pass1_state)
    : list page_doclet * pass1_state :=
  match data with
  | [] => ([], st)
  | d :: rest =>
      let '(d', st) := prepareDoclet d st in
      let '(ds, st) := prepareDoclets rest st in
      (d' :: ds, st)
  end.

(** Lines 403-405, for the common prefix [prefix] that [path.commonPrefix]
    gives. *)
Definition shortenSourceFiles (commonPrefix : list string -> string) (st : pass1_state)
    : source_files :=
  if negb (Nat.eqb (length (p1_sourceFilePaths st)) 0)
  then shortenPaths (p1_sourceFiles st) (commonPrefix (p1_sourceFilePaths st))
  else p1_sourceFiles st.

(** ** The second pass over the doclets (lines 451-494) *)

(** [url.split(/#/).pop()]: what follows the last [#]. *)
Fixpoint after_last_hash (url : string) : string :=
  match url with
  | EmptyString => EmptyString
  | String c rest =>
      if includes "#" rest then after_last_hash rest
      else if Ascii.eqb c "#" then rest else String c rest
  end.

Definition set_shortpath (short : string) (d : page_doclet) : page_doclet :=
  match meta d with
  | Some m => set_meta (Some (mkMeta (meta_path m) (meta_filename m) (Some short))) d
  | None => d
  end.

(** Lines 457-464: the shortened path of the doclet's source file. *)
Definition setShortpath (sourceFiles : source_files) (d : page_doclet)
    : result page_doclet :=
  match getPathFromDoclet d with
  | Some path =>
      match files_lookup path sourceFiles with
      | Some f =>
          match shortened f with
          | Some short =>
              if negb (String.eqb short "") then Ok (set_shortpath short d) else Ok d
          | None => Ok d
          end
      | None => Throw (TypeError "Cannot read properties of undefined")
      end
  | None => Ok d
  end.

(** Lines 467-473: the id of the doclet, from its registered link. *)
Definition setId (hs : helper_state) (d : page_doclet) : result page_doclet :=
  match longnameToUrl hs !! longname d with
  | Some url =>
      if includes "#" url then Ok (set_id (after_last_hash url) d)
      else Ok (set_id (name d) d)
  | None => Throw (TypeError "Cannot read properties of undefined")
  end.

(** Lines 475-493: signature, attributes and ancestors.  [collection] is
    the record collection as it stands, given the current state of the
    doclet at hand. *)
Definition addSignatures (collection : page_doclet -> list page_doclet)
    (d : page_doclet) : page_doclet :=
  let d :=
    if needsSignature d
    then addAttribs (addSignatureReturns (addSignatureParams d)) else d in
  let d := set_ancestors (getAncestorLinks (collection d) d) d in
  let d :=
    if String.eqb (kind d) "member" then addAttribs (addSignatureTypes d) else d in
  if String.eqb (kind d) "constant"
  then set_kind "member" (addAttribs (addSignatureTypes d)) else d.

(** The body of the second loop for one doclet. *)
Definition setDocletInformation (sourceFiles : source_files)
    (collection : page_doclet -> list page_doclet) (d : page_doclet)
    (hs : helper_state) : result (page_doclet * helper_state) :=
  let '(link, hs) := createLink d hs in
  let hs := registerLink (longname d) link hs in
  d ← setShortpath sourceFiles d;
  d ← setId hs d;
  Ok (addSignatures collection d, hs).

(** [data().each(...)], the second loop: [done] are the doclets already
    visited and [todo] the ones to come. *)
Fixpoint setDocletsInformation (sourceFiles : source_files)
    (done todo : list page_doclet) (hs : helper_state)
    : result (list page_doclet * helper_state) :=
  match todo with
  | [] => Ok (done, hs)
  | d :: rest =>
      '(d', hs) ← setDocletInformation sourceFiles
                    (fun cur => done ++ cur :: rest) d hs;
      setDocletsInformation sourceFiles (done ++ [d']) rest hs
  end.

(** Both passes, as [publish] runs them on the pruned and sorted data. *)
Definition enrich (commonPrefix : list string -> string) (data : list host_doclet)
    (hs : helper_state) : result (list page_doclet * source_files * helper_state) :=
  let '(ds, st) := prepareDoclets data (mkPass1 hs [] []) in
  let files := shortenSourceFiles commonPrefix st in
  '(ds, hs) ← setDocletsInformation files [] ds (p1_helper st);
  Ok (ds, files, hs).

End Enrichment.

(** ** [attachModuleSymbols] *)

(** The record collection: doclets are objects, shared between the arrays
    that hold them.  An array of doclets is a list of locations. *)
Abbreviation store := (list page_doclet).

(** The object at a location.  The arrays hold objects of the store, so
    the error does not arise on them. *)
Definition read (l : loc) : eff store page_doclet := fun σ =>
  match σ !! l with
  | Some d => (Ok d, σ)
  | None => (Throw (HostError "no object at this location"), σ)
  end.

(** The property names that the object literal [{}] inherits from
    [Object.prototype]: reading one of them from the lookup table gives a
    function or an object that is no array. *)
Definition object_prototype_names : list string :=
  ["constructor"; "hasOwnProperty"; "isPrototypeOf"; "propertyIsEnumerable";
   "toLocaleString"; "toString"; "valueOf"; "__proto__"; "__defineGetter__";
   "__defineSetter__"; "__lookupGetter__"; "__lookupSetter__"].

Definition inherited (key : string) : bool :=
  existsb (String.eqb key) object_prototype_names.

(** Lines 261-264: the lookup table from long names to symbols. *)
Fixpoint build_symbols (doclets : list loc) (symbols : gmap string (list loc))
    : eff store (gmap string (list loc)) :=
  match doclets with
  | [] => mret symbols
  | l :: rest =>
      symbol ← read l;
      if inherited (longname symbol)
      then lift (Throw (TypeError "symbols[symbol.longname].push is not a function"))
      else
        let entry := default [] (symbols !! longname symbol) in
        build_symbols rest (<[longname symbol := entry ++ [l]]> symbols)
  end.

(** [symbol.description || symbol.kind === 'class'] *)
Definition shown_symbol (symbol : page_doclet) : bool :=
  match description symbol with
  | Some text => negb (String.eqb text "")
  | None => false
  end || String.eqb (kind symbol) "class".

(** Lines 271-273. *)
Fixpoint filter_shown (symbols : list loc) : eff store (list loc) :=
  match symbols with
  | [] => mret []
  | l :: rest =>
      symbol ← read l;
      kept ← filter_shown rest;
      mret (if shown_symbol symbol then l :: kept else kept)
  end.

(** The name shown for a class or function that a module exports. *)
Definition require_name (n : string) : string :=
  replace_first "module:" ("(require(" +:+ dq) n +:+ dq +:+ "))".

(** Lines 275-281 for one symbol: the fields of the object that [doop]
    makes, after it is renamed.  [doop] copies what it finds in the fields
    as well; the fields of a doclet are values here but for [modules],
    which a doclet has once symbols are attached to it, so the copy is as
    [doop] makes it for a symbol without attached symbols. *)
Definition copy_symbol (symbol : page_doclet) : page_doclet :=
  if String.eqb (kind symbol) "class" || String.eqb (kind symbol) "function"
  then set_name (require_name (name symbol)) symbol
  else symbol.

(** [doop(symbol)] and the renaming: a new object at the end of the
    store. *)
Definition alloc (d : page_doclet) : eff store loc :=
  fun σ => (Ok (length σ), σ ++ [d]).

(** Lines 274-282. *)
Fixpoint copy_symbols (symbols : list loc) : eff store (list loc) :=
  match symbols with
  | [] => mret []
  | l :: rest =>
      symbol ← read l;
      copy ← alloc (copy_symbol symbol);
      copies ← copy_symbols rest;
      mret (copy :: copies)
  end.

(** Lines 267-283 for one module. *)
Definition attach_symbols (symbols : gmap string (list loc)) (m : loc) : eff store unit :=
  module ← read m;
  if inherited (longname module)
  then lift (Throw (TypeError "symbols[module.longname].filter is not a function"))
  else
    match symbols !! longname module with
    | Some found =>
        kept ← filter_shown found;
        copies ← copy_symbols kept;
        modify (alter (set_modules copies) m)
    | None => mret tt
    end.

Definition attachModuleSymbols (doclets modules : list loc) : eff store unit :=
  symbols ← build_symbols doclets ∅;
  for_each (attach_symbols symbols) modules.

(** ** Copying static files (lines 412-444) *)

(** The effects on the output directory: the directories made by
    [fs.mkPath] and the files copied by [fs.copyFileSync], each with the
    path it is written to, both in order. *)
Record fs_state : Type := mkFs {
  made : list string;
  copied : list (string * string)
}.

(** [fs.mkPath(dir)], taken to succeed. *)
Definition fs_mkPath (dir : string) (fs : fs_state) : fs_state :=
  mkFs (made fs ++ [dir]) (copied fs).

(** [fs.copyFileSync(inFile, outDir)]: the second argument is taken as a
    directory, and the call throws when the host cannot write there. *)
Definition fs_copyFileSync `{Host} (inFile outDir : string) : eff fs_state unit :=
  fun fs =>
    match fs_copy inFile outDir (made fs) with
    | Ok outFile => (Ok tt, mkFs (made fs) (copied fs ++ [(inFile, outFile)]))
    | Throw e => (Throw e, fs)
    end.

(** The identifiers an expression can see, innermost first, with the value
    of those that hold a string; [None] stands for an object or a
    function. *)
Abbreviation scope := (list (string * option string)).

(** Reading an identifier: one that no enclosing scope declares throws. *)
Fixpoint resolve (ρ : scope) (x : string) : result (option string) :=
  match ρ with
  | [] => Throw (ReferenceError x)
  | (y, v) :: rest => if String.eqb y x then Ok v else resolve rest x
  end.

(** The argument of a file operation has to be a string. *)
Definition as_path (v : option string) : result string :=
  match v with
  | Some s => Ok s
  | None => Throw (TypeError "path must be a string")
  end.

(** An identifier read as a path. *)
Definition var (ρ : scope) (x : string) : result string :=
  v ← resolve ρ x; as_path v.

(** The names declared at the top of the module, and the globals of the
    host. *)
Definition module_scope : scope :=
  map (fun x => (x, None))
    ["taffy"; "util"; "fs"; "path"; "template"; "helper"; "logger"; "doop";
     "scanner"; "filter"; "htmlsafe"; "linkto"; "resolveAuthorLinks";
     "scopeToPunc"; "hasOwnProp"; "tutoriallink"; "hashToLink";
     "needsSignature"; "getSignatureAttributes"; "updateItemName";
     "addParamAttributes"; "buildItemTypeStrings"; "buildAttribsString";
     "addNonParamAttributes"; "addSignatureParams"; "addSignatureReturns";
     "addSignatureTypes"; "addAttribs"; "shortenPaths"; "getPathFromDoclet";
     "generate"; "generateSourceFiles"; "attachModuleSymbols";
     "linktoTutorial"; "linktoExternal"; "formatExample";
     "exports"; "require"; "module"; "__filename"; "__dirname"; "env"].

Section StaticFiles.
Context `{Host}.

(** The names declared in the body of [exports.publish], around the
    module's. *)
Definition publish_scope (normPath : string) : scope :=
  [("normPath", Some normPath); ("fromDir", Some (path_join normPath "static"))] ++
  map (fun x => (x, None))
    ["taffyData"; "opts"; "tutorials"; "templatePath"; "view"; "data"; "conf";
     "indexUrl"; "globalUrl"; "sourceFiles"; "sourceFilePaths"; "staticFiles";
     "files"; "packages"; "title"; "docs"; "members"; "doclets";
     "generateMember"; "generateTutorial"; "saveChildren"] ++
  ("OUTDIR", Some OUTDIR) :: module_scope.

(** Lines 415-421, the body for one file of the theme; [fileName] is the
    parameter of this arrow function. *)
Definition copy_theme_file (ρ : scope) (fileName : string) : eff fs_state unit :=
  let ρ := ("fileName", Some fileName) :: ρ in
  file ← lift (var ρ "fileName");
  from ← lift (var ρ "fromDir");
  out ← lift (var ρ "OUTDIR");
  let ρ := ("toPath", Some (replace_string from out file)) :: ρ in
  toPath ← lift (var ρ "toPath");
  let ρ := ("toDir", Some (fs_toDir toPath)) :: ρ in
  toDir ← lift (var ρ "toDir");
  modify (fs_mkPath toDir);;
  src ← lift (var ρ "fileName");
  dst ← lift (var ρ "toPath");
  fs_copyFileSync src dst.

(** Lines 437-442, the body for one file found by the scan; its parameter
    is [filename]. *)
Definition copy_user_file (ρ : scope) (filename : string) : eff fs_state unit :=
  let ρ := ("filename", Some filename) :: ρ in
  file ← lift (var ρ "filename");
  from ← lift (var ρ "sourcePath");
  out ← lift (var ρ "OUTDIR");
  let ρ := ("destDir", Some (fs_toDir (replace_string from out file))) :: ρ in
  destDir ← lift (var ρ "destDir");
  modify (fs_mkPath destDir);;
  src ← lift (var ρ "fileName");
  dst ← lift (var ρ "destDir");
  fs_copyFileSync src dst.

(** Lines 433-443, the body for one include path. *)
Definition copy_include_path (ρ : scope) (conf : static_files_conf) (path : string)
    : eff fs_state unit :=
  let ρ := ("path", Some path) :: ρ in
  path ← lift (var ρ "path");
  let files := scan conf path 10 in
  let ρ := ("sourcePath", Some (fs_toDir path)) :: ("files", None) :: ρ in
  for_each (copy_user_file ρ) files.

(** Lines 412-421. *)
Definition copyThemeStaticFiles (normPath : string) : eff fs_state unit :=
  let ρ := publish_scope normPath in
  fromDir ← lift (var ρ "fromDir");
  for_each (copy_theme_file ρ) (fs_ls fromDir 3).

(** Lines 428-444; [None] is a configuration without [staticFiles]. *)
Definition copyUserStaticFiles (normPath : string) (conf : option static_files_conf)
    : eff fs_state unit :=
  match conf with
  | Some staticFiles =>
      let filePaths := default [] (include staticFiles) in
      let ρ := ("fileScanner", None) :: ("fileFilter", None) ::
               ("filePaths", None) :: publish_scope normPath in
      for_each (copy_include_path ρ staticFiles) filePaths
  | None => mret tt
  end.

End StaticFiles.

(** ** Writing pages *)

(** A call [fs.writeFileSync(path, html, encoding)]. *)
Record write : Type := mkWrite {
  w_path : string;
  w_html : string;
  w_encoding : string
}.

Section Pages.
Context `{Host}.

(** What page generation acts on: the files written and the errors
    logged, both in order, and the state of the helper.  Rendering and
    writing are taken to succeed: [publish.js] does not catch their
    failures, which end the run. *)
Record out_state : Type := mkOut {
  written : list write;
  logged : list string;
  out_helper : helper_state
}.

(** [generate(view, type, title, docs, filename, resolveLinks)];
    [resolveLinks] is [None] when the call leaves it out. *)
Definition generate (v : view) (type title : string) (docs : list page_doc)
    (filename : string) (resolve_links : option bool) (st : out_state) : out_state :=
  let docData := DocData type title docs in
  let outpath := path_join OUTDIR filename in
  let html := render v "container.tmpl" docData in
  let html :=
    match resolve_links with
    | Some false => html
    | _ => resolveLinks html
    end in
  mkOut (written st ++ [mkWrite outpath html "utf8"]) (logged st) (out_helper st).

(** [logger.error(format, ...args)] *)
Definition logger_error (format : string) (args : list string) (st : out_state)
    : out_state :=
  mkOut (written st) (logged st ++ [util_format format args]) (out_helper st).

(** [encoding || 'utf8'] *)
Definition encoding_or_utf8 (encoding : option string) : string :=
  match encoding with
  | Some e => or_else e "utf8"
  | None => "utf8"
  end.

(** Lines 227-243, the body for one key of [sourceFiles].  [shortened] is
    a string by then: [publish] shortens the paths whenever there is a
    source file. *)
Definition generateSourceFile (v : view) (encoding : string)
    (entry : string * source_file) (st : out_state) : out_state :=
  let '(file, f) := entry in
  let short := or_empty (shortened f) in
  let '(sourceOutfile, hs) := getUniqueFilename short (out_helper st) in
  let hs := registerLink short sourceOutfile hs in
  let st := mkOut (written st) (logged st) hs in
  let '(source, st) :=
    match fs_readFileSync (resolved f) encoding with
    | Ok text => (DocSource (htmlsafe text), st)
    | Throw e =>
        (DocUndefined,
         logger_error "Error while generating source file %s: %s" [file; message e] st)
    end in
  generate v "Source" short [source] sourceOutfile (Some false) st.

Definition generateSourceFiles (v : view) (sourceFiles : source_files)
    (encoding : option string) (st : out_state) : out_state :=
  let encoding := encoding_or_utf8 encoding in
  fold_left (fun st entry => generateSourceFile v encoding entry st) sourceFiles st.

(** Lines 556-570. *)
Definition generateTutorial (v : view) (title : string) (t : tutorial)
    (filename : string) (st : out_state) : out_state :=
  let tutorialData :=
    TutorialData title (tutorial_title t) (tutorial_parse t) (tutorial_children t) in
  let tutorialPath := path_join OUTDIR filename in
  let html := render v "tutorial.tmpl" tutorialData in
  let html := resolveLinks html in
  mkOut (written st ++ [mkWrite tutorialPath html "utf8"]) (logged st) (out_helper st).

(** Line 575 for one child: the helper names the file, then the page is
    written. *)
Definition saveChild (v : view) (child : tutorial) (st : out_state) : out_state :=
  let '(filename, hs) := tutorialToUrl (tutorial_name child) (out_helper st) in
  generateTutorial v ("Tutorial: " +:+ tutorial_title child) child filename
    (mkOut (written st) (logged st) hs).

(** Lines 573-578: every child, then its own children. *)
Fixpoint saveChildren (v : view) (node : tutorial) (st : out_state) : out_state :=
  match node with
  | Tutorial _ _ children =>
      fold_left (fun st child => saveChildren v child (saveChild v child st))
        children st
  end.

(** The arrays of [helper.getMembers(data)] that get pages. *)
Record members_rec : Type := mkMembers {
  m_modules : list page_doclet;
  m_classes : list page_doclet;
  m_namespaces : list page_doclet;
  m_mixins : list page_doclet;
  m_externals : list page_doclet;
  m_interfaces : list page_doclet;
  m_globals : list page_doclet
}.

(** Lines 545-550: [helper.find(taffy(data), { longname })] keeps the
    doclets with that long name. *)
Definition generateMember (v : view) (title : string) (data : list page_doclet)
    (entry : string * string) (st : out_state) : out_state :=
  let '(ln, url) := entry in
  let members := filter (fun d => longname d = ln) data in
  match members with
  | first :: _ => generate v title (name first) (map DocDoclet members) url None st
  | [] => st
  end.

(** Lines 501-503 and 528-580: the pages of a run, for the index
    documents [docs], the members (once the module symbols are attached)
    and the entries of [helper.longnameToUrl] in the order [Object.keys]
    lists them. *)
Definition generatePages (v : view) (outputSourceFiles : bool)
    (sourceFiles : source_files) (encoding : option string) (docs : list page_doc)
    (indexUrl globalUrl : string) (members : members_rec)
    (links : list (string * string))
    (tutorials : tutorial) (st : out_state) : out_state :=
  let st :=
    if outputSourceFiles then generateSourceFiles v sourceFiles encoding st else st in
  let st := generate v "" "Home" docs indexUrl None st in
  let st :=
    if negb (Nat.eqb (length (m_globals members)) 0)
    then generate v "" "Global" [DocGlobalobj] globalUrl None st else st in
  let st :=
    fold_left
      (fun st ln =>
         generateMember v "Interface" (m_interfaces members) ln
           (generateMember v "External" (m_externals members) ln
              (generateMember v "Mixin" (m_mixins members) ln
                 (generateMember v "Namespace" (m_namespaces members) ln
                    (generateMember v "Class" (m_classes members) ln
                       (generateMember v "Module" (m_modules members) ln st))))))
      links st in
  saveChildren v tutorials st.

End Pages.

(** ** A small host *)

(** A host to run the functions above on worked examples: links are kept
    in a map, but under the name [__proto__]; a link is the long name with
    [.html], link texts are shown without link, a template shows what it
    is given, the scan finds two style sheets, one source file cannot be
    read, and a file is copied into a directory that has been made. *)
Module SampleHost.

Fixpoint escape (s : string) : string :=
  match s with
  | EmptyString => EmptyString
  | String c s' =>
      if Ascii.eqb c "&" then "&amp;" +:+ escape s'
      else if Ascii.eqb c "<" then "&lt;" +:+ escape s'
      else String c (escape s')
  end.

Definition show_doc (d : page_doc) : string :=
  match d with
  | DocUndefined => "undefined"
  | DocSource code => "source:" +:+ code
  | DocDoclet d => "doclet:" +:+ longname d
  | DocMainpage _ ln => "mainpage:" +:+ ln
  | DocGlobalobj => "globalobj"
  end.

Definition show (template : string) (data : template_data) : string :=
  match data with
  | DocData type title docs =>
      template +:+ "|" +:+ type +:+ "|" +:+ title +:+ "|" +:+ join "," (map show_doc docs)
  | TutorialData title header content _ =>
      template +:+ "|" +:+ title +:+ "|" +:+ header +:+ "|" +:+ content
  end.

(** The directory of a file, and a directory as it is. *)
Definition to_dir (p : string) : string :=
  let segments := PosixPath.split_on slash p in
  if PosixPath.has_extension (List.last segments EmptyString)
  then join "/" (removelast segments) else p.

Definition read_file (path encoding : string) : result string :=
  if String.eqb path "/src/gone.js"
  then Throw (HostError "ENOENT: no such file")
  else Ok ("if (a < b) { /* " +:+ path +:+ " */ }").

(** The last segment of a path. *)
Definition base_name (p : string) : string :=
  List.last (PosixPath.split_on slash p) EmptyString.

Definition copy_file (inFile outDir : string) (made : list string) : result string :=
  if existsb (String.eqb outDir) made
  then Ok (outDir +:+ "/" +:+ base_name inFile)
  else Throw (HostError "ENOENT: no such file or directory").

#[export] Instance host : Host := {|
  helper_state := gmap string string;
  htmlsafe := escape;
  linkto := fun _ text => text;
  getAttribs := fun _ => [];
  getAttribs_item := fun _ => [];
  createLink := fun d hs => (longname d +:+ ".html", hs);
  registerLink := fun ln url hs =>
    if String.eqb ln "__proto__" then hs else <[ln := url]> hs;
  longnameToUrl := fun hs => delete "__proto__" hs;
  getUniqueFilename := fun s hs => (s +:+ ".html", hs);
  getAncestorLinks := fun _ _ => [];
  resolveLinks := fun html => html;
  path_join := fun a b => a +:+ "/" +:+ b;
  OUTDIR := "out";
  fs_toDir := to_dir;
  fs_ls := fun _ _ => [];
  fs_readFileSync := read_file;
  scan := fun _ path _ => [path +:+ "/a.css"; path +:+ "/b.css"];
  view := unit;
  render := fun _ => show;
  tutorial_parse := tutorial_title;
  tutorialToUrl := fun n hs => ("tutorial-" +:+ n +:+ ".html", hs);
  fs_copy := copy_file;
  registerLink_stores := ltac:(
    intros ln url hs; cbv beta;
    destruct (String.eqb_spec ln "__proto__") as [Heq|Hne];
      [reflexivity | apply delete_insert_ne; congruence]);
  longnameToUrl_own := ltac:(intros hs; apply lookup_delete_eq)
|}.

(** A doclet with the fields the host always gives. *)
Definition plain {E} (kind name longname : string) : doclet E :=
  mkDoclet kind name longname None None None None None None None None None None None
    None.

End SampleHost.

(** ** Vocabulary of the statements *)

(** The declared type names of a doclet hold [function] in some case. *)
Definition declares_function {E} (d : doclet E) : Prop :=
  exists t ns n,
    type d = Some t /\ names t = Some ns /\ n ∈ ns /\ toLowerCase n = "function".

(** The element of [docs] that the page of a source file is rendered
    from: the escaped text of the file, or [undefined] when the file
    cannot be read. *)
Definition source_doc `{Host} (encoding : string) (f : source_file) : page_doc :=
  match fs_readFileSync (resolved f) encoding with
  | Ok text => DocSource (htmlsafe text)
  | Throw _ => DocUndefined
  end.

(** The page of a source file, written to the file [outfile]. *)
Definition source_page `{Host} (v : view) (encoding : string)
    (entry : string * source_file) (outfile : string) : write :=
  mkWrite (path_join OUTDIR outfile)
    (render v "container.tmpl"
       (DocData "Source" (or_empty (shortened (snd entry)))
          [source_doc encoding (snd entry)]))
    "utf8".

(** The error logged for a source file, if it cannot be read. *)
Definition source_error `{Host} (encoding : string) (entry : string * source_file)
    : list string :=
  match fs_readFileSync (resolved (snd entry)) encoding with
  | Ok _ => []
  | Throw e =>
      ["Error while generating source file " +:+ fst entry +:+ ": " +:+ message e]
  end.

(** [st'] comes from [st] by writing more files, all of them as
    [utf8]. *)
Definition writes_utf8 `{Host} (st st' : out_state) : Prop :=
  exists new,
    written st' = written st ++ new /\
    Forall (fun w => w_encoding w = "utf8") new.

(** Every character of [s] is white space. *)
Definition all_space (s : string) : bool := Regex.all_in Regex.is_space s.

(** The literal [l] occurs in [s], in some case. *)
Fixpoint mentions (l s : string) : bool :=
  match Regex.strip_ci l s with
  | Some _ => true
  | None =>
      match s with
      | EmptyString => false
      | String _ s' => mentions l s'
      end
  end.

(** A closing caption tag starts inside [s], once [s] is followed by the
    closing tag of the caption. *)
Fixpoint closes_early (s : string) : bool :=
  match s with
  | EmptyString => false
  | String _ s' =>
      match Regex.strip_ci "</caption>" (s +:+ "</caption>") with
      | Some _ => true
      | None => closes_early s'
      end
  end.

(** [code] starts with blank lines: white space up to a line break that
    something follows. *)
Fixpoint starts_blank (code : string) : bool :=
  match code with
  | EmptyString => false
  | String c rest =>
      Regex.is_space c &&
      ((Regex.is_newline c && negb (String.eqb rest "")) || starts_blank rest)
  end.

(** What follows the closing tag and the white space after it:
    [[\n\r])([\s\S]+)$], with the caption [g1] already taken. *)
Definition after_close (g1 : string) : string -> list string -> option (list string) :=
  fun s o =>
    Regex.run
      [Regex.One Regex.is_newline; Regex.Close; Regex.Open;
       Regex.Plus Regex.any_char; Regex.Close] s o [g1].

(** The scope of the body of lines 437-442 for the include path [path]. *)
Definition user_file_scope `{Host} (normPath path : string) : scope :=
  ("sourcePath", Some (fs_toDir path)) :: ("files", None) :: ("path", Some path) ::
  ("fileScanner", None) :: ("fileFilter", None) :: ("filePaths", None) ::
  publish_scope normPath.

(** [d'] is [d] but for its field [modules]. *)
Definition untouched_but_modules (d d' : page_doclet) : Prop :=
  d' = d \/ exists copies, d' = set_modules copies d.

(** Every object of [σ] is still in [σ'], the same but for its field
    [modules], and the same altogether when it is not one of the
    [modules]. *)
Definition frame (modules : list loc) (σ σ' : store) : Prop :=
  forall l d, σ !! l = Some d ->
    exists d', σ' !! l = Some d' /\ untouched_but_modules d d' /\
               (l ∉ modules -> d' = d).

(** The symbol at [l] has the long name [ln]; the symbol at [l] is
    shown. *)
Definition named (σ : store) (ln : string) (l : loc) : bool :=
  match σ !! l with
  | Some d => String.eqb (longname d) ln
  | None => false
  end.
Definition shown (σ : store) (l : loc) : bool :=
  match σ !! l with
  | Some d => shown_symbol d
  | None => false
  end.

(** The objects at the locations [ls]. *)
Definition objects (σ : store) (ls : list loc) : list page_doclet :=
  omap (fun l => σ !! l) ls.

(** The entry of the lookup table for a long name, once the symbols
    [found] with that name are pushed after the ones it held. *)
Definition pushed (old : option (list loc)) (found : list loc) : option (list loc) :=
  match found with
  | [] => old
  | _ :: _ => Some (default [] old ++ found)
  end.

(** The symbol at [l] is an object whose long name is no property of
    [Object.prototype]. *)
Definition plain_symbol (σ : store) (l : loc) : Prop :=
  exists d, σ !! l = Some d /\ inherited (longname d) = false.

(** The symbols of the array [doclets] that have the long name [ln] in
    the collection [σ], and those of them that are shown. *)
Definition found_symbols (σ : store) (ln : string) (doclets : list loc) : list loc :=
  filter (fun l => named σ ln l = true) doclets.
Definition shown_symbols (σ : store) (ln : string) (doclets : list loc) : list loc :=
  filter (fun l => shown σ l = true) (found_symbols σ ln doclets).

(** What lines 267-283 make of the collection [τ] for the module at [m],
    for the lookup table built from the collection [σ]: the copies of the
    shown symbols of its long name are put at the end, in order, and the
    module points to them; without a symbol of its long name nothing
    changes. *)
Definition attach_step (σ : store) (doclets : list loc) (τ : store) (m : loc) : store :=
  match σ !! m with
  | Some module =>
      match found_symbols σ (longname module) doclets with
      | [] => τ
      | _ :: _ =>
          let kept := shown_symbols σ (longname module) doclets in
          alter (set_modules (seq (length τ) (length kept))) m
            (τ ++ map copy_symbol (objects τ kept))
      end
  | None => τ
  end.

(** The source location is the same, but for the short path. *)
Definition same_source (m m' : option meta_rec) : Prop :=
  match m, m' with
  | Some a, Some b => meta_path b = meta_path a /\ meta_filename b = meta_filename a
  | None, None => True
  | _, _ => False
  end.

(** A see-reference and what the first pass makes of it: a reference that
    starts with [#] becomes a link around it, any other stays. *)
Definition see_link (item link : string) : Prop :=
  if is_hash_ref item
  then exists url, link = "<a href=" +:+ dq +:+ url +:+ dq +:+ ">" +:+ item +:+ "</a>"
  else link = item.

Definition see_links (see see' : option (list string)) : Prop :=
  match see, see' with
  | Some items, Some links => Forall2 see_link items links
  | None, None => True
  | _, _ => False
  end.

(** What the first pass keeps of a doclet, and what it changes. *)
Definition prepared (d : host_doclet) (d' : page_doclet) : Prop :=
  kind d' = kind d /\ name d' = name d /\ longname d' = longname d /\
  description d' = description d /\ type d' = type d /\ params d' = params d /\
  returns d' = returns d /\ meta d' = meta d /\
  examples d' = (map formatExample <$> examples d) /\
  see_links (see d) (see d').

(** What the second pass keeps of a doclet, and what it changes. *)
Definition decorated (d d' : page_doclet) : Prop :=
  kind d' = (if String.eqb (kind d) "constant" then "member" else kind d) /\
  name d' = name d /\ longname d' = longname d /\
  description d' = description d /\ type d' = type d /\ params d' = params d /\
  returns d' = returns d /\ same_source (meta d) (meta d') /\
  examples d' = examples d /\ see d' = see d.

(** What both passes keep of a doclet of the host, and what they
    change. *)
Definition enriched (d : host_doclet) (d' : page_doclet) : Prop :=
  kind d' = (if String.eqb (kind d) "constant" then "member" else kind d) /\
  name d' = name d /\ longname d' = longname d /\
  description d' = description d /\ type d' = type d /\ params d' = params d /\
  returns d' = returns d /\ same_source (meta d) (meta d') /\
  examples d' = (map formatExample <$> examples d) /\
  see_links (see d) (see d').

(** The source file of the doclet, if it has one, is listed. *)
Definition listed `{Host} (files : source_files) (d : page_doclet) : Prop :=
  forall p, getPathFromDoclet d = Some p -> is_Some (files_lookup p files).

(** ** Links to externals: [linktoExternal] *)

(** The quote as a character. *)
Definition quote : ascii := ascii_of_nat 34.

(** The second alternative of the pattern of line 292, a quote at the
    end of the text: such a quote is removed. *)
Fixpoint drop_last_quote (s : string) : string :=
  match s with
  | EmptyString => EmptyString
  | String c EmptyString => if Ascii.eqb c quote then EmptyString else s
  | String c s' => String c (drop_last_quote s')
  end.

(** The replacement of line 292, global over both alternatives: a quote
    that starts the text is removed, and so is a quote that ends what
    follows. *)
Definition strip_quotes (name : string) : string :=
  match name with
  | String c rest => if Ascii.eqb c quote then drop_last_quote rest else drop_last_quote name
  | EmptyString => EmptyString
  end.

Definition linktoExternal `{Host} (longName name : string) : string :=
  linkto longName (strip_quotes name).

(** ** Vocabulary of the further statements *)



(** The paths and the entries of the source files that the first pass
    leaves, from nothing. *)
Definition first_pass_paths `{Host} (data : list host_doclet) (hs : helper_state)
    : list string :=
  p1_sourceFilePaths (snd (prepareDoclets data (mkPass1 hs [] []))).
Definition first_pass_files `{Host} (data : list host_doclet) (hs : helper_state)
    : source_files :=
  p1_sourceFiles (snd (prepareDoclets data (mkPass1 hs [] []))).

(** The short path of a source file, as [shortenPaths] computes it. *)
Definition short_path (commonPrefix path : string) : string :=
  backslashes_to_slashes (replace_first commonPrefix "" path).

(** The id that the second loop gives a doclet whose link is [link]. *)
Definition id_of_link (link : string) (d : page_doclet) : string :=
  if includes "#" link then after_last_hash link else name d.

(** What the second loop makes of a doclet [d] of the first, for the
    source files [files]: the doclet with its short path set, then its id,
    then its signature, attributes and ancestors. *)
Definition second_pass `{Host} (files : source_files) (d d' : page_doclet) : Prop :=
  exists coll hs d0,
    setShortpath files d = Ok d0 /\
    d' = addSignatures coll (set_id (id_of_link (fst (createLink d hs)) d0) d0).

(** Lines 535-542, the body of the loop over the registered links for
    one long name and its link. *)
Definition generateMemberPages `{Host} (v : view) (members : members_rec)
    (entry : string * string) (st : out_state) : out_state :=
  generateMember v "Interface" (m_interfaces members) entry
    (generateMember v "External" (m_externals members) entry
       (generateMember v "Mixin" (m_mixins members) entry
          (generateMember v "Namespace" (m_namespaces members) entry
             (generateMember v "Class" (m_classes members) entry
                (generateMember v "Module" (m_modules members) entry st))))).

(** The arrays of members that get pages, each with the title of its
    pages, in the order of the loop. *)
Definition member_kinds (members : members_rec) : list (string * list page_doclet) :=
  [("Module", m_modules members); ("Class", m_classes members);
   ("Namespace", m_namespaces members); ("Mixin", m_mixins members);
   ("External", m_externals members); ("Interface", m_interfaces members)].

(** The page of a long name for one array of members, if the array holds
    a doclet of that long name: it is rendered from all the doclets of the
    long name in the array, under the title of the array and the name of
    the first of them. *)
Definition member_page `{Host} (v : view) (ln url : string)
    (kind : string * list page_doclet) : list write :=
  match filter (fun d => longname d = ln) (snd kind) with
  | [] => []
  | first :: rest =>
      [mkWrite (path_join OUTDIR url)
         (resolveLinks
            (render v "container.tmpl"
               (DocData (fst kind) (name first) (map DocDoclet (first :: rest)))))
         "utf8"]
  end.

(** * Properties *)

(** ** Which doclets get a signature *)

Lemma has_function_name_spec (ns : list string) :
  has_function_name ns = true <->
  exists n, n ∈ ns /\ toLowerCase n = "function".
Proof.
  induction ns as [|n ns IH]; simpl.
  - split; [discriminate | intros (n & Hn & _); inversion Hn].
  - destruct (String.eqb_spec (toLowerCase n) "function") as [Heq|Hne].
    + split; [intros _; exists n; split; [left | assumption] | reflexivity].
    + rewrite IH. split.
      * intros (m & Hm & Hf). exists m. split; [right; assumption | assumption].
      * intros (m & Hm & Hf). apply elem_of_cons in Hm as [->|Hm]; [contradiction|].
        exists m. split; assumption.
Qed.

Lemma needsSignature_spec {E} (d : doclet E) :
  needsSignature d = true <->
  kind d = "function" \/ kind d = "class" \/
  (kind d = "typedef" /\ declares_function d).
Proof.
  unfold needsSignature, declares_function.
  destruct (String.eqb_spec (kind d) "function") as [Hf|Hf]; simpl.
  { split; [intros _; left; assumption | reflexivity]. }
  destruct (String.eqb_spec (kind d) "class") as [Hc|Hc]; simpl.
  { split; [intros _; right; left; assumption | reflexivity]. }
  destruct (String.eqb_spec (kind d) "typedef") as [Ht|Ht].
  - destruct (type d) as [t|].
    + destruct (names t) as [ns|] eqn:Hns.
      * destruct ns as [|n ns]; simpl.
        -- split; [discriminate|].
           intros [?|[?|(_ & t' & ns' & m & Ht' & Hns' & Hm & _)]]; try contradiction.
           injection Ht' as <-. rewrite Hns in Hns'. injection Hns' as <-.
           inversion Hm.
        -- change (if String.eqb (toLowerCase n) "function" then true
                   else has_function_name ns)
             with (has_function_name (n :: ns)).
           rewrite has_function_name_spec. split.
           ++ intros (m & Hm & Hfun). right; right. split; [assumption|].
              exists t, (n :: ns), m. repeat split; assumption.
           ++ intros [?|[?|(_ & t' & ns' & m & Ht' & Hns' & Hm & Hfun)]];
                try contradiction.
              injection Ht' as <-. rewrite Hns in Hns'. injection Hns' as <-.
              exists m. split; assumption.
      * split; [discriminate|].
        intros [?|[?|(_ & t' & ns' & m & Ht' & Hns' & _)]]; try contradiction.
        injection Ht' as <-. rewrite Hns in Hns'. discriminate.
    + split; [discriminate|].
      intros [?|[?|(_ & t' & ns' & m & Ht' & _)]]; try contradiction. discriminate.
  - split; [discriminate|].
    intros [?|[?|(? & _)]]; contradiction.
Qed.

Section SignatureProofs.
Context `{Host}.

Lemma setShortpath_fields sf (d d' : page_doclet) :
  setShortpath sf d = Ok d' -> d' = d \/ exists short, d' = set_shortpath short d.
Proof.
  unfold setShortpath.
  destruct (getPathFromDoclet d) as [p|]; [|intros [= <-]; left; reflexivity].
  destruct (files_lookup p sf) as [f|]; [|discriminate].
  destruct (shortened f) as [short|]; [|intros [= <-]; left; reflexivity].
  destruct (negb (String.eqb short "")); intros [= <-];
    [right; exists short; reflexivity | left; reflexivity].
Qed.

Lemma setShortpath_total sf (d : page_doclet) :
  (forall p, getPathFromDoclet d = Some p -> is_Some (files_lookup p sf)) ->
  exists d', setShortpath sf d = Ok d'.
Proof.
  intros Hfiles. unfold setShortpath.
  destruct (getPathFromDoclet d) as [p|]; [|eauto].
  destruct (Hfiles p eq_refl) as [f ->].
  destruct (shortened f) as [short|]; [|eauto].
  destruct (negb (String.eqb short "")); eauto.
Qed.

Lemma setId_fields hs (d d' : page_doclet) :
  setId hs d = Ok d' -> exists i, d' = set_id i d.
Proof.
  unfold setId. destruct (longnameToUrl hs !! longname d) as [url|]; [|discriminate].
  destruct (includes "#" url); intros [= <-]; eauto.
Qed.

Lemma setId_registered ln link hs (d : page_doclet) :
  longname d = ln -> ln <> "__proto__" ->
  exists d', setId (registerLink ln link hs) d = Ok d'.
Proof.
  intros <- Hne. unfold setId. apply String.eqb_neq in Hne.
  rewrite registerLink_stores, Hne, lookup_insert_eq.
  destruct (includes "#" link); eauto.
Qed.

(** The registry holds no link for the long name [__proto__], whatever
    was registered. *)
Lemma setId_proto hs (d : page_doclet) :
  longname d = "__proto__" -> exists msg, setId hs d = Throw (TypeError msg).
Proof.
  intros Hln. unfold setId. rewrite Hln, longnameToUrl_own. eauto.
Qed.

(** The second loop's body returns whenever the doclet's source file has
    an entry and its long name is not [__proto__], and what it returns is
    [addSignatures] of the doclet with, at most, its short path and its id
    set. *)
Lemma setDocletInformation_returns sf coll (d : page_doclet) hs :
  (forall p, getPathFromDoclet d = Some p -> is_Some (files_lookup p sf)) ->
  longname d <> "__proto__" ->
  exists d0 hs',
    setDocletInformation sf coll d hs = Ok (addSignatures coll d0, hs') /\
    exists i, d0 = set_id i d \/ exists short, d0 = set_id i (set_shortpath short d).
Proof.
  intros Hfiles Hne. unfold setDocletInformation.
  destruct (createLink d hs) as [link hs1].
  destruct (setShortpath_total sf d Hfiles) as [d1 Hd1]. rewrite Hd1. cbn.
  assert (Hln : longname d1 = longname d).
  { apply setShortpath_fields in Hd1 as [->|[short ->]]; [reflexivity|].
    unfold set_shortpath. destruct (meta d); reflexivity. }
  destruct (setId_registered (longname d) link hs1 d1 Hln Hne) as [d2 Hd2].
  rewrite Hd2. cbn. exists d2, (registerLink (longname d) link hs1).
  split; [reflexivity|].
  apply setId_fields in Hd2 as [i ->]. exists i.
  apply setShortpath_fields in Hd1 as [->|[short ->]]; [left | right; exists short];
    reflexivity.
Qed.

(** For the long name [__proto__] it throws once the short path is set:
    line 469 finds no link to read. *)
Lemma setDocletInformation_proto sf coll (d : page_doclet) hs :
  (forall p, getPathFromDoclet d = Some p -> is_Some (files_lookup p sf)) ->
  longname d = "__proto__" ->
  exists msg, setDocletInformation sf coll d hs = Throw (TypeError msg).
Proof.
  intros Hfiles Hln. unfold setDocletInformation.
  destruct (createLink d hs) as [link hs1].
  destruct (setShortpath_total sf d Hfiles) as [d1 Hd1]. rewrite Hd1. cbn.
  assert (Hln1 : longname d1 = "__proto__").
  { rewrite <- Hln.
    apply setShortpath_fields in Hd1 as [->|[short ->]]; [reflexivity|].
    unfold set_shortpath. destruct (meta d); reflexivity. }
  destruct (setId_proto (registerLink (longname d) link hs1) d1 Hln1) as [msg ->].
  exists msg. reflexivity.
Qed.

Lemma signature_addSignatures coll (d : page_doclet) :
  is_Some (signature (addSignatures coll d)) <->
  is_Some (signature d) \/ needsSignature d = true \/
  kind d = "member" \/ kind d = "constant".
Proof.
  destruct d as [k n ln desc ty ps rs m ex se sg at' i an mo].
  unfold addSignatures. cbn -[needsSignature String.eqb].
  set (d := mkDoclet k n ln desc ty ps rs m ex se sg at' i an mo).
  destruct (needsSignature d) eqn:Hneeds; cbn -[String.eqb].
  - destruct (String.eqb k "member"); cbn -[String.eqb];
      destruct (String.eqb k "constant"); cbn; split; eauto.
  - destruct (String.eqb_spec k "member") as [Hm|Hm]; cbn -[String.eqb].
    + destruct (String.eqb k "constant"); cbn; split; eauto.
    + destruct (String.eqb_spec k "constant") as [Hc|Hc]; cbn.
      * split; eauto.
      * split; [eauto|]. intros [?|[?|[?|?]]]; [assumption|discriminate|done|done].
Qed.

End SignatureProofs.

Section SignatureClaim.
Context `{Host}.

(** Setting the id and the short path leaves what signatures depend
    on. *)
Lemma base_fields (d d0 : page_doclet) i :
  d0 = set_id i d \/ (exists short, d0 = set_id i (set_shortpath short d)) ->
  kind d0 = kind d /\ type d0 = type d /\ signature d0 = signature d /\
  params d0 = params d.
Proof.
  intros [->|[short ->]]; [repeat split|].
  unfold set_shortpath. destruct (meta d); repeat split.
Qed.

Lemma needs_excludes_member {E} (d : doclet E) :
  needsSignature d = true -> kind d <> "member" /\ kind d <> "constant".
Proof.
  rewrite needsSignature_spec. intros [->|[->|[-> _]]]; split; discriminate.
Qed.

(** What a doclet that needs a signature gets: a signature span around
    the parameters between brackets and a type-signature span around the
    return types. *)
Lemma signature_of_needed coll (d : page_doclet) :
  needsSignature d = true ->
  exists returnTypes,
    signature (addSignatures coll d) =
      Some (signature_span_open +:+
            (or_empty (signature d) +:+ "(" +:+
             join ", " (match params d with
                        | Some ps => addParamAttributes ps
                        | None => []
                        end) +:+ ")") +:+
            "</span>" +:+ type_signature_span_open +:+ returnTypes +:+ "</span>").
Proof.
  intros Hneeds. destruct (needs_excludes_member d Hneeds) as [Hm Hc].
  destruct d as [k n ln desc ty ps rs m ex se sg at' i an mo].
  unfold addSignatures. rewrite Hneeds. cbn -[String.eqb] in *.
  apply String.eqb_neq in Hm, Hc. rewrite Hm. cbn -[String.eqb].
  rewrite Hc. eexists. reflexivity.
Qed.

End SignatureClaim.

(** C1, as amended.  Take a doclet that has no signature yet, whose
    source file, if it has one, is listed, and whose long name is not
    [__proto__] (a name under which the registry of links stores nothing,
    so that the second pass throws at line 469 before any signature is
    set).  The second pass returns, and
    the doclet it returns has a signature exactly when its kind is
    [function] or [class], or its kind is [typedef] and a declared type
    name is [function] in some case, or its kind is [member] or
    [constant].  For the kinds [function] and [class] the signature is a
    signature span around the parameter names between brackets, followed
    by a type-signature span; for a typedef the signature is there if and only
    if a declared type name is [function] in some case. *)
Theorem signature_given `{Host} sf coll (d : page_doclet) hs :
  (forall p, getPathFromDoclet d = Some p -> is_Some (files_lookup p sf)) ->
  longname d <> "__proto__" ->
  signature d = None ->
  exists d' hs',
    setDocletInformation sf coll d hs = Ok (d', hs') /\
    (is_Some (signature d') <->
       kind d = "function" \/ kind d = "class" \/
       (kind d = "typedef" /\ declares_function d) \/
       kind d = "member" \/ kind d = "constant") /\
    (kind d = "function" \/ kind d = "class" ->
       exists returnTypes,
         signature d' =
           Some (signature_span_open +:+
                 ("(" +:+ join ", " (addParamAttributes (default [] (params d))) +:+ ")")
                 +:+ "</span>" +:+
                 type_signature_span_open +:+ returnTypes +:+ "</span>")) /\
    (kind d = "typedef" -> (is_Some (signature d') <-> declares_function d)).
Proof.
  intros Hfiles Hne Hsig.
  destruct (setDocletInformation_returns sf coll d hs Hfiles Hne)
    as (d0 & hs' & Hrun & i & Hd0).
  destruct (base_fields d d0 i Hd0) as (Hk & Hty & Hsg & Hps).
  assert (Hdecl : declares_function d0 <-> declares_function d).
  { unfold declares_function. rewrite Hty. reflexivity. }
  assert (Hgiven : is_Some (signature (addSignatures coll d0)) <->
                   needsSignature d0 = true \/ kind d = "member" \/ kind d = "constant").
  { rewrite signature_addSignatures, Hsg, Hsig, Hk. split.
    - intros [[? [=]]|Hrest]; exact Hrest.
    - intros Hrest; right; exact Hrest. }
  exists (addSignatures coll d0), hs'. split; [exact Hrun|]. split; [|split].
  - rewrite Hgiven, needsSignature_spec, Hk, Hdecl. tauto.
  - intros Hkind.
    assert (Hneeds : needsSignature d0 = true).
    { apply needsSignature_spec. rewrite Hk. tauto. }
    destruct (signature_of_needed coll d0 Hneeds) as [ret Hret].
    rewrite Hret, Hsg, Hsig, Hps. exists ret. destruct (params d); reflexivity.
  - intros Htypedef. rewrite Hgiven, needsSignature_spec, Hk, Hdecl, Htypedef.
    split; [|tauto].
    intros [[[=]|[[=]|[_ Hd]]]|[[=]|[=]]]. exact Hd.
Qed.

(** A function documented in a listed source file is given a
    signature. *)
Lemma signature_given_witness :
  let d : page_doclet :=
    mkDoclet "function" "add" "add" None None None None
      (Some (mkMeta (Some "/src") "add.js" None)) None None None None None None None in
  exists d' hs',
    setDocletInformation (H := SampleHost.host)
      [("/src/add.js", mkSourceFile "/src/add.js" (Some "add.js"))]
      (fun cur => [cur]) d ∅ = Ok (d', hs') /\
    (is_Some (signature d') <->
       kind d = "function" \/ kind d = "class" \/
       (kind d = "typedef" /\ declares_function d) \/
       kind d = "member" \/ kind d = "constant") /\
    (kind d = "function" \/ kind d = "class" ->
       exists returnTypes,
         signature d' =
           Some (signature_span_open +:+
                 ("(" +:+ join ", " (addParamAttributes (default [] (params d))) +:+ ")")
                 +:+ "</span>" +:+
                 type_signature_span_open +:+ returnTypes +:+ "</span>")) /\
    (kind d = "typedef" -> (is_Some (signature d') <-> declares_function d)).
Proof.
  intros d. apply (signature_given (H := SampleHost.host)).
  - intros p Hp. vm_compute in Hp. injection Hp as <-. eexists. reflexivity.
  - discriminate.
  - reflexivity.
Defined.

(** C1, the claim as it is written fails: a doclet of kind [member], which
    is neither a function, a class nor a typedef, is given a signature by
    the second pass. *)
Lemma member_is_given_a_signature :
  exists d' hs',
    setDocletInformation (H := SampleHost.host) [] (fun cur => [cur])
      (SampleHost.plain "member" "count" "Counter#count") ∅ = Ok (d', hs') /\
    signature d' = Some (type_signature_span_open +:+ "</span>") /\
    needsSignature (SampleHost.plain (E := example_rec) "member" "count" "Counter#count")
      = false.
Proof.
  eexists _, _. split; [reflexivity|]. split; reflexivity.
Qed.

(** ** The markers of a parameter name *)

Example updateItemName_plain :
  updateItemName (mkItem (Some "x") JUndefined JUndefined JUndefined None) = "x".
Proof. reflexivity. Qed.

Example updateItemName_all :
  updateItemName (mkItem (Some "x") (JBool true) (JBool false) (JBool true) None)
  = "<span class=" +:+ dq +:+ "optional-param" +:+ dq +:+ ">[&hellip;x]</span>"
    +:+ "<span class=" +:+ dq +:+ "signature-attributes" +:+ dq +:+ ">non-null</span>".
Proof. reflexivity. Qed.

(** C10.  For every parameter item, [updateItemName] prefixes the name of
    a [variable] item with the ellipsis entity, wraps the name of an
    [optional] item in square brackets inside an optional-param span, and
    then appends a signature-attributes span holding [nullable] when
    [nullable] is exactly [true], one holding [non-null] when it is exactly
    [false], and nothing for any other value of [nullable]. *)
Theorem updateItemName_markers (it : item) :
  updateItemName it =
    let name :=
      match item_name it with
      | Some n => n
      | None => ""
      end in
    let name := if truthy (item_variable it) then "&hellip;" +:+ name else name in
    let shown :=
      if truthy (item_optional it)
      then "<span class=" +:+ dq +:+ "optional-param" +:+ dq +:+ ">[" +:+ name +:+
           "]</span>"
      else name in
    match item_nullable it with
    | JBool true =>
        shown +:+ "<span class=" +:+ dq +:+ "signature-attributes" +:+ dq +:+
        ">nullable</span>"
    | JBool false =>
        shown +:+ "<span class=" +:+ dq +:+ "signature-attributes" +:+ dq +:+
        ">non-null</span>"
    | _ => shown
    end.
Proof.
  destruct it as [name optional nullable variable ty].
  unfold updateItemName, getSignatureAttributes.
  cbn [item_name item_optional item_nullable item_variable].
  destruct (truthy optional), (truthy variable);
    destruct nullable as [| |[|]| |]; destruct name; reflexivity.
Qed.

(** ** Static files given by the user *)

Section StaticFilesProofs.
Context `{Host}.

(** No scope around line 441 declares [fileName]. *)
Lemma fileName_not_in_scope normPath path filename destDir :
  resolve (("destDir", Some destDir) :: ("filename", Some filename) ::
           user_file_scope normPath path) "fileName"
  = Throw (ReferenceError "fileName").
Proof. reflexivity. Qed.

(** The first file found makes its directory and then throws. *)
Lemma copy_user_file_throws normPath path filename fs :
  copy_user_file (user_file_scope normPath path) filename fs =
    (Throw (ReferenceError "fileName"),
     fs_mkPath (fs_toDir (replace_string (fs_toDir path) OUTDIR filename)) fs).
Proof. reflexivity. Qed.

Lemma copy_include_path_unfold normPath conf path fs :
  copy_include_path
    (("fileScanner", None) :: ("fileFilter", None) :: ("filePaths", None) ::
     publish_scope normPath) conf path fs
  = for_each (copy_user_file (user_file_scope normPath path)) (scan conf path 10) fs.
Proof. reflexivity. Qed.

Lemma copy_include_path_copies_nothing normPath conf path fs :
  let ρ := ("fileScanner", None) :: ("fileFilter", None) :: ("filePaths", None) ::
           publish_scope normPath in
  copied (snd (copy_include_path ρ conf path fs)) = copied fs /\
  fst (copy_include_path ρ conf path fs) =
    match scan conf path 10 with
    | [] => Ok tt
    | _ :: _ => Throw (ReferenceError "fileName")
    end.
Proof.
  intros ρ. unfold ρ. rewrite copy_include_path_unfold.
  destruct (scan conf path 10) as [|f files]; [split; reflexivity|].
  cbn [for_each]. unfold mbind, eff_bind at 1.
  rewrite copy_user_file_throws. split; reflexivity.
Qed.

(** C2.  The pass over the static files of the user copies no file at
    all, whatever the configuration and whatever the scan finds: every
    copy it leaves behind was there before.  It ends normally only when
    no include path has a file; otherwise it throws [ReferenceError] for
    the identifier [fileName] at the first file found. *)
Theorem user_static_files_not_copied normPath staticFiles fs :
  copied (snd (copyUserStaticFiles normPath (Some staticFiles) fs)) = copied fs /\
  fst (copyUserStaticFiles normPath (Some staticFiles) fs) =
    (if forallb (fun path => Nat.eqb (length (scan staticFiles path 10)) 0)
          (default [] (include staticFiles))
     then Ok tt else Throw (ReferenceError "fileName")).
Proof.
  unfold copyUserStaticFiles.
  generalize (default [] (include staticFiles)) as filePaths.
  intros filePaths. revert fs.
  induction filePaths as [|path rest IH]; intros fs; [split; reflexivity|].
  cbn [for_each forallb].
  destruct (copy_include_path_copies_nothing normPath staticFiles path fs)
    as [Hcopied Hres].
  cbv zeta in Hcopied, Hres.
  change (copy_include_path ?ρ staticFiles path;; ?k)
    with (eff_bind _ _ (fun _ => k) (copy_include_path ρ staticFiles path)).
  unfold eff_bind at 1 2.
  destruct (copy_include_path _ staticFiles path fs) as [r fs'] eqn:Hrun.
  cbn [fst snd] in Hcopied, Hres. subst r.
  destruct (scan staticFiles path 10) as [|f files]; cbn [length Nat.eqb andb].
  - destruct (IH fs') as [IHc IHr]. rewrite <- Hcopied. split; assumption.
  - split; [exact Hcopied | reflexivity].
Qed.

End StaticFilesProofs.

(** On the small host: for the include path [assets] the scan finds two
    style sheets; the directory for the first is made, then the pass
    throws, and nothing is copied. *)
Example user_static_files_run :
  copyUserStaticFiles (H := SampleHost.host) "tpl"
    (Some (mkStaticFiles (Some ["assets"]) None None)) (mkFs [] [])
  = (Throw (ReferenceError "fileName"), mkFs ["out"] []).
Proof. reflexivity. Qed.

(** ** Shortened source paths *)

Lemma starts_with_app (p rest : string) : starts_with p (p +:+ rest) = true.
Proof.
  induction p as [|c p IH]; [reflexivity|].
  change (String c p +:+ rest) with (String c (p +:+ rest)).
  cbn [starts_with]. rewrite Ascii.eqb_refl. exact IH.
Qed.

Lemma drop_chars_app (p rest : string) :
  drop_chars (String.length p) (p +:+ rest) = rest.
Proof. induction p as [|c p IH]; [reflexivity | exact IH]. Qed.

(** Replacing a prefix by nothing strips it. *)
Lemma replace_first_prefix (p rest : string) : replace_first p "" (p +:+ rest) = rest.
Proof.
  destruct p as [|c p]; [destruct rest; reflexivity|].
  change (String c p +:+ rest) with (String c (p +:+ rest)).
  cbn [replace_first].
  change (String c (p +:+ rest)) with (String c p +:+ rest).
  rewrite starts_with_app. apply drop_chars_app.
Qed.

Lemma no_backslash_left (s : string) :
  includes (String backslash "") (backslashes_to_slashes s) = false.
Proof.
  induction s as [|c s IH]; [reflexivity|].
  cbn [backslashes_to_slashes includes]. rewrite IH, orb_false_r.
  cbn [starts_with].
  destruct (Ascii.eqb c backslash) eqn:Hc; [reflexivity|].
  rewrite Ascii.eqb_sym, Hc. reflexivity.
Qed.

Lemma lookup_map {A B} (f : A -> B) (l : list A) (i : nat) :
  map f l !! i = f <$> l !! i.
Proof.
  revert i. induction l as [|x l IH]; intros [|i]; try reflexivity. apply IH.
Qed.

(** C6.  For the source paths [/a/b/x.js] and [/a/b/c/y.js] the common
    prefix is [/a/b/] and the shortened paths are [x.js] and [c/y.js].
    For every file map and every prefix, [shortenPaths] keeps the keys and
    the resolved paths in place and gives every entry a shortened path
    that has no backslash and that, when the resolved path starts with the
    prefix, is the rest of the resolved path with every backslash turned
    into a slash. *)
Theorem shortenPaths_strips_prefix :
  PosixPath.commonPrefix ["/a/b/x.js"; "/a/b/c/y.js"] = "/a/b/" /\
  shortenPaths
    [("/a/b/x.js", mkSourceFile "/a/b/x.js" None);
     ("/a/b/c/y.js", mkSourceFile "/a/b/c/y.js" None)]
    (PosixPath.commonPrefix ["/a/b/x.js"; "/a/b/c/y.js"])
  = [("/a/b/x.js", mkSourceFile "/a/b/x.js" (Some "x.js"));
     ("/a/b/c/y.js", mkSourceFile "/a/b/c/y.js" (Some "c/y.js"))] /\
  forall (files : source_files) (prefix : string) (i : nat) file f,
    files !! i = Some (file, f) ->
    exists short,
      shortenPaths files prefix !! i = Some (file, mkSourceFile (resolved f) (Some short)) /\
      includes (String backslash "") short = false /\
      forall rest, resolved f = prefix +:+ rest -> short = backslashes_to_slashes rest.
Proof.
  split; [reflexivity|]. split; [reflexivity|].
  intros files prefix i file f Hi.
  exists (backslashes_to_slashes (replace_first prefix "" (resolved f))).
  split; [|split].
  - unfold shortenPaths. rewrite lookup_map, Hi. reflexivity.
  - apply no_backslash_left.
  - intros rest ->. rewrite replace_first_prefix. reflexivity.
Qed.

(** A path of Windows below the prefix [C:\src\]: the prefix is
    stripped and the backslash that is left becomes a slash. *)
Lemma shortenPaths_strips_prefix_witness :
  let prefix := "C:" +:+ String backslash ("src" +:+ String backslash "") in
  let path := prefix +:+ "lib" +:+ String backslash "a.js" in
  shortenPaths [(path, mkSourceFile path None)] prefix !! 0
  = Some (path, mkSourceFile path (Some "lib/a.js")).
Proof.
  intros prefix path.
  destruct (proj2 (proj2 shortenPaths_strips_prefix)
              [(path, mkSourceFile path None)] prefix 0 path
              (mkSourceFile path None) eq_refl) as (short & Hlookup & _ & Hrest).
  rewrite Hlookup, (Hrest ("lib" +:+ String backslash "a.js") eq_refl).
  reflexivity.
Defined.

(** On the small host, through both passes: two doclets in [/a/b/x.js]
    and [/a/b/c/y.js] get the short paths [x.js] and [c/y.js]. *)
Example short_paths_run :
  let at_ (dir file : string) : host_doclet :=
    mkDoclet "function" file file None None None None
      (Some (mkMeta (Some dir) file None)) None None None None None None None in
  match enrich (H := SampleHost.host) PosixPath.commonPrefix
          [at_ "/a/b" "x.js"; at_ "/a/b/c" "y.js"] ∅ with
  | Ok (ds, files, _) =>
      (map (fun d => meta_shortpath <$> meta d) ds, map fst files)
  | Throw _ => ([], [])
  end
  = ([Some (Some "x.js"); Some (Some "c/y.js")], ["/a/b/x.js"; "/a/b/c/y.js"]).
Proof. reflexivity. Qed.

(** ** Source listings *)

Lemma append_empty (s : string) : s +:+ "" = s.
Proof.
  induction s as [|c s IH]; [reflexivity|].
  change (String c s +:+ "") with (String c (s +:+ "")). rewrite IH. reflexivity.
Qed.

(** The text of the error logged for an unreadable file. *)
Lemma source_error_text (file msg : string) :
  util_format "Error while generating source file %s: %s" [file; msg]
  = "Error while generating source file " +:+ file +:+ ": " +:+ msg.
Proof.
  change (util_format "Error while generating source file %s: %s" [file; msg])
    with ("Error while generating source file " +:+ file +:+ ": " +:+ msg +:+ "").
  rewrite append_empty. reflexivity.
Qed.

Section SourceListingProofs.
Context `{Host}.

(** One source file: one page, and one error if the file is
    unreadable. *)
Lemma generateSourceFile_step v encoding entry st :
  exists outfile,
    written (generateSourceFile v encoding entry st)
      = written st ++ [source_page v encoding entry outfile] /\
    logged (generateSourceFile v encoding entry st)
      = logged st ++ source_error encoding entry.
Proof.
  destruct entry as [file f].
  unfold generateSourceFile, source_page, source_error, source_doc.
  cbn [fst snd].
  destruct (getUniqueFilename (or_empty (shortened f)) (out_helper st))
    as [outfile hs] eqn:Hout.
  exists outfile.
  destruct (fs_readFileSync (resolved f) encoding) as [text|e]; cbn -[util_format].
  - split; [reflexivity | rewrite app_nil_r; reflexivity].
  - split; [reflexivity|]. rewrite source_error_text. reflexivity.
Qed.

(** The pages of the loop, whatever it logs. *)
Lemma generateSourceFiles_pages v encoding files st :
  exists outfiles,
    written (fold_left (fun st entry => generateSourceFile v encoding entry st) files st)
      = written st ++ zip_with (source_page v encoding) files outfiles.
Proof.
  revert st. induction files as [|entry files IH]; intros st.
  - exists []. cbn. rewrite app_nil_r. reflexivity.
  - cbn [fold_left].
    destruct (generateSourceFile_step v encoding entry st) as (outfile & Hw & _).
    destruct (IH (generateSourceFile v encoding entry st)) as (outfiles & Hws).
    exists (outfile :: outfiles). rewrite Hws, Hw. cbn [zip_with].
    rewrite <- app_assoc. reflexivity.
Qed.

(** C3.  [generateSourceFiles] goes through every source file, readable
    or not, and returns: it writes one page per file, in order.  The page
    of a file that is read is rendered from the escaped text of the file;
    the page of a file that cannot be read is rendered from [undefined],
    so without its contents, and for every such file, and for no other,
    an error made of the file name and the message of the failure is
    logged.  The files are read with the encoding given, [utf8] when none
    is given. *)
Theorem generateSourceFiles_continues v files encoding st :
  exists outfiles,
    length outfiles = length files /\
    written (generateSourceFiles v files encoding st)
      = written st ++
        zip_with (source_page v (encoding_or_utf8 encoding)) files outfiles /\
    logged (generateSourceFiles v files encoding st)
      = logged st ++ concat (map (source_error (encoding_or_utf8 encoding)) files).
Proof.
  unfold generateSourceFiles.
  generalize (encoding_or_utf8 encoding) as enc. intros enc.
  revert st. induction files as [|entry files IH]; intros st.
  - exists []. cbn. rewrite !app_nil_r. auto.
  - cbn [fold_left].
    destruct (generateSourceFile_step v enc entry st) as (outfile & Hw & Hl).
    destruct (IH (generateSourceFile v enc entry st)) as (outfiles & Hlen & Hws & Hls).
    exists (outfile :: outfiles). split; [cbn; rewrite Hlen; reflexivity|].
    rewrite Hws, Hls, Hw, Hl. cbn [zip_with map concat].
    rewrite <- !app_assoc. split; reflexivity.
Qed.

End SourceListingProofs.

(** On the small host: the second of three files cannot be read; all
    three get a page, and one error is logged. *)
Example generateSourceFiles_run :
  let st :=
    generateSourceFiles (H := SampleHost.host) tt
      [("/src/a.js", mkSourceFile "/src/a.js" (Some "a.js"));
       ("/src/gone.js", mkSourceFile "/src/gone.js" (Some "gone.js"));
       ("/src/z.js", mkSourceFile "/src/z.js" (Some "z.js"))]
      None (mkOut [] [] ∅) in
  map w_html (written st) =
    ["container.tmpl|Source|a.js|source:if (a &lt; b) { /* /src/a.js */ }";
     "container.tmpl|Source|gone.js|undefined";
     "container.tmpl|Source|z.js|source:if (a &lt; b) { /* /src/z.js */ }"] /\
  logged st =
    ["Error while generating source file /src/gone.js: ENOENT: no such file"].
Proof. split; reflexivity. Qed.

(** ** The encoding of the pages *)

Create HintDb utf8.

Section EncodingProofs.
Context `{Host}.

Lemma writes_utf8_refl st : writes_utf8 st st.
Proof. exists []. rewrite app_nil_r. split; [reflexivity | constructor]. Qed.

Lemma writes_utf8_trans st1 st2 st3 :
  writes_utf8 st1 st2 -> writes_utf8 st2 st3 -> writes_utf8 st1 st3.
Proof.
  intros (n1 & H1 & F1) (n2 & H2 & F2). exists (n1 ++ n2).
  rewrite H2, H1, app_assoc. split; [reflexivity | apply Forall_app; split; assumption].
Qed.

Lemma generate_utf8 v type title docs filename resolve_links st :
  writes_utf8 st (generate v type title docs filename resolve_links st).
Proof.
  unfold generate. eexists. split; [reflexivity|].
  constructor; [reflexivity | constructor].
Qed.

Lemma generateTutorial_utf8 v title t filename st :
  writes_utf8 st (generateTutorial v title t filename st).
Proof.
  unfold generateTutorial. eexists. split; [reflexivity|].
  constructor; [reflexivity | constructor].
Qed.

Lemma generateSourceFile_utf8 v encoding entry st :
  writes_utf8 st (generateSourceFile v encoding entry st).
Proof.
  destruct (generateSourceFile_step v encoding entry st) as (outfile & Hw & _).
  exists [source_page v encoding entry outfile]. split; [exact Hw|].
  constructor; [reflexivity | constructor].
Qed.

(** A loop whose body only writes [utf8] files only writes [utf8]
    files. *)
Lemma fold_left_utf8 {A} (body : out_state -> A -> out_state) (l : list A) st :
  (forall st x, writes_utf8 st (body st x)) ->
  writes_utf8 st (fold_left body l st).
Proof.
  intros Hbody. revert st. induction l as [|x l IH]; intros st.
  - apply writes_utf8_refl.
  - cbn [fold_left]. eapply writes_utf8_trans; [apply Hbody | apply IH].
Qed.

Lemma generateSourceFiles_utf8 v files encoding st :
  writes_utf8 st (generateSourceFiles v files encoding st).
Proof.
  unfold generateSourceFiles. apply fold_left_utf8.
  intros st' entry. apply generateSourceFile_utf8.
Qed.

Lemma generateMember_utf8 v title data entry st :
  writes_utf8 st (generateMember v title data entry st).
Proof.
  unfold generateMember. destruct entry as [ln url].
  destruct (filter _ data); [apply writes_utf8_refl | apply generate_utf8].
Qed.

Lemma saveChild_utf8 v child st : writes_utf8 st (saveChild v child st).
Proof.
  unfold saveChild.
  destruct (tutorialToUrl (tutorial_name child) (out_helper st)) as [filename hs].
  unfold generateTutorial. eexists. split; [reflexivity|].
  constructor; [reflexivity | constructor].
Qed.

Lemma saveChildren_utf8 v : forall node st, writes_utf8 st (saveChildren v node st).
Proof.
  fix IH 1. intros [n t children] st. cbn [saveChildren].
  revert st. induction children as [|child rest IHrest]; intros st.
  - apply writes_utf8_refl.
  - cbn [fold_left]. eapply writes_utf8_trans; [|apply IHrest].
    eapply writes_utf8_trans; [apply saveChild_utf8 | apply IH].
Qed.

#[local] Hint Resolve writes_utf8_refl generate_utf8 generateTutorial_utf8
  generateSourceFiles_utf8 generateMember_utf8 saveChildren_utf8 : utf8.

(** One more writer after a state that is reached by [utf8] writes. *)
Ltac then_utf8 := eapply writes_utf8_trans; [|solve [auto with utf8]].

(** C9, as amended.  Every page of a run (the index, the global page, the
    member pages, the source listings, the tutorials) is written as
    [utf8], whatever encoding the configuration gives.  The encoding of
    the configuration, [utf8] when there is none, is the one the source
    files are read with for their listings. *)
Theorem pages_written_as_utf8 v outputSourceFiles sourceFiles encoding docs
    indexUrl globalUrl members links tutorials st :
  writes_utf8 st
    (generatePages v outputSourceFiles sourceFiles encoding docs indexUrl globalUrl
       members links tutorials st) /\
  exists outfiles,
    written (generateSourceFiles v sourceFiles encoding st)
      = written st ++
        zip_with (source_page v (encoding_or_utf8 encoding)) sourceFiles outfiles.
Proof.
  split; [|apply generateSourceFiles_pages].
  unfold generatePages. then_utf8.
  eapply writes_utf8_trans;
    [|apply fold_left_utf8; intros st' entry; do 5 then_utf8; auto with utf8].
  eapply writes_utf8_trans; [|destruct (negb _); auto with utf8].
  then_utf8. destruct outputSourceFiles; auto with utf8.
Qed.

End EncodingProofs.

(** C9, the claim as it is written fails: with the encoding [latin1]
    configured, the index, a source listing and a tutorial are all written
    as [utf8]. *)
Lemma pages_ignore_configured_encoding :
  let st :=
    generatePages (H := SampleHost.host) tt true
      [("/src/a.js", mkSourceFile "/src/a.js" (Some "a.js"))] (Some "latin1")
      [DocMainpage None "Main Page"] "index.html" "global.html"
      (mkMembers [] [] [] [] [] [] []) []
      (Tutorial "index" "" [Tutorial "intro" "Introduction" []])
      (mkOut [] [] ∅) in
  encoding_or_utf8 (Some "latin1") = "latin1" /\
  map (fun w => (w_path w, w_encoding w)) (written st) =
    [("out/a.js.html", "utf8"); ("out/index.html", "utf8");
     ("out/tutorial-intro.html", "utf8")].
Proof. split; reflexivity. Qed.

(** ** Captions of examples *)

Section RegexProofs.
Import Regex.

Lemma append_assoc (a b c : string) : (a +:+ b) +:+ c = a +:+ b +:+ c.
Proof.
  induction a as [|x a IH]; [reflexivity|].
  change ((String x a +:+ b) +:+ c) with (String x ((a +:+ b) +:+ c)).
  rewrite IH. reflexivity.
Qed.

Lemma append_cons (x : ascii) (a b : string) : String x a +:+ b = String x (a +:+ b).
Proof. reflexivity. Qed.

Lemma consume_consume (t1 t2 : string) (opened : list string) :
  consume t2 (consume t1 opened) = consume (t1 +:+ t2) opened.
Proof.
  unfold consume. rewrite map_map. apply map_ext. intros g. apply append_assoc.
Qed.

Lemma consume_empty (opened : list string) : consume "" opened = opened.
Proof.
  unfold consume. rewrite <- (map_id opened) at 2. apply map_ext.
  intros g. apply append_empty.
Qed.

Variable R : Type.
Variable cls : ascii -> bool.
Variable k : string -> list string -> option R.

(** A greedy run that can take all of [w] and go on does so. *)
Lemma greedy_longest (w s : string) opened r :
  all_in cls w = true ->
  k s (consume w opened) = Some r ->
  stops cls s ->
  greedy cls k (w +:+ s) opened = Some r.
Proof.
  revert opened. induction w as [|c w IH]; intros opened Hw Hk Hs.
  - rewrite consume_empty in Hk. change ("" +:+ s) with s.
    destruct s as [|c s]; [exact Hk|]. cbn in Hs. cbn [greedy]. rewrite Hs. exact Hk.
  - cbn in Hw. apply andb_prop in Hw as [Hc Hw].
    rewrite append_cons. cbn [greedy]. rewrite Hc.
    rewrite (IH (consume (String c "") opened)); [reflexivity | exact Hw | | exact Hs].
    rewrite consume_consume. exact Hk.
Qed.

(** A greedy run that fails beyond [w] gives one character back for
    [k]. *)
Lemma greedy_gives_back (w : string) (c : ascii) (s : string) opened r :
  all_in cls w = true ->
  cls c = true ->
  greedy cls k s (consume (w +:+ String c "") opened) = None ->
  k (String c s) (consume w opened) = Some r ->
  greedy cls k (w +:+ String c s) opened = Some r.
Proof.
  revert opened. induction w as [|x w IH]; intros opened Hw Hc Hnone Hk.
  - rewrite consume_empty in Hk. change ("" +:+ String c s) with (String c s).
    change ("" +:+ String c "") with (String c "") in Hnone.
    cbn [greedy]. rewrite Hc, Hnone. exact Hk.
  - cbn in Hw. apply andb_prop in Hw as [Hx Hw].
    rewrite append_cons. cbn [greedy]. rewrite Hx.
    rewrite (IH (consume (String x "") opened)); [reflexivity | exact Hw | exact Hc | |].
    + rewrite consume_consume. exact Hnone.
    + rewrite consume_consume. exact Hk.
Qed.

(** A greedy run of a class that holds everything reaches the end. *)
Lemma greedy_to_end (w : string) opened r :
  all_in cls w = true ->
  k "" (consume w opened) = Some r ->
  greedy cls k w opened = Some r.
Proof.
  intros Hw Hk. rewrite <- (append_empty w).
  apply greedy_longest; [exact Hw | exact Hk | exact I].
Qed.

(** A lazy run stops at the first place where [k] goes through. *)
Lemma lazy_first (w s : string) opened r :
  all_in cls w = true ->
  (forall w1 x w2, w = w1 +:+ String x w2 ->
     k (String x w2 +:+ s) (consume w1 opened) = None) ->
  k s (consume w opened) = Some r ->
  lazy cls k (w +:+ s) opened = Some r.
Proof.
  revert opened. induction w as [|c w IH]; intros opened Hw Hnone Hk.
  - rewrite consume_empty in Hk. change ("" +:+ s) with s.
    destruct s; cbn [lazy]; rewrite Hk; reflexivity.
  - cbn in Hw. apply andb_prop in Hw as [Hc Hw].
    rewrite append_cons. cbn [lazy].
    rewrite <- append_cons, <- (consume_empty opened) at 1.
    rewrite (Hnone "" c w eq_refl). rewrite Hc.
    apply IH; [exact Hw | | rewrite consume_consume; exact Hk].
    intros w1 x w2 ->. rewrite consume_consume.
    apply (Hnone (String c w1) x w2). reflexivity.
Qed.

End RegexProofs.

Section CaptionProofs.
Import Regex.

Lemma all_in_any (s : string) : all_in any_char s = true.
Proof. induction s as [|c s IH]; [reflexivity | exact IH]. Qed.

Lemma newline_is_space (c : ascii) : is_newline c = true -> is_space c = true.
Proof.
  unfold is_newline, is_space. intros Hc.
  apply orb_prop in Hc as [Hc|Hc]; apply Nat.eqb_eq in Hc; rewrite Hc; reflexivity.
Qed.

(** A literal that fails on [a] fails on every text that starts with [a],
    if [a] is long enough for the failure to be inside it. *)
Lemma strip_ci_fails_later (l a b : string) :
  strip_ci l a = None -> String.length l <= String.length a ->
  strip_ci l (a +:+ b) = None.
Proof.
  revert a. induction l as [|x l IH]; intros a Hnone Hlen; [discriminate|].
  destruct a as [|y a]; [cbn in Hlen; lia|].
  rewrite append_cons. cbn [strip_ci] in *.
  destruct (eqb_ci x y); [|reflexivity].
  apply IH; [exact Hnone | cbn in Hlen; lia].
Qed.

Lemma length_append (a b : string) :
  String.length (a +:+ b) = String.length a + String.length b.
Proof. induction a as [|x a IH]; [reflexivity | cbn; rewrite <- IH; reflexivity]. Qed.

(** Without an early closing tag in [inner], the closing tag is not found
    at any place inside [inner]. *)
Lemma no_close_inside (inner rest : string) :
  closes_early inner = false ->
  forall w1 x w2, inner = w1 +:+ String x w2 ->
    strip_ci "</caption>" (String x w2 +:+ "</caption>" +:+ rest) = None.
Proof.
  induction inner as [|c inner IH]; intros Hfree w1 x w2 Heq.
  - destruct w1; discriminate.
  - cbn [closes_early] in Hfree.
    destruct (strip_ci "</caption>" (String c inner +:+ "</caption>")) eqn:Hhere;
      [discriminate|].
    destruct w1 as [|y w1].
    + change ("" +:+ String x w2) with (String x w2) in Heq.
      injection Heq as <- <-. rewrite <- append_assoc.
      apply strip_ci_fails_later; [exact Hhere|].
      rewrite length_append. cbn. lia.
    + rewrite append_cons in Heq. injection Heq as _ Heq.
      apply (IH Hfree w1 x w2 Heq).
Qed.

(** White space after the line break cannot end the gap when no blank
    line starts the code. *)
Lemma no_later_break (g1 code : string) opened :
  starts_blank code = false ->
  greedy is_space (after_close g1) code opened = None.
Proof.
  revert opened. induction code as [|c rest IH]; intros opened Hblank.
  - reflexivity.
  - cbn [starts_blank] in Hblank. cbn [greedy].
    assert (Hhere : after_close g1 (String c rest) opened = None).
    { unfold after_close. cbn [run].
      destruct (is_newline c) eqn:Hnl; [|reflexivity].
      rewrite (newline_is_space c Hnl) in Hblank. cbn in Hblank.
      apply orb_false_elim in Hblank as [Hrest _].
      apply negb_false_iff, String.eqb_eq in Hrest. subst rest.
      destruct opened; reflexivity. }
    destruct (is_space c) eqn:Hsp; [|exact Hhere].
    cbn in Hblank. apply orb_false_elim in Hblank as [_ Hblank].
    rewrite (IH _ Hblank). exact Hhere.
Qed.

(** The gap, the line break and the code, once the caption is taken. *)
Lemma gap_and_code (g1 gap : string) (nl : ascii) (code : string) :
  all_in is_space gap = true ->
  is_newline nl = true ->
  code <> "" ->
  starts_blank code = false ->
  run [Open; Star is_space; One is_newline; Close; Open; Plus any_char; Close]
    (gap +:+ String nl code) [] [g1]
  = Some [g1; gap +:+ String nl ""; code].
Proof.
  intros Hgap Hnl Hcode Hblank. cbn [run].
  change (fun s o => run [One is_newline; Close; Open; Plus any_char; Close] s o [g1])
    with (after_close g1).
  apply greedy_gives_back.
  - exact Hgap.
  - apply newline_is_space, Hnl.
  - apply no_later_break, Hblank.
  - unfold after_close. cbn [run]. rewrite Hnl. cbn [consume map app].
    destruct code as [|c0 code]; [contradiction|].
    cbn [any_char]. rewrite append_assoc. change ("" +:+ gap) with gap.
    apply greedy_to_end; [apply all_in_any|].
    cbn [run consume map app]. reflexivity.
Qed.

End CaptionProofs.

Section FormatExampleProofs.
Import Regex.

(** The match of the caption regex on a captioned example. *)
Lemma caption_regex_matches (lead : string) (c : ascii) (inner gap : string)
    (nl : ascii) (code : string) :
  all_in is_space lead = true ->
  closes_early inner = false ->
  all_in is_space gap = true ->
  is_newline nl = true ->
  code <> "" ->
  starts_blank code = false ->
  exec caption_regex
    (lead +:+ "<caption>" +:+ String c inner +:+ "</caption>" +:+ gap +:+ String nl code)
  = Some [String c inner; gap +:+ String nl ""; code].
Proof.
  intros Hlead Hfree Hgap Hnl Hcode Hblank.
  unfold exec, caption_regex. cbn [run].
  apply greedy_longest; [exact Hlead | | reflexivity].
  cbn [consume map run].
  change (strip_ci "<caption>"
            ("<caption>" +:+ String c inner +:+ "</caption>" +:+ gap +:+ String nl code))
    with (Some (String c inner +:+ "</caption>" +:+ gap +:+ String nl code)).
  cbn [consume map run]. rewrite append_cons. cbn [any_char].
  apply lazy_first.
  - apply all_in_any.
  - intros w1 x w2 Heq. cbn [consume map run].
    rewrite (no_close_inside inner (gap +:+ String nl code) Hfree w1 x w2 Heq).
    reflexivity.
  - cbn [consume map run].
    change (strip_ci "</caption>" ("</caption>" +:+ gap +:+ String nl code))
      with (Some (gap +:+ String nl code)).
    cbn [consume map app].
    apply (gap_and_code (String c inner)); assumption.
Qed.

End FormatExampleProofs.

Section NoCaptionProofs.
Import Regex.

(** A greedy run fails when [k] fails wherever the run may end. *)
Lemma greedy_none {R} cls (k : string -> list string -> option R) (s : string) opened :
  (forall w t o, s = w +:+ t -> k t o = None) ->
  greedy cls k s opened = None.
Proof.
  revert opened. induction s as [|c s IH]; intros opened Hk.
  - apply (Hk "" "" opened eq_refl).
  - cbn [greedy]. rewrite (Hk "" (String c s) opened eq_refl).
    rewrite IH; [destruct (cls c); reflexivity|].
    intros w t o ->. apply (Hk (String c w) t o). reflexivity.
Qed.

Lemma mentions_nowhere (l s : string) :
  mentions l s = false -> forall w t, s = w +:+ t -> strip_ci l t = None.
Proof.
  induction s as [|c s IH]; intros Hno w t Heq.
  - destruct w; [|discriminate]. change ("" +:+ t) with t in Heq. subst t.
    cbn [mentions] in Hno. destruct (strip_ci l ""); [discriminate | reflexivity].
  - cbn [mentions] in Hno.
    destruct (strip_ci l (String c s)) eqn:Hhere; [discriminate|].
    destruct w as [|x w].
    + change ("" +:+ t) with t in Heq. subst t. exact Hhere.
    + rewrite append_cons in Heq. injection Heq as _ Heq. apply (IH Hno w t Heq).
Qed.

(** A lazy run fails when [k] fails wherever the run may end. *)
Lemma lazy_none {R} cls (k : string -> list string -> option R) (s : string) opened :
  (forall w t o, s = w +:+ t -> k t o = None) ->
  lazy cls k s opened = None.
Proof.
  revert opened. induction s as [|c s IH]; intros opened Hk.
  - cbn [lazy]. rewrite (Hk "" "" opened eq_refl). reflexivity.
  - cbn [lazy]. rewrite (Hk "" (String c s) opened eq_refl).
    destruct (cls c); [|reflexivity].
    apply IH. intros w t o ->. apply (Hk (String c w) t o). reflexivity.
Qed.

(** What is left after a literal is the end of the text. *)
Lemma strip_ci_suffix (l s s' : string) :
  strip_ci l s = Some s' -> exists w, s = w +:+ s'.
Proof.
  revert s. induction l as [|x l IH]; intros s Hs.
  - injection Hs as <-. exists "". reflexivity.
  - destruct s as [|y s]; [discriminate|]. cbn [strip_ci] in Hs.
    destruct (eqb_ci x y); [|discriminate].
    destruct (IH s Hs) as [w ->]. exists (String y w). reflexivity.
Qed.

(** Without an opening tag the regex does not match. *)
Lemma caption_regex_needs_opening (example : string) :
  mentions "<caption>" example = false -> exec caption_regex example = None.
Proof.
  intros Hno. unfold exec, caption_regex. cbn [run].
  apply greedy_none. intros w t o Heq. cbn [run].
  rewrite (mentions_nowhere _ _ Hno w t Heq). reflexivity.
Qed.

(** Without a closing tag the regex does not match. *)
Lemma caption_regex_needs_closing (example : string) :
  mentions "</caption>" example = false -> exec caption_regex example = None.
Proof.
  intros Hno. unfold exec, caption_regex. cbn [run].
  apply greedy_none. intros w t o Heq. cbn [run].
  destruct (strip_ci "<caption>" t) as [s'|] eqn:Hopen; [|reflexivity].
  destruct (strip_ci_suffix _ _ _ Hopen) as [w1 Ht].
  destruct s' as [|c s'']; [reflexivity|]. cbn [any_char].
  apply lazy_none. intros w2 t2 o2 Hs''. cbn [run].
  destruct o2 as [|g o3]; [reflexivity|].
  rewrite (mentions_nowhere _ _ Hno (w +:+ w1 +:+ String c w2) t2); [reflexivity|].
  rewrite Heq, Ht, Hs'', !append_assoc. reflexivity.
Qed.

End NoCaptionProofs.

(** C8, as amended.  Take an example made of white space, a caption tag
    around a text that is not empty and in which no closing caption tag
    starts after the first character, white space, a line break, and code
    that is not empty and does not start with blank lines.
    [formatExample] returns the text inside the tag as [caption] and the
    code as [code].  For an example in which the opening tag [<caption>]
    or the closing tag [</caption>] occurs in no case, it returns the
    empty caption and the example itself as code. *)
Theorem formatExample_splits :
  (forall (lead : string) (c : ascii) (inner gap : string) (nl : ascii) (code : string),
     all_space lead = true ->
     closes_early inner = false ->
     all_space gap = true ->
     Regex.is_newline nl = true ->
     code <> "" ->
     starts_blank code = false ->
     formatExample
       (lead +:+ "<caption>" +:+ String c inner +:+ "</caption>" +:+
        gap +:+ String nl code)
     = {| caption := String c inner; code := code |}) /\
  (forall example : string,
     mentions "<caption>" example && mentions "</caption>" example = false ->
     formatExample example = {| caption := ""; code := example |}).
Proof.
  split.
  - intros lead c inner gap nl code Hlead Hfree Hgap Hnl Hcode Hblank.
    unfold all_space in Hlead, Hgap. unfold formatExample.
    rewrite caption_regex_matches by assumption.
    unfold or_else. cbn [String.eqb].
    destruct code as [|c0 code]; [contradiction | reflexivity].
  - intros example Hno. unfold formatExample.
    apply andb_false_iff in Hno as [Hno|Hno].
    + rewrite caption_regex_needs_opening by assumption. reflexivity.
    + rewrite caption_regex_needs_closing by assumption. reflexivity.
Qed.

(** An example with a caption and indented code, and one without
    caption. *)
Lemma formatExample_splits_witness :
  formatExample
    (" " +:+ "<caption>" +:+ String "U" "sage" +:+ "</caption>" +:+
     " " +:+ String lf "  add(1, 2);")
  = {| caption := "Usage"; code := "  add(1, 2);" |} /\
  formatExample "add(1, 2);" = {| caption := ""; code := "add(1, 2);" |}.
Proof.
  split.
  - apply (proj1 formatExample_splits " " "U"%char "sage" " " lf "  add(1, 2);");
      solve [reflexivity | discriminate].
  - apply (proj2 formatExample_splits "add(1, 2);"). reflexivity.
Defined.

(** C8, the claim as it is written fails twice.  When a blank line follows
    the caption, the code returned is not what follows the line break
    after the tag: the blank line is dropped.  When the caption tag is
    empty, the example is returned whole as code, tag included. *)
Lemma formatExample_drops_blank_line :
  formatExample ("<caption>Usage</caption>" +:+ String lf (String lf "add(1, 2);"))
  = {| caption := "Usage"; code := "add(1, 2);" |} /\
  formatExample ("<caption></caption>" +:+ String lf "add(1, 2);")
  = {| caption := ""; code := "<caption></caption>" +:+ String lf "add(1, 2);" |}.
Proof. split; reflexivity. Qed.

(** ** Module symbols: what is left alone *)

Lemma eff_bind_eq {S A B} (m : eff S A) (k : A -> eff S B) (s : S) :
  (m ≫= k) s =
  match m s with
  | (Ok a, s') => k a s'
  | (Throw e, s') => (Throw e, s')
  end.
Proof. reflexivity. Qed.

Lemma read_eq l (σ : store) :
  read l σ = match σ !! l with
             | Some d => (Ok d, σ)
             | None => (Throw (HostError "no object at this location"), σ)
             end.
Proof. reflexivity. Qed.

Lemma untouched_refl d : untouched_but_modules d d.
Proof. left; reflexivity. Qed.

Lemma untouched_trans d1 d2 d3 :
  untouched_but_modules d1 d2 -> untouched_but_modules d2 d3 ->
  untouched_but_modules d1 d3.
Proof.
  intros [->|[c1 ->]] [->|[c2 ->]].
  - left; reflexivity.
  - right; exists c2; reflexivity.
  - right; exists c1; reflexivity.
  - right; exists c2; destruct d1; reflexivity.
Qed.

Lemma frame_refl M σ : frame M σ σ.
Proof. intros l d Hl. exists d. auto using untouched_refl. Qed.

Lemma frame_trans M σ1 σ2 σ3 : frame M σ1 σ2 -> frame M σ2 σ3 -> frame M σ1 σ3.
Proof.
  intros H12 H23 l d Hl.
  destruct (H12 l d Hl) as (d2 & Hl2 & Hu2 & He2).
  destruct (H23 l d2 Hl2) as (d3 & Hl3 & Hu3 & He3).
  exists d3. split; [exact Hl3|]. split; [eapply untouched_trans; eassumption|].
  intros Hnot. rewrite (He3 Hnot). apply (He2 Hnot).
Qed.

(** New objects at the end leave the others as they are. *)
Lemma frame_app M σ new : frame M σ (σ ++ new).
Proof.
  intros l d Hl. exists d. split; [|auto using untouched_refl].
  apply lookup_app_l_Some, Hl.
Qed.

(** Setting [modules] of the object at [m] touches that field, of that
    object. *)
Lemma frame_alter M m copies σ : m ∈ M -> frame M σ (alter (set_modules copies) m σ).
Proof.
  intros Hm l d Hl. destruct (decide (l = m)) as [->|Hne].
  - exists (set_modules copies d). rewrite list_lookup_alter_eq, Hl.
    split; [reflexivity|]. split; [right; eauto | contradiction].
  - exists d. rewrite list_lookup_alter_ne by congruence.
    auto using untouched_refl.
Qed.

Lemma build_symbols_state doclets symbols σ :
  snd (build_symbols doclets symbols σ) = σ.
Proof.
  revert symbols. induction doclets as [|l rest IH]; intros symbols; [reflexivity|].
  cbn [build_symbols]. rewrite eff_bind_eq, read_eq.
  destruct (σ !! l) as [d|]; [|reflexivity].
  destruct (inherited (longname d)); [reflexivity | apply IH].
Qed.

Lemma filter_shown_state symbols σ : snd (filter_shown symbols σ) = σ.
Proof.
  induction symbols as [|l rest IH]; [reflexivity|].
  cbn [filter_shown]. rewrite eff_bind_eq, read_eq.
  destruct (σ !! l) as [d|]; [|reflexivity].
  rewrite eff_bind_eq. destruct (filter_shown rest σ) as [[kept|e] σ'];
    cbn [snd] in IH; subst σ'; reflexivity.
Qed.

Lemma copy_symbols_state symbols σ :
  exists new, snd (copy_symbols symbols σ) = σ ++ new.
Proof.
  revert σ. induction symbols as [|l rest IH]; intros σ.
  - exists []. rewrite app_nil_r. reflexivity.
  - cbn [copy_symbols]. rewrite eff_bind_eq, read_eq.
    destruct (σ !! l) as [d|]; [|exists []; rewrite app_nil_r; reflexivity].
    rewrite eff_bind_eq. unfold alloc at 1. rewrite eff_bind_eq.
    destruct (IH (σ ++ [copy_symbol d])) as [new Hnew].
    destruct (copy_symbols rest (σ ++ [copy_symbol d])) as [[copies|e] σ'];
      cbn [snd] in Hnew; subst σ'; exists ([copy_symbol d] ++ new);
      rewrite app_assoc; reflexivity.
Qed.

Lemma attach_symbols_frame M symbols m σ :
  m ∈ M -> frame M σ (snd (attach_symbols symbols m σ)).
Proof.
  intros Hm. unfold attach_symbols. rewrite eff_bind_eq, read_eq.
  destruct (σ !! m) as [module|]; [|apply frame_refl].
  destruct (inherited (longname module)); [apply frame_refl|].
  destruct (symbols !! longname module) as [found|]; [|apply frame_refl].
  rewrite eff_bind_eq.
  pose proof (filter_shown_state found σ) as Hf.
  destruct (filter_shown found σ) as [[kept|e] σ1]; cbn [snd] in Hf; subst σ1;
    [|apply frame_refl].
  rewrite eff_bind_eq.
  destruct (copy_symbols_state kept σ) as [new Hc].
  destruct (copy_symbols kept σ) as [[copies|e] σ2]; cbn [snd] in Hc; subst σ2;
    [|apply frame_app].
  eapply frame_trans; [apply frame_app | apply frame_alter, Hm].
Qed.

Lemma attach_each_frame M symbols modules σ :
  modules ⊆ M -> frame M σ (snd (for_each (attach_symbols symbols) modules σ)).
Proof.
  revert σ. induction modules as [|m rest IH]; intros σ Hsub; [apply frame_refl|].
  cbn [for_each]. rewrite eff_bind_eq.
  assert (Hm : m ∈ M) by (apply Hsub; left).
  pose proof (attach_symbols_frame M symbols m σ Hm) as Hstep.
  destruct (attach_symbols symbols m σ) as [[[]|e] σ1]; cbn [snd] in Hstep;
    [|exact Hstep].
  eapply frame_trans; [exact Hstep|]. apply IH.
  intros x Hx. apply Hsub. right. exact Hx.
Qed.

(** C4, as amended.  Whatever the arrays, and whether the call returns or
    throws, every doclet of the collection is still there after
    [attachModuleSymbols], with its name and every other field but
    [modules] as before; a doclet that is not in the array [modules] is
    the same altogether.  The symbols attached are new objects. *)
Theorem attachModuleSymbols_frame (doclets modules : list loc) (σ : store) l d :
  σ !! l = Some d ->
  exists d',
    snd (attachModuleSymbols doclets modules σ) !! l = Some d' /\
    name d' = name d /\
    untouched_but_modules d d' /\
    (l ∉ modules -> d' = d).
Proof.
  intros Hl.
  assert (Hframe : frame modules σ (snd (attachModuleSymbols doclets modules σ))).
  { unfold attachModuleSymbols. rewrite eff_bind_eq.
    pose proof (build_symbols_state doclets ∅ σ) as Hb.
    destruct (build_symbols doclets ∅ σ) as [[symbols|e] σ1]; cbn [snd] in Hb;
      subst σ1; [|apply frame_refl].
    apply attach_each_frame. reflexivity. }
  destruct (Hframe l d Hl) as (d' & Hl' & Hu & He).
  exists d'. split; [exact Hl'|]. split; [|split; assumption].
  destruct Hu as [->|[copies ->]]; reflexivity.
Qed.

(** On a module and the class it exports, given as symbol and as module:
    the class at location 1 is left alone. *)
Lemma attachModuleSymbols_frame_witness :
  let module : page_doclet := SampleHost.plain "module" "foo" "module:foo" in
  let class : page_doclet := SampleHost.plain "class" "module:foo" "module:foo" in
  exists d',
    snd (attachModuleSymbols [0; 1] [0] [module; class]) !! 1 = Some d' /\
    name d' = name class /\
    untouched_but_modules class d' /\
    (1 ∉ [0] -> d' = class).
Proof.
  intros module class.
  apply (attachModuleSymbols_frame [0; 1] [0] [module; class] 1 class).
  reflexivity.
Defined.

(** C4, the claim as it is written fails: the module doclet, which is in
    the array of doclets and in the array of modules, has no field
    [modules] before the call and has one after it. *)
Lemma attachModuleSymbols_sets_modules :
  let module : page_doclet := SampleHost.plain "module" "foo" "module:foo" in
  let class : page_doclet := SampleHost.plain "class" "module:foo" "module:foo" in
  modules module = None /\
  modules <$> (snd (attachModuleSymbols [0; 1] [0] [module; class]) !! 0)
    = Some (Some [2]).
Proof. split; reflexivity. Qed.

(** ** Module symbols: what is attached *)

Lemma build_symbols_run doclets symbols (σ : store) :
  Forall (plain_symbol σ) doclets ->
  exists symbols',
    build_symbols doclets symbols σ = (Ok symbols', σ) /\
    forall ln,
      symbols' !! ln =
        pushed (symbols !! ln) (filter (fun l => named σ ln l = true) doclets).
Proof.
  intros Hall. revert symbols.
  induction Hall as [|l rest (d & Hl & Hplain) _ IH]; intros symbols.
  - exists symbols. split; reflexivity.
  - cbn [build_symbols]. rewrite eff_bind_eq, read_eq, Hl, Hplain.
    destruct (IH (<[longname d := default [] (symbols !! longname d) ++ [l]]> symbols))
      as (symbols' & Hrun & Hlookup).
    exists symbols'. split; [exact Hrun|].
    intros ln. rewrite Hlookup.
    destruct (String.eqb_spec (longname d) ln) as [<-|Hne].
    + rewrite filter_cons_True by (unfold named; rewrite Hl, String.eqb_refl; reflexivity).
      rewrite lookup_insert_eq. unfold pushed.
      destruct (filter _ rest); cbn; [reflexivity|].
      rewrite <- app_assoc. reflexivity.
    + rewrite filter_cons_False.
      * rewrite lookup_insert_ne by exact Hne. reflexivity.
      * unfold named. rewrite Hl. apply String.eqb_neq in Hne. rewrite Hne. discriminate.
Qed.

Lemma filter_shown_run found (σ : store) :
  Forall (fun l => is_Some (σ !! l)) found ->
  filter_shown found σ = (Ok (filter (fun l => shown σ l = true) found), σ).
Proof.
  induction 1 as [|l rest [d Hl] _ IH]; [reflexivity|].
  cbn [filter_shown]. rewrite eff_bind_eq, read_eq, Hl, eff_bind_eq, IH.
  destruct (shown_symbol d) eqn:Hshown.
  - rewrite filter_cons_True by (unfold shown; rewrite Hl; exact Hshown). reflexivity.
  - rewrite filter_cons_False by (unfold shown; rewrite Hl, Hshown; discriminate).
    reflexivity.
Qed.

Lemma objects_app (σ new : store) ls :
  Forall (fun l => is_Some (σ !! l)) ls -> objects (σ ++ new) ls = objects σ ls.
Proof.
  induction 1 as [|l rest [d Hl] _ IH]; [reflexivity|].
  unfold objects in *. cbn [omap list_omap].
  rewrite (lookup_app_l_Some σ new l d Hl), Hl, IH. reflexivity.
Qed.

Lemma copy_symbols_run kept : forall σ : store,
  Forall (fun l => is_Some (σ !! l)) kept ->
  copy_symbols kept σ =
    (Ok (seq (length σ) (length kept)), σ ++ map copy_symbol (objects σ kept)).
Proof.
  induction kept as [|l rest IH]; intros σ Hall.
  - cbn. rewrite app_nil_r. reflexivity.
  - apply Forall_cons in Hall as [[d Hl] Hrest].
    cbn [copy_symbols]. rewrite eff_bind_eq, read_eq, Hl, eff_bind_eq.
    unfold alloc at 1. rewrite eff_bind_eq.
    rewrite (IH (σ ++ [copy_symbol d])).
    + rewrite objects_app by exact Hrest.
      rewrite length_app. cbn [length]. rewrite Nat.add_1_r.
      unfold objects at 2. cbn [omap list_omap]. rewrite Hl. cbn [map seq].
      rewrite <- app_assoc. reflexivity.
    + eapply Forall_impl; [exact Hrest|].
      intros x [dx Hx]. exists dx. apply lookup_app_l_Some, Hx.
Qed.

Lemma frame_lookup M (σ τ : store) l d :
  frame M σ τ -> σ !! l = Some d ->
  exists d', τ !! l = Some d' /\ longname d' = longname d /\
             shown_symbol d' = shown_symbol d /\ (l ∉ M -> d' = d).
Proof.
  intros Hframe Hl. destruct (Hframe l d Hl) as (d' & Hl' & Hu & He).
  exists d'. split; [exact Hl'|].
  destruct Hu as [->|[copies ->]]; repeat split; assumption.
Qed.

Lemma frame_valid M (σ τ : store) ls :
  frame M σ τ -> Forall (fun l => is_Some (σ !! l)) ls ->
  Forall (fun l => is_Some (τ !! l)) ls.
Proof.
  intros Hframe Hall. eapply Forall_impl; [exact Hall|]. intros l [d Hl].
  destruct (frame_lookup M σ τ l d Hframe Hl) as (d' & Hl' & _). eauto.
Qed.

Lemma frame_shown M (σ τ : store) ls :
  frame M σ τ -> Forall (fun l => is_Some (σ !! l)) ls ->
  filter (fun l => shown τ l = true) ls = filter (fun l => shown σ l = true) ls.
Proof.
  intros Hframe. induction 1 as [|l ls [d Hl] _ IH]; [reflexivity|].
  destruct (frame_lookup M σ τ l d Hframe Hl) as (d' & Hl' & _ & Hshown & _).
  rewrite !filter_cons, IH. apply decide_ext.
  unfold shown. rewrite Hl, Hl', Hshown. reflexivity.
Qed.

Lemma found_valid (σ : store) ln doclets :
  Forall (plain_symbol σ) doclets ->
  Forall (fun l => is_Some (σ !! l)) (found_symbols σ ln doclets).
Proof.
  intros Hall. apply Forall_forall. intros l Hin.
  apply list_elem_of_filter in Hin as [_ Hin].
  rewrite Forall_forall in Hall. destruct (Hall l Hin) as (d & Hd & _). eauto.
Qed.

Lemma shown_valid (σ : store) ln doclets :
  Forall (plain_symbol σ) doclets ->
  Forall (fun l => is_Some (σ !! l)) (shown_symbols σ ln doclets).
Proof.
  intros Hall. apply Forall_forall. intros l Hin.
  apply list_elem_of_filter in Hin as [_ Hin].
  pose proof (found_valid σ ln doclets Hall) as Hvalid.
  rewrite Forall_forall in Hvalid. apply Hvalid, Hin.
Qed.

(** One module of the loop, on a collection that earlier modules of the
    loop have been through. *)
Lemma attach_symbols_step M doclets symbols m (σ τ : store) :
  Forall (plain_symbol σ) doclets ->
  (forall ln, symbols !! ln = pushed None (found_symbols σ ln doclets)) ->
  frame M σ τ ->
  plain_symbol σ m ->
  attach_symbols symbols m τ = (Ok tt, attach_step σ doclets τ m).
Proof.
  intros Hall Hlookup Hframe (module & Hm & Hplain).
  destruct (frame_lookup M σ τ m module Hframe Hm) as (module' & Hm' & Hln & _).
  unfold attach_symbols, attach_step.
  rewrite eff_bind_eq, read_eq, Hm', Hln, Hplain, Hlookup, Hm.
  pose proof (found_valid σ (longname module) doclets Hall) as Hvalid.
  unfold shown_symbols.
  destruct (found_symbols σ (longname module) doclets) as [|l found]; [reflexivity|].
  cbn [pushed]. change (default [] None ++ l :: found) with (l :: found).
  rewrite eff_bind_eq, filter_shown_run by (eapply frame_valid; eassumption).
  rewrite (frame_shown M σ τ _ Hframe Hvalid).
  rewrite eff_bind_eq, copy_symbols_run; [reflexivity|].
  eapply frame_valid; [exact Hframe|].
  apply Forall_forall. intros x Hx. apply list_elem_of_filter in Hx as [_ Hx].
  rewrite Forall_forall in Hvalid. apply Hvalid, Hx.
Qed.

Lemma attach_step_frame M doclets m (σ τ : store) :
  m ∈ M -> frame M τ (attach_step σ doclets τ m).
Proof.
  intros Hm. unfold attach_step.
  destruct (σ !! m) as [module|]; [|apply frame_refl].
  destruct (found_symbols σ (longname module) doclets); [apply frame_refl|].
  cbv zeta. eapply frame_trans; [apply frame_app | apply frame_alter, Hm].
Qed.

Lemma attach_each_run M doclets symbols (σ : store) :
  Forall (plain_symbol σ) doclets ->
  (forall ln, symbols !! ln = pushed None (found_symbols σ ln doclets)) ->
  forall mods τ,
    frame M σ τ -> mods ⊆ M -> Forall (plain_symbol σ) mods ->
    for_each (attach_symbols symbols) mods τ =
      (Ok tt, fold_left (attach_step σ doclets) mods τ).
Proof.
  intros Hall Hlookup mods.
  induction mods as [|m mods IH]; intros τ Hframe Hsub Hmods; [reflexivity|].
  apply Forall_cons in Hmods as [Hm Hmods].
  cbn [for_each fold_left]. rewrite eff_bind_eq.
  rewrite (attach_symbols_step M doclets symbols m σ τ Hall Hlookup Hframe Hm).
  apply IH; [|intros x Hx; apply Hsub; right; exact Hx | exact Hmods].
  eapply frame_trans; [exact Hframe|]. apply attach_step_frame, Hsub. left.
Qed.

(** [attachModuleSymbols] returns when the long names are no properties
    of [Object.prototype], and the collection has then been through the
    modules one by one. *)
Lemma attachModuleSymbols_run doclets mods (σ : store) :
  Forall (plain_symbol σ) doclets ->
  Forall (plain_symbol σ) mods ->
  attachModuleSymbols doclets mods σ =
    (Ok tt, fold_left (attach_step σ doclets) mods σ).
Proof.
  intros Hall Hmods. unfold attachModuleSymbols. rewrite eff_bind_eq.
  destruct (build_symbols_run doclets ∅ σ Hall) as (symbols & -> & Hlookup).
  apply (attach_each_run mods doclets symbols σ Hall); [|apply frame_refl|reflexivity|exact Hmods].
  intros ln. rewrite Hlookup, lookup_empty. reflexivity.
Qed.

Lemma attach_step_length doclets m (σ τ : store) :
  length τ <= length (attach_step σ doclets τ m).
Proof.
  unfold attach_step. destruct (σ !! m) as [module|]; [|lia].
  destruct (found_symbols σ (longname module) doclets); [lia|].
  cbv zeta. rewrite length_alter, length_app. lia.
Qed.

Lemma attach_steps_length doclets mods (σ : store) : forall τ,
  length τ <= length (fold_left (attach_step σ doclets) mods τ).
Proof.
  induction mods as [|m mods IH]; intros τ; [reflexivity|].
  cbn [fold_left]. etransitivity; [|apply IH]. apply attach_step_length.
Qed.

Lemma attach_step_other doclets m l (σ τ : store) :
  l <> m -> l < length τ -> attach_step σ doclets τ m !! l = τ !! l.
Proof.
  intros Hne Hlt. unfold attach_step. destruct (σ !! m) as [module|]; [|reflexivity].
  destruct (found_symbols σ (longname module) doclets); [reflexivity|].
  cbv zeta. rewrite list_lookup_alter_ne by congruence.
  apply lookup_app_l, Hlt.
Qed.

Lemma attach_steps_other doclets mods l (σ : store) : forall τ,
  l ∉ mods -> l < length τ ->
  fold_left (attach_step σ doclets) mods τ !! l = τ !! l.
Proof.
  induction mods as [|m mods IH]; intros τ Hnot Hlt; [reflexivity|].
  apply not_elem_of_cons in Hnot as [Hne Hnot]. cbn [fold_left].
  rewrite IH; [apply attach_step_other; assumption | exact Hnot |].
  pose proof (attach_step_length doclets m σ τ). lia.
Qed.

Lemma attach_steps_none doclets mods m module (σ : store) : forall τ,
  σ !! m = Some module ->
  found_symbols σ (longname module) doclets = [] ->
  m < length τ ->
  fold_left (attach_step σ doclets) mods τ !! m = τ !! m.
Proof.
  intros τ Hm Hnone. revert τ.
  induction mods as [|m' mods IH]; intros τ Hlt; [reflexivity|].
  cbn [fold_left]. rewrite IH.
  - destruct (decide (m' = m)) as [->|Hne].
    + unfold attach_step. rewrite Hm, Hnone. reflexivity.
    + apply attach_step_other; [congruence | exact Hlt].
  - pose proof (attach_step_length doclets m' σ τ). lia.
Qed.

Lemma attach_steps_frame M doclets mods (σ : store) : forall τ,
  mods ⊆ M -> frame M τ (fold_left (attach_step σ doclets) mods τ).
Proof.
  induction mods as [|m mods IH]; intros τ Hsub; [apply frame_refl|].
  cbn [fold_left]. eapply frame_trans; [apply attach_step_frame, Hsub; left|].
  apply IH. intros x Hx. apply Hsub. right. exact Hx.
Qed.

Lemma objects_same (σ τ : store) ls :
  Forall (fun l => τ !! l = σ !! l) ls -> objects τ ls = objects σ ls.
Proof.
  induction 1 as [|l ls Hl _ IH]; [reflexivity|].
  unfold objects in *. cbn [omap list_omap]. rewrite Hl, IH. reflexivity.
Qed.

(** A module among the modules of the loop.  Its own symbols are not
    modules of the loop. *)
Lemma attach_among doclets mods m module (σ : store) :
  Forall (plain_symbol σ) doclets ->
  Forall (plain_symbol σ) mods ->
  m ∈ mods ->
  σ !! m = Some module ->
  (forall l, l ∈ shown_symbols σ (longname module) doclets -> l ∉ mods) ->
  exists σ',
    attachModuleSymbols doclets mods σ = (Ok tt, σ') /\
    match found_symbols σ (longname module) doclets with
    | [] => σ' !! m = Some module
    | _ :: _ =>
        exists base,
          length σ <= base /\
          σ' !! m =
            Some (set_modules
                    (seq base (length (shown_symbols σ (longname module) doclets)))
                    module) /\
          forall j s,
            objects σ (shown_symbols σ (longname module) doclets) !! j = Some s ->
            σ' !! (base + j) = Some (copy_symbol s)
    end.
Proof.
  intros Hall Hmods Hin Hm Hsep.
  rewrite (attachModuleSymbols_run doclets mods σ Hall Hmods).
  eexists. split; [reflexivity|].
  pose proof (lookup_lt_Some _ _ _ Hm) as Hlt.
  destruct (found_symbols σ (longname module) doclets) as [|l0 found] eqn:Hfound.
  { rewrite (attach_steps_none doclets mods m module σ σ Hm Hfound Hlt). exact Hm. }
  apply list_elem_of_split_r in Hin as (pre & post & -> & Hpost).
  rewrite fold_left_app. cbn [fold_left].
  set (τ1 := fold_left (attach_step σ doclets) pre σ).
  assert (Hframe1 : frame (pre ++ m :: post) σ τ1).
  { apply attach_steps_frame. intros x Hx. apply elem_of_app. left. exact Hx. }
  assert (Hlen1 : length σ <= length τ1).
  { apply attach_steps_length. }
  set (kept := shown_symbols σ (longname module) doclets) in *.
  assert (Hobjects : objects τ1 kept = objects σ kept).
  { apply objects_same, Forall_forall. intros l Hl. subst τ1.
    apply attach_steps_other.
    - intros Hpre. apply (Hsep l Hl). apply elem_of_app. left. exact Hpre.
    - pose proof (shown_valid σ (longname module) doclets Hall) as Hvalid.
      rewrite Forall_forall in Hvalid. destruct (Hvalid l Hl) as [d Hd].
      eapply lookup_lt_Some, Hd. }
  destruct (frame_lookup _ σ τ1 m module Hframe1 Hm) as (module1 & Hm1 & _).
  assert (Hmodule1 : set_modules (seq (length τ1) (length kept)) module1
                     = set_modules (seq (length τ1) (length kept)) module).
  { destruct (Hframe1 m module Hm) as (d' & Hd' & [->|[copies ->]] & _);
      rewrite Hm1 in Hd'; injection Hd' as ->; reflexivity. }
  assert (Hstep : attach_step σ doclets τ1 m =
            alter (set_modules (seq (length τ1) (length kept))) m
              (τ1 ++ map copy_symbol (objects σ kept))).
  { unfold attach_step. rewrite Hm, Hfound. cbv zeta. fold kept.
    rewrite Hobjects. reflexivity. }
  rewrite Hstep.
  set (τ2 := alter (set_modules (seq (length τ1) (length kept))) m
               (τ1 ++ map copy_symbol (objects σ kept))).
  assert (Hlen2 : length τ2 = length τ1 + length (objects σ kept)).
  { subst τ2. rewrite length_alter, length_app, length_map. reflexivity. }
  assert (Hbelow : forall x, x ∈ post -> x < length σ).
  { intros x Hx. rewrite Forall_forall in Hmods.
    destruct (Hmods x) as (d & Hd & _); [apply elem_of_app; right; right; exact Hx|].
    eapply lookup_lt_Some, Hd. }
  exists (length τ1). split; [exact Hlen1|]. split.
  - rewrite attach_steps_other by (try exact Hpost; lia).
    subst τ2. rewrite list_lookup_alter_eq, (lookup_app_l_Some _ _ _ _ Hm1). cbn.
    rewrite Hmodule1. reflexivity.
  - intros j s Hj. pose proof (lookup_lt_Some _ _ _ Hj) as Hjlt.
    rewrite attach_steps_other.
    + subst τ2. rewrite list_lookup_alter_ne by lia.
      rewrite lookup_app_r by lia.
      replace (length τ1 + j - length τ1) with j by lia.
      rewrite lookup_map, Hj. reflexivity.
    + intros Hx. apply Hbelow in Hx. lia.
    + lia.
Qed.

Lemma shown_symbols_filter (σ : store) ln doclets :
  shown_symbols σ ln doclets =
    filter (fun l => shown σ l = true /\ named σ ln l = true) doclets.
Proof. unfold shown_symbols, found_symbols. apply list_filter_filter. Qed.

(** C7, as amended.  Take a collection in which no doclet has symbols
    attached yet, symbols and modules whose long names are no properties
    of [Object.prototype], and among the modules, however many they are, a
    module doclet with the long name [module:foo].  Let a class doclet
    that is not one of the modules have the same long name and the name
    [module:foo], and let it be the only symbol of that long name that is
    shown (symbols without a description are filtered out unless their
    kind is [class]).  [attachModuleSymbols] returns, the list [modules]
    of the module holds exactly one symbol, a new object, and that object
    is the class with its name rewritten to [(require("foo"))]. *)
Theorem module_class_attached (σ : store) doclets mods m c module class :
  Forall (fun d => modules d = None) σ ->
  Forall (plain_symbol σ) doclets ->
  Forall (plain_symbol σ) mods ->
  m ∈ mods ->
  c ∉ mods ->
  σ !! m = Some module ->
  σ !! c = Some class ->
  longname module = "module:foo" ->
  longname class = "module:foo" ->
  kind class = "class" ->
  name class = "module:foo" ->
  filter (fun l => shown σ l = true /\ named σ "module:foo" l = true) doclets = [c] ->
  exists σ' l copy,
    attachModuleSymbols doclets mods σ = (Ok tt, σ') /\
    modules <$> σ' !! m = Some (Some [l]) /\
    length σ <= l /\
    σ' !! l = Some copy /\
    copy = set_name ("(require(" +:+ dq +:+ "foo" +:+ dq +:+ "))") class /\
    includes ("require(" +:+ dq +:+ "foo" +:+ dq +:+ ")") (name copy) = true.
Proof.
  intros _ Hall Hmods Hm Hc Hmodule Hclass Hlm Hlc Hkind Hname Honly.
  rewrite <- shown_symbols_filter in Honly.
  destruct (attach_among doclets mods m module σ Hall Hmods Hm Hmodule)
    as (σ' & Hrun & Hafter).
  { rewrite Hlm, Honly. intros l Hl. apply list_elem_of_singleton in Hl. subst l.
    exact Hc. }
  rewrite Hlm, Honly in Hafter.
  destruct (found_symbols σ "module:foo" doclets) as [|l0 found] eqn:Hfound.
  { exfalso. unfold shown_symbols in Honly. rewrite Hfound in Honly. discriminate. }
  destruct Hafter as (base & Hbase & Hattached & Hcopies).
  assert (Hcopy : copy_symbol class
                  = set_name ("(require(" +:+ dq +:+ "foo" +:+ dq +:+ "))") class).
  { unfold copy_symbol. rewrite Hkind, Hname. reflexivity. }
  exists σ', base, (copy_symbol class).
  split; [exact Hrun|]. split; [rewrite Hattached; reflexivity|].
  split; [exact Hbase|]. split; [|split; [exact Hcopy | rewrite Hcopy; reflexivity]].
  rewrite <- (Nat.add_0_r base). apply Hcopies.
  unfold objects. cbn [omap list_omap]. rewrite Hclass. reflexivity.
Qed.

(** A module without description, the class it exports and a second
    module, with a description, that comes first among the modules. *)
Lemma module_class_attached_witness :
  let module : page_doclet := SampleHost.plain "module" "foo" "module:foo" in
  let class : page_doclet :=
    mkDoclet "class" "module:foo" "module:foo" (Some "A class.") None None None None
      None None None None None None None in
  let other : page_doclet :=
    mkDoclet "module" "bar" "module:bar" (Some "Bar.") None None None None
      None None None None None None None in
  exists σ' l copy,
    attachModuleSymbols [0; 1; 2] [2; 0] [module; class; other] = (Ok tt, σ') /\
    modules <$> σ' !! 0 = Some (Some [l]) /\
    3 <= l /\
    σ' !! l = Some copy /\
    copy = set_name ("(require(" +:+ dq +:+ "foo" +:+ dq +:+ "))") class /\
    includes ("require(" +:+ dq +:+ "foo" +:+ dq +:+ ")") (name copy) = true.
Proof.
  intros module class other.
  apply (module_class_attached [module; class; other] [0; 1; 2] [2; 0] 0 1 module class);
    try reflexivity.
  - repeat constructor.
  - repeat constructor;
      [exists module | exists class | exists other]; split; reflexivity.
  - repeat constructor; [exists other | exists module]; split; reflexivity.
  - right. left.
  - intros Hin. apply elem_of_cons in Hin as [Hin|Hin]; [discriminate|].
    apply list_elem_of_singleton in Hin. discriminate.
Defined.

(** C7, the claim as it is written fails twice.  A class with the long
    name [module:foo] and a description, whose name is [Foo], is attached
    under a name that does not hold [require("foo")].  And when the module
    doclet has a description and is in the array of doclets, as it is in
    [publish], its list [modules] holds two symbols: a copy of the module
    itself before the copy of the class. *)
Lemma class_named_otherwise :
  let module : page_doclet := SampleHost.plain "module" "foo" "module:foo" in
  let class : page_doclet :=
    mkDoclet "class" "Foo" "module:foo" (Some "A class.") None None None None
      None None None None None None None in
  let described : page_doclet :=
    mkDoclet "module" "foo" "module:foo" (Some "A module.") None None None None
      None None None None None None None in
  let exported : page_doclet :=
    mkDoclet "class" "module:foo" "module:foo" (Some "A class.") None None None None
      None None None None None None None in
  (attachModuleSymbols [1] [0] [module; class]
     = (Ok tt,
        [set_modules [2] module; class; set_name ("Foo" +:+ dq +:+ "))") class]) /\
   includes ("require(" +:+ dq +:+ "foo" +:+ dq +:+ ")") ("Foo" +:+ dq +:+ "))") = false) /\
  attachModuleSymbols [0; 1] [0] [described; exported]
    = (Ok tt,
       [set_modules [2; 3] described; exported; described;
        set_name ("(require(" +:+ dq +:+ "foo" +:+ dq +:+ "))") exported]).
Proof. repeat split. Qed.

(** ** What enrichment keeps *)

Section EnrichmentProofs.
Context `{Host}.

Lemma hashToLink_link d item hs : see_link item (fst (hashToLink d item hs)).
Proof.
  unfold hashToLink, see_link.
  destruct (is_hash_ref item); cbn [negb]; [|reflexivity].
  destruct (createLink d hs) as [url hs']. cbn [fst]. eauto.
Qed.

Lemma map_hashToLink_links d items hs :
  Forall2 see_link items (fst (map_hashToLink d items hs)).
Proof.
  revert hs. induction items as [|item rest IH]; intros hs; [constructor|].
  cbn [map_hashToLink].
  pose proof (hashToLink_link d item hs) as Hlink.
  destruct (hashToLink d item hs) as [link hs1].
  specialize (IH hs1). destruct (map_hashToLink d rest hs1) as [links hs2].
  constructor; assumption.
Qed.

Lemma files_assign_same key v files : files_lookup key (files_assign key v files) = Some v.
Proof.
  induction files as [|[k w] files IH]; cbn [files_assign files_lookup].
  - rewrite String.eqb_refl. reflexivity.
  - destruct (String.eqb k key) eqn:Hk; cbn [files_lookup]; rewrite Hk;
      [reflexivity | exact IH].
Qed.

Lemma files_assign_keeps key v files p :
  is_Some (files_lookup p files) -> is_Some (files_lookup p (files_assign key v files)).
Proof.
  induction files as [|[k w] files IH]; cbn [files_assign files_lookup].
  - intros [? [=]].
  - destruct (String.eqb k key) eqn:Hk; cbn [files_lookup].
    + destruct (String.eqb k p); eauto.
    + destruct (String.eqb k p); eauto.
Qed.

Lemma shortenPaths_keeps files prefix p :
  is_Some (files_lookup p files) -> is_Some (files_lookup p (shortenPaths files prefix)).
Proof.
  induction files as [|[k w] files IH]; [intros [? [=]]|].
  cbn [shortenPaths map files_lookup].
  destruct (String.eqb k p); eauto.
Qed.

Lemma formatDoclet_prepared (d : host_doclet) hs :
  prepared d (fst (formatDoclet d hs)).
Proof.
  destruct d as [k n ln desc ty ps rs m ex se sg at' i an mo].
  unfold formatDoclet, prepared.
  cbn [kind name longname description type params returns meta examples see
       signature attribs id ancestors modules set_examples].
  destruct se as [items|]; [|repeat split].
  pose proof (map_hashToLink_links
    (mkDoclet k n ln desc ty ps rs m (map formatExample <$> ex) (Some items) sg
       (Some "") i an mo) items hs) as Hlinks.
  destruct (map_hashToLink _ items hs) as [links hs1].
  repeat split. exact Hlinks.
Qed.

Lemma recordSourceFile_lists (d : page_doclet) files paths :
  listed (fst (recordSourceFile d files paths)) d /\
  forall p, is_Some (files_lookup p files) ->
            is_Some (files_lookup p (fst (recordSourceFile d files paths))).
Proof.
  unfold recordSourceFile, listed.
  destruct (getPathFromDoclet d) as [sourcePath|]; cbn [fst].
  - split; [intros p [= <-]; rewrite files_assign_same; eauto|].
    intros p. apply files_assign_keeps.
  - split; [intros p [=] | auto].
Qed.

(** The first pass on one doclet: what it keeps, and the source file is
    listed afterwards, with all that were. *)
Lemma prepareDoclet_prepared (d : host_doclet) st :
  prepared d (fst (prepareDoclet d st)) /\
  listed (p1_sourceFiles (snd (prepareDoclet d st))) (fst (prepareDoclet d st)) /\
  forall p, is_Some (files_lookup p (p1_sourceFiles st)) ->
            is_Some (files_lookup p (p1_sourceFiles (snd (prepareDoclet d st)))).
Proof.
  unfold prepareDoclet.
  pose proof (formatDoclet_prepared d (p1_helper st)) as Hprep.
  destruct (formatDoclet d (p1_helper st)) as [d' hs]. cbn [fst] in Hprep.
  pose proof (recordSourceFile_lists d' (p1_sourceFiles st) (p1_sourceFilePaths st))
    as [Hlisted Hkeeps].
  destruct (recordSourceFile d' (p1_sourceFiles st) (p1_sourceFilePaths st))
    as [files paths].
  cbn [fst snd p1_sourceFiles] in *. auto.
Qed.

End EnrichmentProofs.

Section EnrichmentPasses.
Context `{Host}.

Lemma listed_more (files files' : source_files) (d : page_doclet) :
  (forall p, is_Some (files_lookup p files) -> is_Some (files_lookup p files')) ->
  listed files d -> listed files' d.
Proof. intros Hmore Hl p Hp. apply Hmore, Hl, Hp. Qed.

(** The first loop: what it keeps of every doclet, and every source file
    is listed at the end. *)
Lemma prepareDoclets_prepared (data : list host_doclet) st :
  Forall2 prepared data (fst (prepareDoclets data st)) /\
  Forall (listed (p1_sourceFiles (snd (prepareDoclets data st))))
    (fst (prepareDoclets data st)) /\
  forall p, is_Some (files_lookup p (p1_sourceFiles st)) ->
            is_Some (files_lookup p (p1_sourceFiles (snd (prepareDoclets data st)))).
Proof.
  revert st. induction data as [|d rest IH]; intros st.
  - cbn. auto.
  - cbn [prepareDoclets].
    destruct (prepareDoclet_prepared d st) as (Hprep & Hlisted & Hkeeps).
    destruct (prepareDoclet d st) as [d' st1]. cbn [fst snd] in *.
    destruct (IH st1) as (Hpreps & Hlisteds & Hkeeps').
    destruct (prepareDoclets rest st1) as [ds st2]. cbn [fst snd] in *.
    split; [constructor; assumption|]. split; [|auto].
    constructor; [|exact Hlisteds].
    eapply listed_more; [exact Hkeeps' | exact Hlisted].
Qed.

Lemma shortenSourceFiles_keeps commonPrefix st p :
  is_Some (files_lookup p (p1_sourceFiles st)) ->
  is_Some (files_lookup p (shortenSourceFiles commonPrefix st)).
Proof.
  unfold shortenSourceFiles. destruct (negb _); [apply shortenPaths_keeps | auto].
Qed.

(** The second pass on one doclet whose long name is not [__proto__]
    returns, and keeps what [decorated] says. *)
Lemma setDocletInformation_decorated files coll (d : page_doclet) hs :
  listed files d ->
  longname d <> "__proto__" ->
  exists d' hs',
    setDocletInformation files coll d hs = Ok (d', hs') /\ decorated d d'.
Proof.
  intros Hlisted Hne.
  destruct (setDocletInformation_returns files coll d hs Hlisted Hne)
    as (d0 & hs' & Hrun & i & Hd0).
  exists (addSignatures coll d0), hs'. split; [exact Hrun|].
  destruct Hd0 as [->|[short ->]].
  - destruct d as [k n ln desc ty ps rs m ex se sg at' i' an mo].
    unfold addSignatures, set_id, decorated, same_source.
    cbn -[needsSignature String.eqb].
    destruct (needsSignature _); cbn -[String.eqb];
      destruct (String.eqb k "member"); cbn -[String.eqb];
      destruct (String.eqb k "constant"); cbn -[String.eqb];
      destruct m; repeat split.
  - destruct d as [k n ln desc ty ps rs m ex se sg at' i' an mo].
    unfold addSignatures, set_id, set_shortpath, decorated, same_source.
    destruct m as [mrec|];
    cbn -[needsSignature String.eqb];
    destruct (needsSignature _); cbn -[String.eqb];
      destruct (String.eqb k "member"); cbn -[String.eqb];
      destruct (String.eqb k "constant"); cbn -[String.eqb];
      repeat split.
Qed.

End EnrichmentPasses.

Section EnrichmentClaim.
Context `{Host}.

Lemma setDocletsInformation_decorated files (todo : list page_doclet) :
  forall done hs,
    Forall (listed files) todo ->
    Forall (fun d => longname d <> "__proto__") todo ->
    exists ds hs',
      setDocletsInformation files done todo hs = Ok (done ++ ds, hs') /\
      Forall2 decorated todo ds.
Proof.
  induction todo as [|d rest IH]; intros done hs Hall Hnames.
  - exists [], hs. cbn. rewrite app_nil_r. split; [reflexivity | constructor].
  - apply Forall_cons in Hall as [Hd Hrest].
    apply Forall_cons in Hnames as [Hne Hnames].
    cbn [setDocletsInformation].
    destruct (setDocletInformation_decorated files
                (fun cur => done ++ cur :: rest) d hs Hd Hne) as (d' & hs1 & -> & Hdec).
    cbn.
    destruct (IH (done ++ [d']) hs1 Hrest Hnames) as (ds & hs2 & -> & Hdecs).
    exists (d' :: ds), hs2. rewrite <- app_assoc. split; [reflexivity|].
    constructor; assumption.
Qed.

(** The second loop throws at the first doclet with the long name
    [__proto__]. *)
Lemma setDocletsInformation_proto files (todo : list page_doclet) :
  forall done hs,
    Forall (listed files) todo ->
    Exists (fun d => longname d = "__proto__") todo ->
    exists msg, setDocletsInformation files done todo hs = Throw (TypeError msg).
Proof.
  induction todo as [|d rest IH]; intros done hs Hall Hsome; [inversion Hsome|].
  apply Forall_cons in Hall as [Hd Hrest].
  cbn [setDocletsInformation].
  destruct (String.eqb_spec (longname d) "__proto__") as [Hproto|Hne].
  - destruct (setDocletInformation_proto files
                (fun cur => done ++ cur :: rest) d hs Hd Hproto) as [msg ->].
    exists msg. reflexivity.
  - destruct (setDocletInformation_decorated files
                (fun cur => done ++ cur :: rest) d hs Hd Hne) as (d' & hs1 & -> & _).
    cbn. apply IH; [exact Hrest|].
    apply Exists_cons in Hsome as [Hhere|Hlater]; [contradiction | exact Hlater].
Qed.

Lemma prepared_names (data : list host_doclet) (ds : list page_doclet)
    (P : string -> Prop) :
  Forall2 prepared data ds ->
  (Forall (fun d => P (longname d)) data -> Forall (fun d => P (longname d)) ds) /\
  (Exists (fun d => P (longname d)) data -> Exists (fun d => P (longname d)) ds).
Proof.
  induction 1 as [|d d1 data ds (_ & _ & Hln & _) _ [IHall IHsome]].
  - split; [constructor | intros Hsome; inversion Hsome].
  - split.
    + intros Hall. apply Forall_cons in Hall as [Hd Hall].
      constructor; [rewrite Hln; exact Hd | apply IHall, Hall].
    + intros Hsome. apply Exists_cons in Hsome as [Hd|Hsome].
      * left. rewrite Hln. exact Hd.
      * right. apply IHsome, Hsome.
Qed.

Lemma prepared_decorated (d : host_doclet) (d1 d2 : page_doclet) :
  prepared d d1 -> decorated d1 d2 -> enriched d d2.
Proof.
  unfold prepared, decorated, enriched.
  intros (Hk & Hn & Hln & Hde & Hty & Hps & Hrs & Hm & Hex & Hse)
         (Hk' & Hn' & Hln' & Hde' & Hty' & Hps' & Hrs' & Hm' & Hex' & Hse').
  rewrite Hk', Hn', Hln', Hde', Hty', Hps', Hrs', Hex', Hse'.
  rewrite Hk, Hn, Hln, Hde, Hty, Hps, Hrs, Hex.
  rewrite Hm in Hm'. repeat split; assumption.
Qed.

Lemma Forall2_prepared_decorated (data : list host_doclet) (ds1 ds2 : list page_doclet) :
  Forall2 prepared data ds1 -> Forall2 decorated ds1 ds2 -> Forall2 enriched data ds2.
Proof.
  intros H1. revert ds2. induction H1 as [|d d1 data ds1 Hp _ IH]; intros ds2 H2.
  - inversion H2. constructor.
  - inversion H2 as [|? d2 ? ds2' Hd Hds]; subst.
    constructor; [eapply prepared_decorated; eassumption | apply IH, Hds].
Qed.

(** C5, as amended.  On a collection in which no doclet has the long
    name [__proto__] the two enrichment passes return, with one doclet for
    each doclet of the host, in order.  Between a doclet and its enriched
    doclet the name, the long name, the description, the type, the
    parameters and the return values are the same, and so are the path and
    the file name of the source location (which gains a short path).  The
    kind is the same but [constant], which becomes [member].  The examples
    are replaced by their formatted records, and every see-reference that
    starts with [#] followed by a character that is no line terminator is
    replaced by a link around it; every other see-reference stays.  On a
    collection with a doclet of the long name [__proto__] the passes throw
    a [TypeError]: the registry of links stores nothing under that
    name. *)
Theorem enrich_keeps_host_fields commonPrefix (data : list host_doclet) hs :
  (Forall (fun d => longname d <> "__proto__") data ->
   exists ds files hs',
     enrich commonPrefix data hs = Ok (ds, files, hs') /\
     Forall2 enriched data ds) /\
  (Exists (fun d => longname d = "__proto__") data ->
   exists msg, enrich commonPrefix data hs = Throw (TypeError msg)).
Proof.
  unfold enrich.
  destruct (prepareDoclets_prepared data (mkPass1 hs [] [])) as (Hprep & Hlisted & _).
  destruct (prepareDoclets data (mkPass1 hs [] [])) as [ds1 st]. cbn [fst snd] in *.
  assert (Hlisted' : Forall (listed (shortenSourceFiles commonPrefix st)) ds1).
  { eapply Forall_impl; [exact Hlisted|]. intros d Hd.
    eapply listed_more; [|exact Hd]. intros p. apply shortenSourceFiles_keeps. }
  split.
  - intros Hnames.
    apply (proj1 (prepared_names data ds1 (fun ln => ln <> "__proto__") Hprep))
      in Hnames.
    destruct (setDocletsInformation_decorated (shortenSourceFiles commonPrefix st) ds1
                [] (p1_helper st) Hlisted' Hnames) as (ds2 & hs2 & -> & Hdec).
    cbn. exists ds2, (shortenSourceFiles commonPrefix st), hs2.
    split; [reflexivity|]. eapply Forall2_prepared_decorated; eassumption.
  - intros Hsome.
    apply (proj2 (prepared_names data ds1 (fun ln => ln = "__proto__") Hprep))
      in Hsome.
    destruct (setDocletsInformation_proto (shortenSourceFiles commonPrefix st) ds1
                [] (p1_helper st) Hlisted' Hsome) as [msg ->].
    exists msg. reflexivity.
Qed.

End EnrichmentClaim.

(** A function, and a function documented under the name [__proto__]
    after it. *)
Lemma enrich_keeps_host_fields_witness :
  let d : host_doclet := SampleHost.plain "function" "add" "add" in
  let p : host_doclet := SampleHost.plain "function" "__proto__" "__proto__" in
  (exists ds files hs',
     enrich (H := SampleHost.host) PosixPath.commonPrefix [d] ∅ = Ok (ds, files, hs') /\
     Forall2 enriched [d] ds) /\
  (exists msg,
     enrich (H := SampleHost.host) PosixPath.commonPrefix [d; p] ∅
     = Throw (TypeError msg)).
Proof.
  intros d p. split.
  - apply (proj1 (enrich_keeps_host_fields (H := SampleHost.host)
                    PosixPath.commonPrefix [d] ∅)).
    repeat constructor. discriminate.
  - apply (proj2 (enrich_keeps_host_fields (H := SampleHost.host)
                    PosixPath.commonPrefix [d; p] ∅)).
    right. left. reflexivity.
Defined.

(** C5, the claim as it is written fails: after the two passes a constant
    has the kind [member], its example is a record and its see-reference
    [#add] is a link. *)
Lemma enrich_changes_host_fields :
  let d : host_doclet :=
    mkDoclet "constant" "LIMIT" "LIMIT" None (Some (mkType (Some ["number"]))) None None
      (Some (mkMeta (Some "/src") "limit.js" None)) (Some ["use(LIMIT);"])
      (Some ["#add"]) None None None None None in
  exists d' files hs',
    enrich (H := SampleHost.host) PosixPath.commonPrefix [d] ∅ = Ok ([d'], files, hs') /\
    kind d = "constant" /\ kind d' = "member" /\
    examples d = Some ["use(LIMIT);"] /\
    examples d' = Some [{| caption := ""; code := "use(LIMIT);" |}] /\
    see d = Some ["#add"] /\
    see d' = Some ["<a href=" +:+ dq +:+ "LIMIT.html#add" +:+ dq +:+ ">#add</a>"].
Proof.
  intros d. eexists _, _, _. split; [reflexivity|]. repeat split.
Qed.

(** * Further properties *)

(** ** See-references and ids *)

Lemma includes_cons (x c : ascii) (s : string) :
  includes (String x "") (String c s) = Ascii.eqb x c || includes (String x "") s.
Proof. cbn [includes starts_with]. destruct (Ascii.eqb x c); reflexivity. Qed.

(** A replacement text without dollar sign stands for itself. *)
Lemma expand_replacement_plain (rep m pre post : string) :
  includes "$" rep = false -> expand_replacement rep m pre post = rep.
Proof.
  induction rep as [|c rep IH]; [reflexivity|].
  rewrite includes_cons. intros Hno. apply orb_false_elim in Hno as [Hc Hrep].
  specialize (IH Hrep).
  destruct c as [[] [] [] [] [] [] [] []]; try discriminate Hc;
    cbn [expand_replacement]; rewrite IH; reflexivity.
Qed.

Lemma drop_chars_all (s : string) : drop_chars (String.length s) s = "".
Proof. induction s as [|c s IH]; [reflexivity | exact IH]. Qed.

Section SeeProofs.
Context `{Host}.

(** Without [#] in the link, the reference is put at its end. *)
Lemma replace_fragment_appends (pre url hash : string) :
  includes "$" hash = false ->
  includes "#" url = false ->
  replace_fragment pre url hash = url +:+ hash.
Proof.
  intros Hplain. revert pre. induction url as [|c url IH]; intros pre Hno.
  - cbn [replace_fragment]. apply expand_replacement_plain, Hplain.
  - rewrite includes_cons in Hno. apply orb_false_elim in Hno as [Hc Hurl].
    cbn [replace_fragment]. rewrite Ascii.eqb_sym, Hc. cbn [andb].
    rewrite IH by exact Hurl. reflexivity.
Qed.

(** With a fragment in the link, the reference takes its place. *)
Lemma replace_fragment_replaces (pre base frag hash : string) :
  includes "$" hash = false ->
  includes "#" base = false ->
  frag <> "" ->
  take_line frag = frag ->
  replace_fragment pre (base +:+ "#" +:+ frag) hash = base +:+ hash.
Proof.
  intros Hplain Hbase Hfrag Hline. revert pre Hbase.
  induction base as [|c base IH]; intros pre Hbase.
  - change ("" +:+ "#" +:+ frag) with (String "#" frag).
    destruct frag as [|f frag]; [contradiction|].
    assert (Hf : is_line_terminator f = false).
    { cbn [take_line] in Hline. destruct (is_line_terminator f); [discriminate|].
      reflexivity. }
    cbn [replace_fragment]. cbn [Ascii.eqb Bool.eqb andb is_hash_ref].
    rewrite Hf. cbn [negb]. rewrite Hline.
    rewrite (expand_replacement_plain hash _ _ _ Hplain).
    rewrite (drop_chars_all (String "#" (String f frag))).
    rewrite append_empty. reflexivity.
  - rewrite includes_cons in Hbase. apply orb_false_elim in Hbase as [Hc Hbase].
    rewrite append_cons. cbn [replace_fragment]. rewrite Ascii.eqb_sym, Hc. cbn [andb].
    rewrite IH by exact Hbase. reflexivity.
Qed.

(** X2.  See-references that do not start with [#] followed by a
    character of the same line are kept as they are, in order, and the
    helper is not asked for a link. *)
Theorem plain_see_references_kept (d : page_doclet) items hs :
  Forall (fun item => is_hash_ref item = false) items ->
  map_hashToLink d items hs = (items, hs).
Proof.
  induction 1 as [|item rest Hitem _ IH]; [reflexivity|].
  cbn [map_hashToLink]. unfold hashToLink at 1. rewrite Hitem. cbn [negb].
  rewrite IH. reflexivity.
Qed.

(** X3.  A see-reference that starts with [#] followed by a character
    that is no line terminator, and that holds no dollar sign, becomes a
    link around it.  The address of the link is the link of the doclet
    with the reference at its end when that link holds no [#]; when that
    link is a text without [#] followed by [#] and a fragment that is not
    empty and holds no line terminator, it is that text with the reference
    at its end. *)
Theorem hash_reference_linked (d : page_doclet) hash hs :
  is_hash_ref hash = true ->
  includes "$" hash = false ->
  (includes "#" (fst (createLink d hs)) = false ->
   fst (hashToLink d hash hs) =
     "<a href=" +:+ dq +:+ (fst (createLink d hs) +:+ hash) +:+ dq +:+ ">" +:+
     hash +:+ "</a>") /\
  (forall base frag,
     fst (createLink d hs) = base +:+ "#" +:+ frag ->
     includes "#" base = false ->
     frag <> "" ->
     take_line frag = frag ->
     fst (hashToLink d hash hs) =
       "<a href=" +:+ dq +:+ (base +:+ hash) +:+ dq +:+ ">" +:+ hash +:+ "</a>").
Proof.
  intros Href Hplain. unfold hashToLink. rewrite Href. cbn [negb].
  destruct (createLink d hs) as [url hs']. cbn [fst]. split.
  - intros Hno. rewrite replace_fragment_appends by assumption. reflexivity.
  - intros base frag -> Hbase Hfrag Hline.
    rewrite replace_fragment_replaces by assumption. reflexivity.
Qed.

End SeeProofs.

(** Two references that are no links: a name, and [#] alone. *)
Lemma plain_see_references_kept_witness :
  map_hashToLink (H := SampleHost.host)
    (SampleHost.plain "member" "count" "Counter#count") ["Counter"; "#"] ∅
  = (["Counter"; "#"], ∅).
Proof.
  apply (plain_see_references_kept (H := SampleHost.host)).
  repeat constructor.
Defined.

(** A reference to [#reset] from a doclet whose link is
    [Counter#count.html]. *)
Lemma hash_reference_linked_witness :
  fst (hashToLink (H := SampleHost.host)
         (SampleHost.plain "member" "count" "Counter#count") "#reset" ∅)
  = "<a href=" +:+ dq +:+ "Counter#reset" +:+ dq +:+ ">#reset</a>".
Proof.
  apply (proj2 (hash_reference_linked (H := SampleHost.host)
                  (SampleHost.plain "member" "count" "Counter#count") "#reset" ∅
                  eq_refl eq_refl) "Counter" "count.html");
    solve [reflexivity | discriminate].
Defined.

Lemma after_last_hash_splits (url : string) :
  includes "#" url = true ->
  includes "#" (after_last_hash url) = false /\
  exists pre, url = pre +:+ "#" +:+ after_last_hash url.
Proof.
  induction url as [|c url IH]; [discriminate|].
  rewrite includes_cons. intros Hin. cbn [after_last_hash].
  destruct (includes "#" url) eqn:Hrest.
  - destruct (IH eq_refl) as (Hno & pre & Hpre). split; [exact Hno|].
    exists (String c pre). rewrite append_cons, <- Hpre. reflexivity.
  - rewrite orb_false_r in Hin. rewrite Ascii.eqb_sym, Hin.
    apply Ascii.eqb_eq in Hin. subst c. split; [exact Hrest|].
    exists "". reflexivity.
Qed.

(** X4.  The id of a doclet is read off its registered link: without [#]
    in the link it is the name of the doclet; with [#] it is what follows
    the last [#] of the link, so it holds no [#].  Without a registered
    link the step throws a [TypeError]. *)
Theorem id_from_registered_link `{Host} hs (d : page_doclet) :
  match longnameToUrl hs !! longname d with
  | None => exists msg, setId hs d = Throw (TypeError msg)
  | Some url =>
      exists i,
        setId hs d = Ok (set_id i d) /\
        if includes "#" url
        then includes "#" i = false /\ exists pre, url = pre +:+ "#" +:+ i
        else i = name d
  end.
Proof.
  unfold setId. destruct (longnameToUrl hs !! longname d) as [url|]; [|eauto].
  destruct (includes "#" url) eqn:Hin.
  - exists (after_last_hash url). split; [reflexivity|].
    apply after_last_hash_splits, Hin.
  - exists (name d). split; reflexivity.
Qed.

(** ** Parameters and return values in signatures *)

(** X5.  A parameter counts for the signature exactly when it has a name
    that is not empty and holds no dot; a parameter that does not count
    leaves the list of parameter names as it is without it, wherever it
    stands. *)
Theorem nested_params_left_out :
  (forall p : item,
     is_top_level_param p = false <->
     item_name p = None \/ item_name p = Some "" \/
     exists n, item_name p = Some n /\ includes "." n = true) /\
  (forall (ps : list item) (p : item) (qs : list item),
     is_top_level_param p = false ->
     addParamAttributes (ps ++ p :: qs) = addParamAttributes (ps ++ qs)).
Proof.
  split.
  - intros p. unfold is_top_level_param. destruct (item_name p) as [n|].
    + destruct (String.eqb_spec n "") as [->|Hn]; cbn [negb andb].
      * split; [auto | reflexivity].
      * destruct (includes "." n) eqn:Hdot; cbn [negb].
        -- split; [intros _; right; right; eauto | reflexivity].
        -- split; [discriminate|].
           intros [[=]|[[= Hempty]|(m & [= <-] & Hm)]]; [contradiction|].
           rewrite Hm in Hdot. discriminate.
    + split; [auto | reflexivity].
  - intros ps p qs Hp. unfold addParamAttributes.
    rewrite !filter_app, filter_cons_False by (rewrite Hp; discriminate).
    reflexivity.
Qed.

(** A parameter [options] with its property [options.depth]. *)
Lemma nested_params_left_out_witness :
  let named n := mkItem (Some n) JUndefined JUndefined JUndefined None in
  addParamAttributes [named "options"; named "options.depth"; named "done"]
  = addParamAttributes [named "options"; named "done"].
Proof.
  intros named.
  apply (proj2 nested_params_left_out [named "options"] (named "options.depth")
           [named "done"]).
  reflexivity.
Defined.

Lemma indexOf_None (x : string) (l : list string) : indexOf x l = None <-> x ∉ l.
Proof.
  induction l as [|y l IH]; cbn [indexOf].
  - split; [intros _ Hin; inversion Hin | reflexivity].
  - destruct (String.eqb_spec y x) as [->|Hne].
    + split; [discriminate | intros Hnot; exfalso; apply Hnot; left].
    + destruct (indexOf x l) eqn:Hi; cbn.
      * split; [discriminate|]. intros Hnot. exfalso.
        destruct IH as [_ IH]. assert (Hx : x ∉ l) by (intros Hin; apply Hnot; right; exact Hin).
        specialize (IH Hx). discriminate.
      * split; [|reflexivity]. intros _ Hin.
        apply elem_of_cons in Hin as [->|Hin]; [contradiction|].
        destruct IH as [IH _]. apply (IH eq_refl), Hin.
Qed.

Lemma push_new_all (attribs new : list string) :
  NoDup attribs ->
  NoDup (fold_left push_new new attribs) /\
  forall a, a ∈ fold_left push_new new attribs <-> a ∈ attribs \/ a ∈ new.
Proof.
  revert attribs. induction new as [|x new IH]; intros attribs Hnd.
  - cbn. split; [exact Hnd|]. intros a. split; [auto|].
    intros [Ha|Ha]; [exact Ha | inversion Ha].
  - cbn [fold_left]. unfold push_new at 2 4.
    destruct (indexOf x attribs) eqn:Hi.
    + destruct (IH attribs Hnd) as [Hnd' Hin]. split; [exact Hnd'|].
      intros a. rewrite Hin. split.
      * intros [Ha|Ha]; [left; exact Ha | right; right; exact Ha].
      * intros [Ha|Ha]; [left; exact Ha|].
        apply elem_of_cons in Ha as [->|Ha]; [|right; exact Ha].
        left. destruct (decide (x ∈ attribs)) as [Hx|Hx]; [exact Hx|].
        apply indexOf_None in Hx. rewrite Hx in Hi. discriminate.
    + apply indexOf_None in Hi.
      assert (Hnd1 : NoDup (attribs ++ [x])).
      { apply NoDup_app. split; [exact Hnd|]. split.
        - intros y Hy Hyx. apply list_elem_of_singleton in Hyx. subst y. contradiction.
        - apply NoDup_singleton. }
      destruct (IH (attribs ++ [x]) Hnd1) as [Hnd' Hin]. split; [exact Hnd'|].
      intros a. rewrite Hin, elem_of_app, list_elem_of_singleton, elem_of_cons. tauto.
Qed.

Section ReturnProofs.
Context `{Host}.

(** X6.  The attributes gathered from the return values of a function
    hold no attribute twice, and they are the attributes of its return
    values: none is lost and none is made up. *)
Theorem return_attribs_once (rs : list item) :
  NoDup (return_attribs rs) /\
  forall a, a ∈ return_attribs rs <-> exists r, r ∈ rs /\ a ∈ getAttribs_item r.
Proof.
  unfold return_attribs.
  assert (Hgen : forall acc, NoDup acc ->
    NoDup (fold_left (fun attribs it => fold_left push_new (getAttribs_item it) attribs)
             rs acc) /\
    forall a,
      a ∈ fold_left (fun attribs it => fold_left push_new (getAttribs_item it) attribs)
            rs acc
      <-> a ∈ acc \/ exists r, r ∈ rs /\ a ∈ getAttribs_item r).
  { induction rs as [|r rs IH]; intros acc Hnd.
    - cbn. split; [exact Hnd|]. intros a. split; [auto|].
      intros [Ha|(r & Hr & _)]; [exact Ha | inversion Hr].
    - cbn [fold_left].
      destruct (push_new_all acc (getAttribs_item r) Hnd) as [Hnd1 Hin1].
      destruct (IH _ Hnd1) as [Hnd2 Hin2]. split; [exact Hnd2|].
      intros a. rewrite Hin2, Hin1. split.
      + intros [[Ha|Ha]|(r' & Hr' & Ha)]; [left; exact Ha | right | right].
        * exists r. split; [left | exact Ha].
        * exists r'. split; [right; exact Hr' | exact Ha].
      + intros [Ha|(r' & Hr' & Ha)]; [left; left; exact Ha|].
        apply elem_of_cons in Hr' as [->|Hr'];
          [left; right; exact Ha | right; exists r'; split; assumption]. }
  destruct (Hgen [] (NoDup_nil_2)) as [Hnd Hin]. split; [exact Hnd|].
  intros a. rewrite Hin. split; [|auto].
  intros [Ha|Hex]; [inversion Ha | exact Hex].
Qed.

End ReturnProofs.

Section ReturnTypeProofs.
Context `{Host}.

Lemma addNonParamAttributes_flat (items : list item) (acc : list string) :
  fold_left (fun types it => types ++ buildItemTypeStrings it) items acc
  = acc ++ flat_map buildItemTypeStrings items.
Proof.
  revert acc. induction items as [|it items IH]; intros acc.
  - cbn. rewrite app_nil_r. reflexivity.
  - cbn [fold_left flat_map]. rewrite IH, <- app_assoc. reflexivity.
Qed.

(** X7.  A function none of whose return values declares a type name
    shows no arrow: the signature that [addSignatureReturns] sets is the
    signature span around what was there, followed by an empty
    type-signature span.  That is so for a function without return values
    too. *)
Theorem no_arrow_without_return_types {E} (f : doclet E) :
  (forall rs r, returns f = Some rs -> r ∈ rs ->
                default [] (item_type r ≫= names) = []) ->
  signature (addSignatureReturns f) =
    Some (signature_span_open +:+ or_empty (signature f) +:+ "</span>" +:+
          type_signature_span_open +:+ "</span>").
Proof.
  intros Huntyped. unfold addSignatureReturns.
  assert (Hnone : match returns f with
                  | Some rs => addNonParamAttributes rs
                  | None => []
                  end = []).
  { destruct (returns f) as [rs|] eqn:Hrs; [|reflexivity].
    unfold addNonParamAttributes. rewrite addNonParamAttributes_flat. cbn [app].
    assert (Hall : forall r, r ∈ rs -> default [] (item_type r ≫= names) = [])
      by (intros r Hr; exact (Huntyped rs r eq_refl Hr)).
    clear Huntyped Hrs.
    induction rs as [|r rs IH]; [reflexivity|].
    cbn [flat_map]. rewrite IH.
    - rewrite app_nil_r. specialize (Hall r ltac:(left)).
      unfold buildItemTypeStrings, buildItemTypeStrings_names.
      destruct (item_type r) as [t|]; [|reflexivity].
      cbn in Hall. destruct (names t) as [ns|]; [|reflexivity].
      cbn in Hall. subst ns. reflexivity.
    - intros r' Hr'. apply Hall. right; exact Hr'. }
  rewrite Hnone. destruct f; reflexivity.
Qed.

(** X8.  A doclet of kind [member] or [constant] gets its type signature
    once: the second pass appends to its signature one type-signature
    span, which holds a colon and the links of the declared type names
    joined by bars, or nothing without type names; and it leaves the
    doclet with the kind [member]. *)
Theorem member_type_signature coll (d : page_doclet) :
  kind d = "member" \/ kind d = "constant" ->
  kind (addSignatures coll d) = "member" /\
  signature (addSignatures coll d) =
    Some (or_empty (signature d) +:+ type_signature_span_open +:+
          match buildItemTypeStrings_names (type d) with
          | [] => ""
          | types => " :" +:+ join "|" types
          end +:+ "</span>").
Proof.
  intros Hkind.
  assert (Hneeds : needsSignature d = false).
  { destruct (needsSignature d) eqn:Hn; [|reflexivity].
    apply needs_excludes_member in Hn as [Hm Hc]. destruct Hkind; contradiction. }
  destruct d as [k n ln desc ty ps rs m ex se sg at' i an mo].
  unfold addSignatures. rewrite Hneeds. cbn -[String.eqb] in *.
  destruct Hkind as [->| ->]; cbn.
  - destruct ty as [t|]; [|split; reflexivity].
    cbn. destruct (names t) as [[|n0 ns]|]; split; reflexivity.
  - destruct ty as [t|]; [|split; reflexivity].
    cbn. destruct (names t) as [[|n0 ns]|]; split; reflexivity.
Qed.

End ReturnTypeProofs.

(** A function whose return value is described without a type. *)
Lemma no_arrow_without_return_types_witness :
  let f : page_doclet :=
    mkDoclet "function" "stop" "stop" None None None
      (Some [mkItem None JUndefined JUndefined JUndefined None]) None None None
      (Some "stop()") None None None None in
  signature (addSignatureReturns (H := SampleHost.host) f) =
    Some (signature_span_open +:+ "stop()" +:+ "</span>" +:+
          type_signature_span_open +:+ "</span>").
Proof.
  intros f. apply (no_arrow_without_return_types (H := SampleHost.host) f).
  intros rs r [= <-] Hr. apply list_elem_of_singleton in Hr. subst r. reflexivity.
Defined.

(** A constant of type [number]. *)
Lemma member_type_signature_witness :
  let d : page_doclet :=
    mkDoclet "constant" "LIMIT" "LIMIT" None (Some (mkType (Some ["number"]))) None None
      None None None None None None None None in
  kind (addSignatures (H := SampleHost.host) (fun cur => [cur]) d) = "member" /\
  signature (addSignatures (H := SampleHost.host) (fun cur => [cur]) d) =
    Some (type_signature_span_open +:+ " :number" +:+ "</span>").
Proof.
  intros d.
  apply (member_type_signature (H := SampleHost.host) (fun cur => [cur]) d).
  right. reflexivity.
Defined.

(** ** The source files of a run *)

Lemma files_assign_other key v files p :
  key <> p -> files_lookup p (files_assign key v files) = files_lookup p files.
Proof.
  intros Hne. induction files as [|[k w] files IH]; cbn [files_assign files_lookup].
  - apply String.eqb_neq in Hne. rewrite Hne. reflexivity.
  - destruct (String.eqb_spec k key) as [->|Hk]; cbn [files_lookup].
    + apply String.eqb_neq in Hne. rewrite Hne. reflexivity.
    + destruct (String.eqb k p); [reflexivity | exact IH].
Qed.

Section SourceFilesProofs.
Context `{Host}.

Lemma formatDoclet_meta (d : host_doclet) hs :
  meta (fst (formatDoclet d hs)) = meta d /\
  attribs (fst (formatDoclet d hs)) = Some "".
Proof.
  unfold formatDoclet.
  destruct d as [k n ln desc ty ps rs m ex se sg at' i an mo].
  cbn [kind name longname description type params returns meta examples see
       signature attribs id ancestors modules set_examples].
  destruct se as [items|]; [|split; reflexivity].
  destruct (map_hashToLink _ items hs) as [links hs1]. split; reflexivity.
Qed.

Lemma formatDoclet_path (d : host_doclet) hs :
  getPathFromDoclet (fst (formatDoclet d hs)) = getPathFromDoclet d.
Proof.
  unfold getPathFromDoclet. destruct (formatDoclet_meta d hs) as [-> _]. reflexivity.
Qed.

(** One doclet of the first pass: its path is listed once, with the
    entry the loop writes, and what was listed stays so. *)
Lemma prepareDoclet_paths (d : host_doclet) st :
  NoDup (p1_sourceFilePaths st) ->
  (forall p, p ∈ p1_sourceFilePaths st ->
             files_lookup p (p1_sourceFiles st) = Some (mkSourceFile p None)) ->
  NoDup (p1_sourceFilePaths (snd (prepareDoclet d st))) /\
  (forall p, p ∈ p1_sourceFilePaths (snd (prepareDoclet d st)) <->
             p ∈ p1_sourceFilePaths st \/ getPathFromDoclet d = Some p) /\
  (forall p, p ∈ p1_sourceFilePaths (snd (prepareDoclet d st)) ->
             files_lookup p (p1_sourceFiles (snd (prepareDoclet d st)))
             = Some (mkSourceFile p None)).
Proof.
  intros Hnd Hfiles. unfold prepareDoclet.
  pose proof (formatDoclet_path d (p1_helper st)) as Hpath.
  destruct (formatDoclet d (p1_helper st)) as [d' hs]. cbn [fst] in Hpath.
  unfold recordSourceFile. rewrite Hpath.
  destruct (getPathFromDoclet d) as [sourcePath|];
    cbn [snd p1_sourceFilePaths p1_sourceFiles].
  - assert (Hassign : forall p,
              p ∈ p1_sourceFilePaths st \/ sourcePath = p ->
              files_lookup p (files_assign sourcePath (mkSourceFile sourcePath None)
                                (p1_sourceFiles st))
              = Some (mkSourceFile p None)).
    { intros p Hp. destruct (String.eqb_spec sourcePath p) as [<-|Hne].
      - apply files_assign_same.
      - rewrite files_assign_other by exact Hne.
        destruct Hp as [Hp|Hp]; [apply Hfiles, Hp | contradiction]. }
    destruct (indexOf sourcePath (p1_sourceFilePaths st)) as [n|] eqn:Hidx.
    + assert (Hin : sourcePath ∈ p1_sourceFilePaths st).
      { destruct (decide (sourcePath ∈ p1_sourceFilePaths st)) as [Hin|Hout];
          [exact Hin|]. apply indexOf_None in Hout. congruence. }
      split; [exact Hnd|]. split.
      * intros p. split; [auto|]. intros [Hp|[= <-]]; assumption.
      * intros p Hp. apply Hassign. left. exact Hp.
    + apply indexOf_None in Hidx. split.
      * apply NoDup_app. split; [exact Hnd|]. split; [|apply NoDup_singleton].
        intros x Hx Hx'. apply list_elem_of_singleton in Hx'. subst x. contradiction.
      * split.
        -- intros p. rewrite elem_of_app, list_elem_of_singleton.
           split; (intros [Hp|Hp]; [left; exact Hp | right; congruence]).
        -- intros p Hp. apply Hassign.
           apply elem_of_app in Hp as [Hp|Hp]; [left; exact Hp|].
           apply list_elem_of_singleton in Hp. right. congruence.
  - split; [exact Hnd|]. split; [|exact Hfiles].
    intros p. split; [auto|]. intros [Hp|Hp]; [exact Hp | discriminate].
Qed.

Lemma prepareDoclets_paths (data : list host_doclet) : forall st,
  NoDup (p1_sourceFilePaths st) ->
  (forall p, p ∈ p1_sourceFilePaths st ->
             files_lookup p (p1_sourceFiles st) = Some (mkSourceFile p None)) ->
  NoDup (p1_sourceFilePaths (snd (prepareDoclets data st))) /\
  (forall p, p ∈ p1_sourceFilePaths (snd (prepareDoclets data st)) <->
             p ∈ p1_sourceFilePaths st \/
             exists d, d ∈ data /\ getPathFromDoclet d = Some p) /\
  (forall p, p ∈ p1_sourceFilePaths (snd (prepareDoclets data st)) ->
             files_lookup p (p1_sourceFiles (snd (prepareDoclets data st)))
             = Some (mkSourceFile p None)).
Proof.
  induction data as [|d rest IH]; intros st Hnd Hfiles.
  - cbn. split; [exact Hnd|]. split; [|exact Hfiles].
    intros p. split; [auto|]. intros [Hp|(d & Hd & _)]; [exact Hp | inversion Hd].
  - cbn [prepareDoclets].
    destruct (prepareDoclet_paths d st Hnd Hfiles) as (Hnd1 & Hin1 & Hfiles1).
    destruct (prepareDoclet d st) as [d' st1]. cbn [snd] in *.
    destruct (IH st1 Hnd1 Hfiles1) as (Hnd2 & Hin2 & Hfiles2).
    destruct (prepareDoclets rest st1) as [ds st2]. cbn [snd] in *.
    split; [exact Hnd2|]. split; [|exact Hfiles2].
    intros p. rewrite Hin2, Hin1. split.
    + intros [[Hp|Hp]|(d0 & Hd0 & Hp)]; [left; exact Hp | right | right].
      * exists d. split; [left | exact Hp].
      * exists d0. split; [right; exact Hd0 | exact Hp].
    + intros [Hp|(d0 & Hd0 & Hp)]; [left; left; exact Hp|].
      apply elem_of_cons in Hd0 as [->|Hd0]; [left; right; exact Hp|].
      right. exists d0. split; assumption.
Qed.

(** X9.  The first loop lists the source path of every doclet that has a
    source location, once each, and no other path; and it leaves for each
    listed path an entry of [sourceFiles] with that path as [resolved] and
    no shortened path yet. *)
Theorem source_paths_recorded (data : list host_doclet) hs :
  NoDup (first_pass_paths data hs) /\
  (forall p, p ∈ first_pass_paths data hs <->
             exists d, d ∈ data /\ getPathFromDoclet d = Some p) /\
  (forall p, p ∈ first_pass_paths data hs ->
             files_lookup p (first_pass_files data hs) = Some (mkSourceFile p None)).
Proof.
  unfold first_pass_paths, first_pass_files.
  destruct (prepareDoclets_paths data (mkPass1 hs [] [])) as (Hnd & Hin & Hfiles).
  - apply NoDup_nil_2.
  - intros p Hp. inversion Hp.
  - split; [exact Hnd|]. split; [|exact Hfiles].
    intros p. rewrite Hin. split; [|auto].
    intros [Hp|Hex]; [inversion Hp | exact Hex].
Qed.

End SourceFilesProofs.

(** Two doclets of the file [/src/limit.js] and one without source
    location: the one path is listed once, with its entry. *)
Lemma source_paths_recorded_witness :
  let d : host_doclet :=
    mkDoclet "constant" "LIMIT" "LIMIT" None None None None
      (Some (mkMeta (Some "/src") "limit.js" None)) None None None None None None None in
  let data := [d; set_name "STEP" d; SampleHost.plain "package" "pkg" "package:pkg"] in
  first_pass_paths (H := SampleHost.host) data ∅ = ["/src/limit.js"] /\
  files_lookup "/src/limit.js" (first_pass_files (H := SampleHost.host) data ∅)
    = Some (mkSourceFile "/src/limit.js" None).
Proof.
  intros d data. split; [reflexivity|].
  destruct (source_paths_recorded (H := SampleHost.host) data ∅) as (_ & _ & Hentry).
  apply Hentry. left.
Defined.

(** ** Both passes together *)

Section PipelineProofs.
Context `{Host}.

Lemma shortenPaths_lookup files prefix p :
  files_lookup p (shortenPaths files prefix) =
    (fun f => mkSourceFile (resolved f) (Some (short_path prefix (resolved f))))
      <$> files_lookup p files.
Proof.
  induction files as [|[k w] files IH]; [reflexivity|].
  cbn [shortenPaths map files_lookup].
  destruct (String.eqb k p); [reflexivity | exact IH].
Qed.

Lemma prepareDoclets_formatted (data : list host_doclet) : forall st,
  Forall2 (fun d d1 => getPathFromDoclet d1 = getPathFromDoclet d /\
                       attribs d1 = Some "")
    data (fst (prepareDoclets data st)).
Proof.
  induction data as [|d rest IH]; intros st; [constructor|].
  cbn [prepareDoclets]. unfold prepareDoclet.
  pose proof (formatDoclet_path d (p1_helper st)) as Hpath.
  pose proof (formatDoclet_meta d (p1_helper st)) as [_ Hattribs].
  destruct (formatDoclet d (p1_helper st)) as [d' hs]. cbn [fst] in *.
  destruct (recordSourceFile d' (p1_sourceFiles st) (p1_sourceFilePaths st))
    as [files paths].
  specialize (IH (mkPass1 hs files paths)).
  destruct (prepareDoclets rest (mkPass1 hs files paths)) as [ds st2]. cbn [fst] in *.
  constructor; [split; assumption | exact IH].
Qed.

Lemma setDocletInformation_second_pass files coll (d d' : page_doclet) hs hs' :
  setDocletInformation files coll d hs = Ok (d', hs') -> second_pass files d d'.
Proof.
  unfold setDocletInformation, second_pass.
  destruct (createLink d hs) as [link hs1] eqn:Hlink.
  destruct (setShortpath files d) as [d0|e] eqn:Hshort; [|discriminate]. cbn.
  assert (Hln : longname d0 = longname d).
  { apply setShortpath_fields in Hshort as [->|[short ->]]; [reflexivity|].
    unfold set_shortpath. destruct (meta d); reflexivity. }
  unfold setId. rewrite registerLink_stores, Hln.
  destruct (String.eqb_spec (longname d) "__proto__") as [Hproto|Hne].
  { rewrite Hproto, longnameToUrl_own. discriminate. }
  rewrite lookup_insert_eq.
  intros Hrun. exists coll, hs, d0. split; [reflexivity|].
  rewrite Hlink. cbn [fst]. unfold id_of_link.
  destruct (includes "#" link); cbn in Hrun; injection Hrun as <- _; reflexivity.
Qed.

Lemma setDocletsInformation_second_pass files (todo : list page_doclet) :
  forall done hs ds hs',
    setDocletsInformation files done todo hs = Ok (ds, hs') ->
    exists ds', ds = done ++ ds' /\ Forall2 (second_pass files) todo ds'.
Proof.
  induction todo as [|d rest IH]; intros done hs ds hs' Hrun.
  - injection Hrun as <- _. exists []. rewrite app_nil_r. split; [reflexivity|constructor].
  - cbn [setDocletsInformation] in Hrun.
    destruct (setDocletInformation files (fun cur => done ++ cur :: rest) d hs)
      as [[d' hs1]|e] eqn:Hstep; [|discriminate].
    cbn in Hrun. apply setDocletInformation_second_pass in Hstep.
    destruct (IH _ _ _ _ Hrun) as (ds' & -> & Hrest).
    exists (d' :: ds'). rewrite <- app_assoc. split; [reflexivity|].
    constructor; assumption.
Qed.

(** The two passes in one: the source files are the shortened files of
    the first pass, and every doclet is the second pass of a doclet that
    the first pass formatted. *)
Lemma enrich_second_pass commonPrefix (data : list host_doclet) hs ds files hs' :
  enrich commonPrefix data hs = Ok (ds, files, hs') ->
  files = shortenSourceFiles commonPrefix (snd (prepareDoclets data (mkPass1 hs [] []))) /\
  Forall2 (second_pass files) (fst (prepareDoclets data (mkPass1 hs [] []))) ds.
Proof.
  unfold enrich.
  destruct (prepareDoclets data (mkPass1 hs [] [])) as [ds1 st]. cbn [fst snd].
  destruct (setDocletsInformation (shortenSourceFiles commonPrefix st) [] ds1 (p1_helper st))
    as [[ds2 hs2]|e] eqn:Hrun; [|discriminate].
  cbn. intros [= <- <- <-]. split; [reflexivity|].
  apply setDocletsInformation_second_pass in Hrun as (ds' & -> & Hall). exact Hall.
Qed.

Lemma addSignatures_fields coll (d : page_doclet) :
  meta (addSignatures coll d) = meta d /\
  name (addSignatures coll d) = name d /\
  id (addSignatures coll d) = id d /\
  is_Some (ancestors (addSignatures coll d)) /\
  (is_Some (attribs d) -> is_Some (attribs (addSignatures coll d))).
Proof.
  destruct d as [k n ln desc ty ps rs m ex se sg at' i an mo].
  unfold addSignatures. cbn -[needsSignature String.eqb].
  destruct (needsSignature _); cbn -[String.eqb];
    destruct (String.eqb k "member"); cbn -[String.eqb];
    destruct (String.eqb k "constant"); cbn -[String.eqb];
    repeat split; eauto.
Qed.

Lemma setShortpath_path files (d d0 : page_doclet) :
  setShortpath files d = Ok d0 ->
  getPathFromDoclet d0 = getPathFromDoclet d /\ name d0 = name d /\
  attribs d0 = attribs d /\ kind d0 = kind d /\ type d0 = type d.
Proof.
  intros Hshort. apply setShortpath_fields in Hshort as [->|[short ->]];
    [repeat split|].
  unfold set_shortpath, getPathFromDoclet.
  destruct (meta d) as [m|] eqn:Hm; [|rewrite Hm; repeat split].
  repeat split.
Qed.

Lemma second_pass_path files (d d' : page_doclet) :
  second_pass files d d' -> getPathFromDoclet d' = getPathFromDoclet d.
Proof.
  intros (coll & hs & d0 & Hshort & ->).
  apply setShortpath_path in Hshort as (Hpath & _).
  rewrite <- Hpath. unfold getPathFromDoclet.
  destruct (addSignatures_fields coll (set_id (id_of_link (fst (createLink d hs)) d0) d0))
    as (-> & _). reflexivity.
Qed.

(** X10.  After both passes every doclet with a source location finds its
    source file among the source files, with its path as [resolved] and
    its path without the common prefix of all source paths as
    [shortened]; when that short path is not empty, it is the short path
    of the doclet's source location.  ([Object.keys] does not list the key
    [__proto__], which is left aside.) *)
Theorem short_path_attached commonPrefix (data : list host_doclet) hs ds files hs'
    (d' : page_doclet) p :
  enrich commonPrefix data hs = Ok (ds, files, hs') ->
  d' ∈ ds ->
  getPathFromDoclet d' = Some p ->
  p <> "__proto__" ->
  files_lookup p files =
    Some (mkSourceFile p
            (Some (short_path (commonPrefix (first_pass_paths data hs)) p))) /\
  (short_path (commonPrefix (first_pass_paths data hs)) p <> "" ->
   meta d' ≫= meta_shortpath =
     Some (short_path (commonPrefix (first_pass_paths data hs)) p)).
Proof.
  intros Hrun Hin Hpath _.
  apply enrich_second_pass in Hrun as [Hfiles Hall].
  destruct (prepareDoclets_paths data (mkPass1 hs [] [])) as (_ & Hlisted & Hentry);
    [apply NoDup_nil_2 | intros q Hq; inversion Hq |].
  pose proof (prepareDoclets_formatted data (mkPass1 hs [] [])) as Hfmt.
  unfold first_pass_paths.
  destruct (prepareDoclets data (mkPass1 hs [] [])) as [ds1 st]. cbn [fst snd] in *.
  apply list_elem_of_lookup in Hin as [n Hn].
  destruct (Forall2_lookup_r _ _ _ _ _ Hall Hn) as (d1 & Hn1 & Hpass).
  destruct (Forall2_lookup_r _ _ _ _ _ Hfmt Hn1) as (d & Hnd & Hdpath & _).
  pose proof (second_pass_path _ _ _ Hpass) as Hsame.
  rewrite Hpath in Hsame. symmetry in Hsame.
  assert (Hp : p ∈ p1_sourceFilePaths st).
  { apply Hlisted. right. exists d. split; [eapply list_elem_of_lookup_2, Hnd|].
    rewrite <- Hdpath. exact Hsame. }
  assert (Hlookup : files_lookup p files =
            Some (mkSourceFile p (Some (short_path (commonPrefix (p1_sourceFilePaths st)) p)))).
  { subst files. unfold shortenSourceFiles.
    destruct (p1_sourceFilePaths st) as [|q paths] eqn:Hpaths; [inversion Hp|].
    cbn [length Nat.eqb negb]. rewrite shortenPaths_lookup, (Hentry p Hp). reflexivity. }
  split; [exact Hlookup|]. intros Hshort.
  destruct Hpass as (coll & hs0 & d0 & Hset & ->).
  destruct (addSignatures_fields coll
              (set_id (id_of_link (fst (createLink d1 hs0)) d0) d0)) as (-> & _).
  change (meta (set_id (id_of_link (fst (createLink d1 hs0)) d0) d0)) with (meta d0).
  unfold setShortpath in Hset. rewrite Hsame, Hlookup in Hset. cbn [shortened] in Hset.
  apply String.eqb_neq in Hshort. rewrite Hshort in Hset. cbn [negb] in Hset.
  injection Hset as <-. unfold set_shortpath.
  unfold getPathFromDoclet in Hsame.
  destruct (meta d1) as [m|]; [reflexivity | discriminate].
Qed.

(** X11.  After both passes every doclet has its attributes, its
    ancestors and its id set.  The id is the name of the doclet or holds
    no [#]; and a doclet that needs no signature and is no member leaves
    with the empty string as attributes. *)
Theorem computed_fields_set commonPrefix (data : list host_doclet) hs ds files hs'
    (d' : page_doclet) :
  enrich commonPrefix data hs = Ok (ds, files, hs') ->
  d' ∈ ds ->
  is_Some (attribs d') /\ is_Some (ancestors d') /\
  (exists i, id d' = Some i /\ (i = name d' \/ includes "#" i = false)) /\
  (needsSignature d' = false -> kind d' <> "member" -> attribs d' = Some "").
Proof.
  intros Hrun Hin.
  apply enrich_second_pass in Hrun as [_ Hall].
  pose proof (prepareDoclets_formatted data (mkPass1 hs [] [])) as Hfmt.
  destruct (prepareDoclets data (mkPass1 hs [] [])) as [ds1 st]. cbn [fst snd] in *.
  apply list_elem_of_lookup in Hin as [n Hn].
  destruct (Forall2_lookup_r _ _ _ _ _ Hall Hn) as (d1 & Hn1 & Hpass).
  destruct (Forall2_lookup_r _ _ _ _ _ Hfmt Hn1) as (d & _ & _ & Hattribs).
  destruct Hpass as (coll & hs0 & d0 & Hset & ->).
  apply setShortpath_path in Hset as (_ & _ & Hattribs0 & _).
  rewrite Hattribs in Hattribs0.
  set (i := id_of_link (fst (createLink d1 hs0)) d0).
  destruct (addSignatures_fields coll (set_id i d0)) as (_ & Hname & Hid & Hanc & Hatt).
  split; [apply Hatt; cbn; rewrite Hattribs0; eauto|].
  split; [exact Hanc|]. split.
  - exists i. split; [rewrite Hid; reflexivity|]. rewrite Hname. cbn [name set_id].
    subst i. unfold id_of_link.
    destruct (includes "#" (fst (createLink d1 hs0))) eqn:Hhash; [right | left; reflexivity].
    apply after_last_hash_splits, Hhash.
  - assert (HA : attribs (set_id i d0) = Some "") by exact Hattribs0.
    revert HA. generalize (set_id i d0). intros dA HA.
    destruct dA as [k n0 ln desc ty ps rs m ex se sg at' i0 an mo].
    cbn [attribs] in HA. subst at'.
    unfold addSignatures.
    destruct (needsSignature (mkDoclet k n0 ln desc ty ps rs m ex se sg (Some "")
                                i0 an mo)) eqn:Hneeds.
    + destruct (needs_excludes_member _ Hneeds) as [Hm Hc]. cbn [kind] in Hm, Hc.
      apply String.eqb_neq in Hm, Hc. cbn -[needsSignature String.eqb].
      rewrite Hm. cbn -[needsSignature String.eqb]. rewrite Hc.
      intros Hno. exfalso. revert Hno Hneeds. unfold needsSignature. cbn -[String.eqb].
      congruence.
    + cbn -[needsSignature String.eqb].
      destruct (String.eqb_spec k "member") as [->|Hm]; cbn -[needsSignature String.eqb].
      * intros _ Hk. exfalso. revert Hk. cbn. congruence.
      * destruct (String.eqb_spec k "constant") as [->|Hc]; cbn -[needsSignature String.eqb].
        -- intros _ Hk. exfalso. apply Hk. reflexivity.
        -- reflexivity.
Qed.

End PipelineProofs.

(** A constant declared in the one source file [/src/limit.js]: its short
    path is [limit.js]. *)
Lemma short_path_attached_witness :
  let d : host_doclet :=
    mkDoclet "constant" "LIMIT" "LIMIT" None (Some (mkType (Some ["number"]))) None None
      (Some (mkMeta (Some "/src") "limit.js" None)) None None None None None None None in
  exists (d' : page_doclet) files hs',
    enrich (H := SampleHost.host) PosixPath.commonPrefix [d] ∅ = Ok ([d'], files, hs') /\
    files_lookup "/src/limit.js" files =
      Some (mkSourceFile "/src/limit.js" (Some "limit.js")) /\
    meta d' ≫= meta_shortpath = Some "limit.js".
Proof.
  intros d.
  assert (Hrun : enrich (H := SampleHost.host) PosixPath.commonPrefix [d] ∅ =
                 ltac:(let v := eval vm_compute in
                         (enrich (H := SampleHost.host) PosixPath.commonPrefix [d] ∅) in
                       exact v)) by reflexivity.
  lazymatch type of Hrun with
  | _ = Ok ([?d'], ?files, ?hs') => exists d', files, hs'
  end.
  split; [exact Hrun|].
  destruct (short_path_attached (H := SampleHost.host) PosixPath.commonPrefix [d] ∅
              _ _ _ _ "/src/limit.js" Hrun ltac:(left) eq_refl ltac:(discriminate))
    as [Hfile Hshort].
  split; [exact Hfile|]. apply Hshort. discriminate.
Defined.

(** The same constant: it leaves with its name as id. *)
Lemma computed_fields_set_witness :
  let d : host_doclet :=
    mkDoclet "constant" "LIMIT" "LIMIT" None (Some (mkType (Some ["number"]))) None None
      (Some (mkMeta (Some "/src") "limit.js" None)) None None None None None None None in
  exists (d' : page_doclet) files hs',
    enrich (H := SampleHost.host) PosixPath.commonPrefix [d] ∅ = Ok ([d'], files, hs') /\
    is_Some (attribs d') /\ is_Some (ancestors d') /\
    (exists i, id d' = Some i /\ (i = name d' \/ includes "#" i = false)) /\
    (needsSignature d' = false -> kind d' <> "member" -> attribs d' = Some "").
Proof.
  intros d.
  assert (Hrun : enrich (H := SampleHost.host) PosixPath.commonPrefix [d] ∅ =
                 ltac:(let v := eval vm_compute in
                         (enrich (H := SampleHost.host) PosixPath.commonPrefix [d] ∅) in
                       exact v)) by reflexivity.
  lazymatch type of Hrun with
  | _ = Ok ([?d'], ?files, ?hs') => exists d', files, hs'
  end.
  split; [exact Hrun|].
  exact (computed_fields_set (H := SampleHost.host) PosixPath.commonPrefix [d] ∅
           _ _ _ _ Hrun ltac:(left)).
Defined.

(** ** Pages of the tutorials *)


(** ** Symbols of modules *)

Lemma build_symbols_app pre rest symbols (σ : store) :
  Forall (plain_symbol σ) pre ->
  exists symbols', build_symbols (pre ++ rest) symbols σ = build_symbols rest symbols' σ.
Proof.
  intros Hall. revert symbols.
  induction Hall as [|l pre (d & Hl & Hplain) _ IH]; intros symbols.
  - exists symbols. reflexivity.
  - cbn [app build_symbols]. rewrite eff_bind_eq, read_eq, Hl, Hplain. apply IH.
Qed.

(** X13.  A symbol whose long name is a property that objects inherit
    from [Object.prototype], such as [constructor] or [toString], makes
    [attachModuleSymbols] throw a [TypeError] while it builds its lookup
    table: no module is given symbols, and the collection is as it
    was. *)
Theorem inherited_long_name_throws (pre post modules : list loc) (σ : store) l d :
  Forall (plain_symbol σ) pre ->
  σ !! l = Some d ->
  inherited (longname d) = true ->
  attachModuleSymbols (pre ++ l :: post) modules σ =
    (Throw (TypeError "symbols[symbol.longname].push is not a function"), σ).
Proof.
  intros Hpre Hl Hinh. unfold attachModuleSymbols. rewrite eff_bind_eq.
  destruct (build_symbols_app pre (l :: post) ∅ σ Hpre) as [symbols ->].
  cbn [build_symbols]. rewrite eff_bind_eq, read_eq, Hl, Hinh. reflexivity.
Qed.

(** A function documented under the name [toString]. *)
Lemma inherited_long_name_throws_witness :
  let σ : store := [SampleHost.plain "module" "module:foo" "module:foo";
                    SampleHost.plain "function" "toString" "toString"] in
  attachModuleSymbols [1] [0] σ =
    (Throw (TypeError "symbols[symbol.longname].push is not a function"), σ).
Proof.
  intros σ.
  apply (inherited_long_name_throws [] [] [0] σ 1
           (SampleHost.plain "function" "toString" "toString")).
  - constructor.
  - reflexivity.
  - reflexivity.
Defined.

Lemma objects_length (σ : store) ls :
  Forall (fun l => is_Some (σ !! l)) ls -> length (objects σ ls) = length ls.
Proof.
  induction 1 as [|x rest [d Hx] _ IH]; [reflexivity|].
  unfold objects in *. cbn [omap list_omap]. rewrite Hx. cbn. rewrite IH. reflexivity.
Qed.

(** X14.  Take a collection in which no doclet has symbols attached yet,
    symbols and modules whose long names are no properties of
    [Object.prototype], and a module among the modules none of whose shown
    symbols is itself one of the modules.  [attachModuleSymbols] returns.
    When some symbol has the long name of the module,
    it leaves the module with a list [modules] of new
    objects, all different: one for every shown symbol of its long name,
    in the order of the symbols, each the copy of its symbol, renamed when
    that is a class or a function.  The symbols themselves are never
    attached.  Without a symbol of its long name the module is left as it
    is. *)
Theorem attached_symbols_are_copies doclets mods m module (σ : store) :
  Forall (fun d => modules d = None) σ ->
  Forall (plain_symbol σ) doclets ->
  Forall (plain_symbol σ) mods ->
  m ∈ mods ->
  σ !! m = Some module ->
  (forall l, l ∈ shown_symbols σ (longname module) doclets -> l ∉ mods) ->
  exists σ',
    attachModuleSymbols doclets mods σ = (Ok tt, σ') /\
    match found_symbols σ (longname module) doclets with
    | [] => σ' !! m = Some module
    | _ :: _ =>
        exists copies,
          σ' !! m = Some (set_modules copies module) /\
          NoDup copies /\
          Forall (fun c => length σ <= c) copies /\
          Forall2 (fun c symbol => σ' !! c = Some (copy_symbol symbol)) copies
            (objects σ (shown_symbols σ (longname module) doclets))
    end.
Proof.
  intros _ Hall Hmods Hm Hmodule Hsep.
  destruct (attach_among doclets mods m module σ Hall Hmods Hm Hmodule Hsep)
    as (σ' & Hrun & Hafter).
  exists σ'. split; [exact Hrun|].
  destruct (found_symbols σ (longname module) doclets) as [|l0 found]; [exact Hafter|].
  destruct Hafter as (base & Hbase & Hattached & Hcopies).
  exists (seq base (length (shown_symbols σ (longname module) doclets))).
  split; [exact Hattached|]. split; [apply NoDup_seq|]. split.
  - apply Forall_forall. intros c Hc. apply elem_of_seq in Hc. lia.
  - apply Forall2_same_length_lookup_2.
    + rewrite length_seq, objects_length; [reflexivity|].
      apply shown_valid, Hall.
    + intros i c symbol Hc Hs. apply lookup_seq in Hc as [-> _].
      apply Hcopies, Hs.
Qed.

(** A module, the function it exports, a function of another name and a
    second module that comes first: one copy is attached. *)
Lemma attached_symbols_are_copies_witness :
  let module : page_doclet := SampleHost.plain "module" "foo" "module:foo" in
  let exported : page_doclet :=
    mkDoclet "function" "module:foo" "module:foo" (Some "Does it.") None None None None
      None None None None None None None in
  let other : page_doclet :=
    mkDoclet "function" "bar" "module:bar" (Some "Does not.") None None None None
      None None None None None None None in
  let second : page_doclet := SampleHost.plain "module" "bar" "module:bar" in
  let σ : store := [module; exported; other; second] in
  exists σ' copies,
    attachModuleSymbols [0; 1; 2; 3] [3; 0] σ = (Ok tt, σ') /\
    σ' !! 0 = Some (set_modules copies module) /\
    NoDup copies /\
    Forall (fun c => 4 <= c) copies /\
    Forall2 (fun c symbol => σ' !! c = Some (copy_symbol symbol)) copies [exported].
Proof.
  intros module exported other second σ.
  destruct (attached_symbols_are_copies [0; 1; 2; 3] [3; 0] 0 module σ)
    as (σ' & Hrun & Hafter).
  - repeat constructor.
  - repeat constructor;
      [exists module | exists exported | exists other | exists second];
      split; reflexivity.
  - repeat constructor; [exists second | exists module]; split; reflexivity.
  - right. left.
  - reflexivity.
  - intros l Hl. vm_compute in Hl. apply list_elem_of_singleton in Hl. subst l.
    intros Hin. apply elem_of_cons in Hin as [Hin|Hin]; [discriminate|].
    apply list_elem_of_singleton in Hin. discriminate.
  - destruct Hafter as (copies & Hattached & Hnodup & Hnew & Hcopies).
    exists σ', copies. repeat split; assumption.
Defined.

(** ** Links to externals *)

Lemma drop_last_quote_app (s : string) : drop_last_quote (s +:+ dq) = s.
Proof.
  induction s as [|c s IH]; [reflexivity|].
  rewrite append_cons. cbn [drop_last_quote]. rewrite IH.
  destruct s; reflexivity.
Qed.

Lemma drop_last_quote_plain (s : string) : includes dq s = false -> drop_last_quote s = s.
Proof.
  induction s as [|c s IH]; [reflexivity|].
  unfold dq. rewrite includes_cons. intros Hno.
  apply orb_false_elim in Hno as [Hc Hs]. cbn [drop_last_quote].
  rewrite (IH Hs). destruct s; [|reflexivity].
  unfold quote. rewrite Ascii.eqb_sym, Hc. reflexivity.
Qed.

(** X15.  [linktoExternal] links to the name of the external without the
    quotes around it: a name between two quotes is linked as what stands
    between them, quotes inside included, and a name without any quote
    as it is. *)
Theorem external_name_unquoted `{Host} (longName : string) :
  (forall name, linktoExternal longName (dq +:+ name +:+ dq) = linkto longName name) /\
  (forall name, includes dq name = false ->
                linktoExternal longName name = linkto longName name).
Proof.
  split; intros name.
  - unfold linktoExternal, dq at 1. rewrite append_cons. cbn [strip_quotes].
    change ("" +:+ name +:+ dq) with (name +:+ dq).
    unfold quote. rewrite Ascii.eqb_refl, drop_last_quote_app. reflexivity.
  - intros Hno. unfold linktoExternal. f_equal.
    destruct name as [|c name]; [reflexivity|]. cbn [strip_quotes].
    pose proof Hno as Hno'. unfold dq in Hno'. rewrite includes_cons in Hno'.
    apply orb_false_elim in Hno' as [Hc _].
    unfold quote. rewrite Ascii.eqb_sym, Hc. apply drop_last_quote_plain, Hno.
Qed.

(** The external [jQuery], as the host names it and without quotes. *)
Lemma external_name_unquoted_witness :
  linktoExternal (H := SampleHost.host) "external:jQuery" (dq +:+ "jQuery" +:+ dq) = "jQuery" /\
  linktoExternal (H := SampleHost.host) "external:jQuery" "jQuery" = "jQuery".
Proof.
  destruct (external_name_unquoted (H := SampleHost.host) "external:jQuery") as [Hq Hp].
  split; [apply (Hq "jQuery") | apply (Hp "jQuery"); reflexivity].
Defined.

(** ** What a formatted example is made of *)

Section ExampleSoundness.
Import Regex.

(** A greedy run that matches took a run of the class and went on with
    the rest. *)
Lemma greedy_sound {R} cls (k : string -> list string -> option R) (s : string) :
  forall opened r,
    greedy cls k s opened = Some r ->
    exists w t, s = w +:+ t /\ all_in cls w = true /\ k t (consume w opened) = Some r.
Proof.
  induction s as [|c s IH]; intros opened r Hrun.
  - exists "", "". rewrite consume_empty. auto.
  - cbn [greedy] in Hrun.
    assert (Hhere : k (String c s) opened = Some r ->
              exists w t, String c s = w +:+ t /\ all_in cls w = true /\
                          k t (consume w opened) = Some r).
    { intros Hk. exists "", (String c s). rewrite consume_empty. auto. }
    destruct (cls c) eqn:Hc; [|auto].
    destruct (greedy cls k s (consume (String c "") opened)) as [r'|] eqn:Hrest; [|auto].
    injection Hrun as ->.
    destruct (IH _ _ Hrest) as (w & t & -> & Hw & Hk).
    exists (String c w), t. rewrite consume_consume in Hk.
    split; [reflexivity|]. split; [cbn [all_in]; rewrite Hc; exact Hw | exact Hk].
Qed.

(** So did a lazy run. *)
Lemma lazy_sound {R} cls (k : string -> list string -> option R) (s : string) :
  forall opened r,
    lazy cls k s opened = Some r ->
    exists w t, s = w +:+ t /\ all_in cls w = true /\ k t (consume w opened) = Some r.
Proof.
  induction s as [|c s IH]; intros opened r Hrun.
  - cbn [lazy] in Hrun. exists "", "". rewrite consume_empty.
    destruct (k "" opened); [auto | discriminate].
  - cbn [lazy] in Hrun.
    destruct (k (String c s) opened) as [r'|] eqn:Hhere.
    + injection Hrun as ->. exists "", (String c s). rewrite consume_empty. auto.
    + destruct (cls c) eqn:Hc; [|discriminate].
      destruct (IH _ _ Hrun) as (w & t & -> & Hw & Hk).
      exists (String c w), t. rewrite consume_consume in Hk.
      split; [reflexivity|]. split; [cbn [all_in]; rewrite Hc; exact Hw | exact Hk].
Qed.

(** A literal that matches took as many characters as it has, equal to
    its own up to case. *)
Lemma strip_ci_split (l s s' : string) :
  strip_ci l s = Some s' ->
  s = take_chars (String.length l) s +:+ s' /\
  strip_ci l (take_chars (String.length l) s) = Some "".
Proof.
  revert s. induction l as [|x l IH]; intros s Hs.
  - injection Hs as <-. split; reflexivity.
  - destruct s as [|y s]; [discriminate|]. cbn [strip_ci] in Hs.
    destruct (eqb_ci x y) eqn:Hxy; [|discriminate].
    destruct (IH s Hs) as [Heq Hlit].
    cbn [String.length take_chars strip_ci]. rewrite Hxy, append_cons, <- Heq.
    split; [reflexivity | exact Hlit].
Qed.

(** What a match of the regular expression of [formatExample] says of
    the example. *)
Lemma caption_regex_sound (example : string) (caps : list string) :
  exec caption_regex example = Some caps ->
  exists lead open c inner close gap nl code,
    example = lead +:+ open +:+ String c inner +:+ close +:+ gap +:+ String nl code /\
    all_in is_space lead = true /\
    strip_ci "<caption>" open = Some "" /\
    strip_ci "</caption>" close = Some "" /\
    all_in is_space gap = true /\
    is_newline nl = true /\
    code <> "" /\
    caps = [String c inner; gap +:+ String nl ""; code].
Proof.
  unfold exec, caption_regex. cbn [run]. intros Hrun.
  apply greedy_sound in Hrun as (lead & t1 & -> & Hlead & Hrun).
  cbn [run consume map] in Hrun.
  destruct (strip_ci "<caption>" t1) as [t2|] eqn:Hopen; [|discriminate].
  apply strip_ci_split in Hopen as [Ht1 Hopen].
  remember (take_chars (String.length "<caption>") t1) as open eqn:Hopen_def.
  clear Hopen_def.
  destruct t2 as [|c t3]; [discriminate|].
  cbn [any_char consume map] in Hrun.
  apply lazy_sound in Hrun as (inner & t4 & -> & _ & Hrun).
  cbn [run consume map] in Hrun.
  destruct (strip_ci "</caption>" t4) as [t5|] eqn:Hclose; [|discriminate].
  apply strip_ci_split in Hclose as [Ht4 Hclose].
  remember (take_chars (String.length "</caption>") t4) as close eqn:Hclose_def.
  clear Hclose_def.
  cbn [consume map] in Hrun.
  apply greedy_sound in Hrun as (gap & t6 & -> & Hgap & Hrun).
  cbn [run consume map] in Hrun.
  destruct t6 as [|nl t7]; [discriminate|].
  destruct (is_newline nl) eqn:Hnl; [|discriminate].
  cbn [consume map app] in Hrun.
  destruct t7 as [|c2 t8]; [discriminate|].
  cbn [any_char consume map] in Hrun.
  apply greedy_sound in Hrun as (w8 & t9 & -> & _ & Hrun).
  cbn [run consume map app] in Hrun.
  destruct t9 as [|? ?]; [|discriminate]. injection Hrun as <-.
  rewrite append_empty in Ht4. subst t1 t4.
  exists lead, open, c, inner, close, gap, nl, (String c2 w8).
  repeat split; try assumption; discriminate.
Qed.

End ExampleSoundness.

(** X16.  Whatever the example, [formatExample] either returns it whole
    as code with an empty caption, or it has split it: the example is
    then white space, a tag [<caption>] in some case, the caption, a tag
    [</caption>] in some case, white space, a line break and the code, in
    that order; the caption and the code are not empty, and the code is the
    end of the example. *)
Theorem formatExample_sound (example : string) :
  formatExample example = {| caption := ""; code := example |} \/
  exists lead open c inner close gap nl c' rest,
    example =
      lead +:+ open +:+ String c inner +:+ close +:+ gap +:+ String nl (String c' rest) /\
    all_space lead = true /\
    Regex.strip_ci "<caption>" open = Some "" /\
    Regex.strip_ci "</caption>" close = Some "" /\
    all_space gap = true /\
    Regex.is_newline nl = true /\
    formatExample example = {| caption := String c inner; code := String c' rest |}.
Proof.
  unfold formatExample.
  destruct (Regex.exec caption_regex example) as [caps|] eqn:Hexec; [|left; reflexivity].
  apply caption_regex_sound in Hexec
    as (lead & open & c & inner & close & gap & nl & code & Hex & Hlead & Hopen &
        Hclose & Hgap & Hnl & Hcode & ->).
  right. destruct code as [|c' rest]; [contradiction|].
  exists lead, open, c, inner, close, gap, nl, c', rest.
  repeat split; assumption.
Qed.

(** ** Pages of the members *)

Section MemberPagesProofs.
Context `{Host}.

(** One array of members: a page at the link if the array holds a doclet
    of the long name, nothing otherwise. *)
Lemma generateMember_page v title data ln url st :
  written (generateMember v title data (ln, url) st) =
    written st ++ member_page v ln url (title, data).
Proof.
  unfold generateMember, member_page. cbn [fst snd].
  destruct (filter (fun d => longname d = ln) data) as [|first rest].
  - rewrite app_nil_r. reflexivity.
  - reflexivity.
Qed.

Lemma member_page_path v ln url kind :
  Forall (fun w => w_path w = path_join OUTDIR url) (member_page v ln url kind).
Proof.
  unfold member_page. destruct (filter _ (snd kind)); repeat constructor.
Qed.

(** X17.  The pages of one long name all go to the one file of its link.
    There is one page for each of the arrays of modules, classes,
    namespaces, mixins, externals and interfaces that holds a doclet of
    that long name, under the title [Module], [Class], [Namespace],
    [Mixin], [External] or [Interface], and the pages are written in that
    order: of several, the one written last is the one that stays. *)
Theorem member_pages_share_file v members ln url st :
  written (generateMemberPages v members (ln, url) st) =
    written st ++ flat_map (member_page v ln url) (member_kinds members) /\
  Forall (fun w => w_path w = path_join OUTDIR url)
    (flat_map (member_page v ln url) (member_kinds members)).
Proof.
  split.
  - unfold generateMemberPages, member_kinds.
    rewrite !generateMember_page. cbn [flat_map].
    rewrite app_nil_r, <- !app_assoc. reflexivity.
  - apply Forall_flat_map, Forall_forall. intros kind _. apply member_page_path.
Qed.

End MemberPagesProofs.

(** ** The listing of a source file and its link *)

(** X19.  The listing of a source file is written to the file name that
    the helper hands out for its short path, and, unless the short path is
    [__proto__], that file name is what the helper has registered under
    the short path afterwards: the link of a source file leads to its
    listing. *)
Theorem source_listing_linked `{Host} (v : view) (encoding file : string)
    (f : source_file) (st : out_state) :
  or_empty (shortened f) <> "__proto__" ->
  exists html,
    longnameToUrl (out_helper (generateSourceFile v encoding (file, f) st))
      !! or_empty (shortened f)
    = Some (fst (getUniqueFilename (or_empty (shortened f)) (out_helper st))) /\
    last (written (generateSourceFile v encoding (file, f) st))
    = Some (mkWrite
              (path_join OUTDIR
                 (fst (getUniqueFilename (or_empty (shortened f)) (out_helper st))))
              html "utf8").
Proof.
  intros Hne. apply String.eqb_neq in Hne. unfold generateSourceFile.
  destruct (getUniqueFilename (or_empty (shortened f)) (out_helper st))
    as [outfile hs]. cbn [fst].
  destruct (fs_readFileSync (resolved f) encoding) as [text|e];
    cbn -[util_format]; rewrite registerLink_stores, Hne, lookup_insert_eq, last_snoc;
    eexists; split; reflexivity.
Qed.

(** The listing of [/src/add.js], whose short path is [add.js]. *)
Lemma source_listing_linked_witness :
  exists html,
    @longnameToUrl SampleHost.host
      (out_helper
         (generateSourceFile (H := SampleHost.host) tt "utf8"
            ("/src/add.js", mkSourceFile "/src/add.js" (Some "add.js"))
            (mkOut [] [] ∅)))
      !! "add.js"
    = Some "add.js.html" /\
    last (written
            (generateSourceFile (H := SampleHost.host) tt "utf8"
               ("/src/add.js", mkSourceFile "/src/add.js" (Some "add.js"))
               (mkOut [] [] ∅)))
    = Some (mkWrite "out/add.js.html" html "utf8").
Proof.
  apply (source_listing_linked (H := SampleHost.host) tt "utf8" "/src/add.js"
           (mkSourceFile "/src/add.js" (Some "add.js")) (mkOut [] [] ∅)).
  discriminate.
Defined.
